(** * AucTok: auction-listing scrapers

    A shallow embedding of [scrape_auctionhouse.py] (sitemap pipeline) and
    [scrape_national_lots.py] (landing-page pipeline), with the properties
    their specification states about them.

    Python strings are modelled as lists of characters whose code points are
    below 256; the third-party parsers (ElementTree, BeautifulSoup, [re],
    [json]) are taken as parameters that return what the code reads from
    them, and [urllib.parse.urlparse] is modelled after CPython 3.12. *)

From Stdlib Require Import Ascii String.
From Stdlib Require Import List Bool Arith ZArith NArith Lia Sorted.
Import ListNotations.

Local Open Scope list_scope.

(** ** Python strings *)

Module PyStr.

Definition str := list ascii.

(** A string literal of the source. *)
Definition py (s : string) : str := list_ascii_of_string s.
Arguments py : simpl never.

Definition ord (c : ascii) : N := N_of_ascii c.

Definition chr_eqb (a b : ascii) : bool := Ascii.eqb a b.
Arguments chr_eqb : simpl never.

Fixpoint str_eqb (a b : str) : bool :=
  match a, b with
  | [], [] => true
  | x :: a', y :: b' => chr_eqb x y && str_eqb a' b'
  | _, _ => false
  end.

(** Truth value of a string: [bool(s)]. *)
Definition nonempty (s : str) : bool :=
  match s with [] => false | _ :: _ => true end.

(** Truth value of an [Optional[str]]. *)
Definition truthy (o : option str) : bool :=
  match o with Some s => nonempty s | None => false end.

(** [o or ""] *)
Definition or_empty (o : option str) : str :=
  match o with Some s => s | None => [] end.

(** [c.lower()] on code points below 256: A-Z and the Latin-1 capitals. *)
Definition chr_lower (c : ascii) : ascii :=
  let n := ord c in
  if (((65 <=? n) && (n <=? 90))
      || ((192 <=? n) && (n <=? 222) && negb (n =? 215)))%N
  then ascii_of_N (n + 32) else c.

Definition lower (s : str) : str := map chr_lower s.

(** [c.isspace()] on code points below 256. *)
Definition is_space (c : ascii) : bool :=
  let n := ord c in
  (((9 <=? n) && (n <=? 13)) || ((28 <=? n) && (n <=? 32))
   || (n =? 133) || (n =? 160))%N.

Fixpoint lstrip_by (p : ascii -> bool) (s : str) : str :=
  match s with
  | c :: s' => if p c then lstrip_by p s' else s
  | [] => []
  end.

Definition rstrip_by (p : ascii -> bool) (s : str) : str :=
  rev (lstrip_by p (rev s)).

(** [s.strip()] *)
Definition strip (s : str) : str := rstrip_by is_space (lstrip_by is_space s).

(** [s.startswith(p)] *)
Fixpoint startswith (p s : str) : bool :=
  match p, s with
  | [], _ => true
  | x :: p', y :: s' => chr_eqb x y && startswith p' s'
  | _ :: _, [] => false
  end.

(** [s.endswith(p)] *)
Definition endswith (p s : str) : bool := startswith (rev p) (rev s).

(** [needle in hay] *)
Fixpoint contains (needle hay : str) : bool :=
  startswith needle hay
  || match hay with
     | [] => false
     | _ :: hay' => contains needle hay'
     end.

(** [c in s] for a single character. *)
Definition has_chr (c : ascii) (s : str) : bool := existsb (chr_eqb c) s.

(** Lexicographic order on code points, the order of [sorted]. *)
Fixpoint str_ltb (a b : str) : bool :=
  match a, b with
  | [], [] => false
  | [], _ :: _ => true
  | _ :: _, [] => false
  | x :: a', y :: b' =>
      if (ord x <? ord y)%N then true
      else if (ord y <? ord x)%N then false
      else str_ltb a' b'
  end.

Definition str_leb (a b : str) : bool := negb (str_ltb b a).

(** Membership in a list or a set of strings. *)
Definition mem (x : str) (l : list str) : bool := existsb (str_eqb x) l.

End PyStr.
Import PyStr.

(** ** The sitemap pipeline's record and its availability classifier *)

Record PropertyRecord := mkPropertyRecord {
  url : str;
  title : option str;
  address : option str;
  guide_price : option str;
  status : option str;
  auction_date : option str;
  lot_number : option str
}.

Definition sold_flags : list str :=
  [py "sold"; py "exchanged"; py "withdrawn"; py "completed"; py "contracted"].

Definition is_for_sale (record : PropertyRecord) : bool :=
  let status := lower (or_empty record.(status)) in
  if nonempty status && existsb (fun flag => contains flag status) sold_flags
  then false
  else if truthy record.(guide_price) then true
  else negb (nonempty status).

(** ** [urllib.parse.urlparse]

    Modelled after CPython 3.12's [urlsplit] and [urlparse].  The validation
    of a bracketed network location ([ValueError: Invalid IPv6 URL]) is a
    function of the network location alone and differs between Python
    versions; it is the parameter [netloc_ok]. *)

Module UrlParse.

Record ParseResult := mkParseResult {
  scheme : str;
  netloc : str;
  path : str;
  params : str;
  query : str;
  fragment : str
}.

(** [s.partition(c)] when [c] occurs in [s]: the text before and after the
    first occurrence, that is [s[:i]] and [s[i+1:]] for [i = s.find(c)]. *)
Fixpoint partition (c : ascii) (s : str) : option (str * str) :=
  match s with
  | [] => None
  | x :: s' =>
      if chr_eqb x c then Some ([], s')
      else match partition c s' with
           | Some (a, b) => Some (x :: a, b)
           | None => None
           end
  end.

(** [s.rpartition(c)] when [c] occurs in [s]: split at the last occurrence. *)
Fixpoint rpartition (c : ascii) (s : str) : option (str * str) :=
  match s with
  | [] => None
  | x :: s' =>
      match rpartition c s' with
      | Some (a, b) => Some (x :: a, b)
      | None => if chr_eqb x c then Some ([], s') else None
      end
  end.

(** The longest prefix without a character satisfying [p], and the rest. *)
Fixpoint break (p : ascii -> bool) (s : str) : str * str :=
  match s with
  | [] => ([], [])
  | x :: s' =>
      if p x then ([], s)
      else let (a, b) := break p s' in (x :: a, b)
  end.

(** [_WHATWG_C0_CONTROL_OR_SPACE] *)
Definition c0_or_space (c : ascii) : bool := (ord c <=? 32)%N.

(** [_UNSAFE_URL_BYTES_TO_REMOVE]: tab, carriage return, newline. *)
Definition unsafe_byte (c : ascii) : bool :=
  ((ord c =? 9) || (ord c =? 13) || (ord c =? 10))%N.

(** [c.isascii() and c.isalpha()] *)
Definition ascii_alpha (c : ascii) : bool :=
  let n := ord c in
  (((65 <=? n) && (n <=? 90)) || ((97 <=? n) && (n <=? 122)))%N.

(** [c in scheme_chars]: letters, digits, [+], [-], [.] *)
Definition scheme_char (c : ascii) : bool :=
  let n := ord c in
  ascii_alpha c
  || (((48 <=? n) && (n <=? 57)) || (n =? 43) || (n =? 45) || (n =? 46))%N.

Definition first_alpha (s : str) : bool :=
  match s with c :: _ => ascii_alpha c | [] => false end.

(** The delimiters that end a network location: [/], [?], [#]. *)
Definition netloc_delim (c : ascii) : bool :=
  chr_eqb c "/" || chr_eqb c "?" || chr_eqb c "#".

Definition uses_params : list str :=
  [py ""; py "ftp"; py "hdl"; py "prospero"; py "http"; py "imap";
   py "https"; py "shttp"; py "rtsp"; py "rtspu"; py "sip"; py "sips";
   py "mms"; py "sftp"; py "tel"].

(** [_splitparams]: [url.find(';', url.rfind('/'))] looks for the first
    semicolon of the last path segment. *)
Definition splitparams (url : str) : str * str :=
  match rpartition "/" url with
  | Some (head, seg) =>
      match partition ";" seg with
      | Some (a, b) => (head ++ "/"%char :: a, b)
      | None => (url, [])
      end
  | None =>
      match partition ";" url with
      | Some (a, b) => (a, b)
      | None => (removelast url, url)
      end
  end.

Section WithNetlocCheck.

(** [_check_bracketed_netloc], as a predicate: does a network location with
    both brackets pass? *)
Variable check_bracketed_netloc : str -> bool.

(** The bracket checks of [urlsplit]: a lone bracket is refused, a bracketed
    host is handed to [_check_bracketed_netloc]. *)
Definition netloc_valid (netloc : str) : bool :=
  if has_chr "[" netloc
  then has_chr "]" netloc && check_bracketed_netloc netloc
  else negb (has_chr "]" netloc).

(** [i = url.find(':')] and the scheme test that follows it. *)
Definition split_scheme (url : str) : str * str :=
  match partition ":" url with
  | Some (pre, rest) =>
      if nonempty pre && first_alpha pre && forallb scheme_char pre
      then (lower pre, rest)
      else ([], url)
  | None => ([], url)
  end.

(** [if url[:2] == '//': netloc, url = _splitnetloc(url, 2)], with its
    checks; [None] stands for [ValueError]. *)
Definition split_netloc (url : str) : option (str * str) :=
  if startswith (py "//") url then
    let (netloc, rest) := break netloc_delim (skipn 2 url) in
    if netloc_valid netloc then Some (netloc, rest) else None
  else Some ([], url).

(** [if c in url: url, tail = url.split(c, 1)] *)
Definition cut (c : ascii) (url : str) : str * str :=
  match partition c url with
  | Some (a, b) => (a, b)
  | None => (url, [])
  end.

(** [urlsplit(url)] followed by the parameter split of [urlparse(url)]. *)
Definition urlparse (url : str) : option ParseResult :=
  let url := lstrip_by c0_or_space url in
  let url := filter (fun c => negb (unsafe_byte c)) url in
  let '(scheme, url) := split_scheme url in
  match split_netloc url with
  | None => None
  | Some (netloc, url) =>
      let '(url, fragment) := cut "#" url in
      let '(url, query) := cut "?" url in
      let '(url, params) :=
        if mem scheme uses_params && has_chr ";" url then splitparams url
        else (url, []) in
      Some (mkParseResult scheme netloc url params query fragment)
  end.

(** [f"{parsed.scheme}://{parsed.netloc}{parsed.path}"] *)
Definition canonical_of (parsed : ParseResult) : str :=
  parsed.(scheme) ++ py "://" ++ parsed.(netloc) ++ parsed.(path).

(** The canonical form of a URL, as [find_lot_links] computes it. *)
Definition canonicalize (u : str) : option str :=
  option_map canonical_of (urlparse u).

End WithNetlocCheck.

(** [_check_bracketed_netloc] before Python 3.11.4: no further check. *)
Definition no_bracket_check (netloc : str) : bool := true.

End UrlParse.

(** ** Exceptions and the HTTP session *)

(** What one request can raise. *)
Inductive request_error : Type :=
| RequestException (msg : str)
    (** raised by [session.get]: connection error, timeout, ... *)
| HTTPError (status_code : Z)
    (** raised by [response.raise_for_status()] *).

(** What the pipelines raise. *)
Inductive exn : Type :=
| RuntimeError (url : str) (last_error : option request_error)
    (** [RuntimeError(f"Failed to fetch {url}: {last_error}")] *)
| FetchErrorExc (url : str) (exc : request_error)
    (** [FetchError(f"Failed to fetch {url}: {exc}")] *)
| FetchErrorStatus (url : str) (status_code : Z)
    (** [FetchError(f"Failed to fetch {url}: HTTP {resp.status_code}")] *)
| ValueError
    (** raised by [urlparse] and [urljoin] on an invalid network location *).

Inductive result (E A : Type) : Type :=
| Ok (a : A)
| Raise (e : E).
Arguments Ok {E A} a.
Arguments Raise {E A} e.

Record Response := mkResponse {
  status_code : Z;
  text : str
}.

(** [response.raise_for_status()] raises on 4xx and 5xx; [response.ok] is
    its negation. *)
Definition is_error_status (r : Response) : bool :=
  ((400 <=? r.(status_code)) && (r.(status_code) <? 600))%Z.

Definition ok (r : Response) : bool := negb (is_error_status r).

Module Fetch.
Section WithSession.

(** The state of the network and the session, and one [session.get]. *)
Variable W : Type.
Variable session_get : W -> str -> W * result request_error Response.

(** The body of the [try] block of [fetch_text]. *)
Definition attempt_once (w : W) (url : str) : W * result request_error str :=
  let (w', r) := session_get w url in
  match r with
  | Raise exc => (w', Raise exc)
  | Ok response =>
      if is_error_status response
      then (w', Raise (HTTPError response.(status_code)))
      else (w', Ok response.(text))
  end.

(** [for attempt in range(1, retries + 1)], with [n] iterations left.  The
    [time.sleep] between attempts does not act on the session. *)
Fixpoint fetch_loop (n : nat) (w : W) (url : str) (retries attempt : Z)
    (last_error : option request_error) : W * result exn str :=
  match n with
  | O => (w, Raise (RuntimeError url last_error))
  | S n' =>
      let (w', r) := attempt_once w url in
      match r with
      | Ok body => (w', Ok body)
      | Raise exc =>
          if (attempt >=? retries)%Z
          then (w', Raise (RuntimeError url (Some exc)))
          else fetch_loop n' w' url retries (attempt + 1)%Z (Some exc)
      end
  end.

Definition fetch_text (w : W) (url : str) (retries : Z) : W * result exn str :=
  fetch_loop (Z.to_nat retries) w url retries 1%Z None.

(** [fetch_content] of the landing-page pipeline: one attempt.  Here
    [session_get] stands for the request as this function sends it, with
    its own [User-Agent] header and time-out, and [text] for the body as
    this function reads it, decoded as UTF-8 when the response names no
    encoding. *)
Definition fetch_content (w : W) (url : str) : W * result exn str :=
  let (w', r) := session_get w url in
  match r with
  | Raise exc => (w', Raise (FetchErrorExc url exc))
  | Ok resp =>
      if negb (ok resp)
      then (w', Raise (FetchErrorStatus url resp.(status_code)))
      else (w', Ok resp.(text))
  end.

End WithSession.
End Fetch.

(** ** Sitemap discovery ([iter_sitemap_property_urls]) *)

(** What the traversal reads from a parsed sitemap document: [root.tag] and
    the [text] of every element found by [root.findall(".//{*}loc")]. *)
Record Element := mkElement {
  tag : str;
  locs : list (option str)
}.

Inductive outcome (A : Type) : Type :=
| Returned (a : A)
| Raised (e : exn)
| OutOfFuel.
Arguments Returned {A} a.
Arguments Raised {A} e.
Arguments OutOfFuel {A}.

(** [s.add(x)] on a set kept as a duplicate-free list. *)
Definition set_add (x : str) (s : list str) : list str :=
  if mem x s then s else x :: s.

Fixpoint insert_sorted (x : str) (l : list str) : list str :=
  match l with
  | [] => [x]
  | y :: l' => if str_leb x y then x :: l else y :: insert_sorted x l'
  end.

(** [sorted(s)] *)
Definition sorted (s : list str) : list str :=
  fold_right insert_sorted [] s.

(** Every call of [fetch_text] made by a traversal, with what it gave,
    latest first. *)
Definition trace := list (str * result exn str).

Module Sitemap.
Section WithWeb.

Variable check_bracketed_netloc : str -> bool.
Variable W : Type.
Variable session_get : W -> str -> W * result request_error Response.

(** [ET.fromstring(body)]; [None] stands for [ET.ParseError]. *)
Variable fromstring : str -> option Element.

Definition looks_like_property_url (url : str) : result exn bool :=
  match UrlParse.urlparse check_bracketed_netloc url with
  | None => Raise ValueError
  | Some parsed =>
      let path := lower parsed.(UrlParse.path) in
      Ok (contains (py "/property/") path || contains (py "/properties/") path)
  end.

(** One round of the loop over the [loc] elements of a sitemap index.  The
    stack [to_visit] is kept with its top first: [to_visit.append] is a cons
    and [to_visit.pop()] takes the head. *)
Definition enqueue_child (visited : list str) (max_nested : Z)
    (to_visit : list str) (loc : option str) : list str :=
  let loc_text := strip (or_empty loc) in
  if negb (nonempty loc_text) || mem loc_text visited then to_visit
  else if (Z.of_nat (length visited) + Z.of_nat (length to_visit)
           >=? max_nested)%Z
  then to_visit
  else if endswith (py ".xml") loc_text then loc_text :: to_visit
  else to_visit.

Definition enqueue_children (visited : list str) (max_nested : Z)
    (locs : list (option str)) (to_visit : list str) : list str :=
  fold_left (enqueue_child visited max_nested) locs to_visit.

(** The loop over the [loc] elements of a leaf sitemap. *)
Fixpoint collect_properties (locs : list (option str))
    (property_urls : list str) : result exn (list str) :=
  match locs with
  | [] => Ok property_urls
  | loc :: rest =>
      let loc_text := strip (or_empty loc) in
      if negb (nonempty loc_text) then collect_properties rest property_urls
      else
        match looks_like_property_url loc_text with
        | Raise e => Raise e
        | Ok true => collect_properties rest (set_add loc_text property_urls)
        | Ok false => collect_properties rest property_urls
        end
  end.

(** Where a traversal stops: the session, the calls of [fetch_text] and
    the result. *)
Record Crawl := mkCrawl {
  world : W;
  fetched : trace;
  result_of : outcome (list str)
}.

(** [while to_visit:] with [fuel] rounds left. *)
Fixpoint crawl (fuel : nat) (max_nested : Z) (w : W)
    (to_visit visited property_urls : list str) (trace : trace) : Crawl :=
  match fuel with
  | O => mkCrawl w trace OutOfFuel
  | S fuel' =>
      match to_visit with
      | [] => mkCrawl w trace (Returned (sorted property_urls))
      | current :: to_visit =>
          if mem current visited
          then crawl fuel' max_nested w to_visit visited property_urls trace
          else
            let visited := current :: visited in
            let (w, r) := Fetch.fetch_text W session_get w current 3 in
            let trace := (current, r) :: trace in
            match r with
            | Raise e => mkCrawl w trace (Raised e)
            | Ok body =>
                match fromstring body with
                | None =>
                    crawl fuel' max_nested w to_visit visited property_urls
                      trace
                | Some root =>
                    if endswith (py "sitemapindex") (lower root.(tag))
                    then
                      crawl fuel' max_nested w
                        (enqueue_children visited max_nested root.(locs)
                           to_visit)
                        visited property_urls trace
                    else
                      match collect_properties root.(locs) property_urls with
                      | Raise e => mkCrawl w trace (Raised e)
                      | Ok property_urls =>
                          crawl fuel' max_nested w to_visit visited
                            property_urls trace
                      end
                end
            end
      end
  end.

(** Rounds that always suffice: with [m = max(1, max_nested)], the size of
    [visited] plus that of [to_visit] never exceeds [m]. *)
Definition enough_fuel (max_nested : Z) : nat :=
  let m := Z.to_nat (Z.max 1 max_nested) in
  m * (m + 1) + 2.

Definition iter_sitemap_property_urls (w : W) (root_sitemap : str)
    (max_nested : Z) : Crawl :=
  crawl (enough_fuel max_nested) max_nested w [root_sitemap] [] [] [].

End WithWeb.
End Sitemap.

(** ** The sitemap pipeline ([run]) *)

(** [l[:k]] *)
Definition slice_to {A : Type} (k : Z) (l : list A) : list A :=
  if (k <? 0)%Z then firstn (length l - Z.to_nat (- k)) l
  else firstn (Z.to_nat k) l.

(** An exported file: the header row and the data rows. *)
Definition csv := list (list str).

Module Pipeline.
Section WithWeb.

Variable check_bracketed_netloc : str -> bool.
Variable W : Type.
Variable session_get : W -> str -> W * result request_error Response.
Variable fromstring : str -> option Element.

(** The heuristic extractors of a property page, as functions of its HTML
    (they go through BeautifulSoup and [re]). *)
Variable extract_title : str -> option str.
Variable extract_address : str -> option str.
Variable extract_guide_price : str -> option str.
Variable extract_status : str -> option str.
Variable extract_auction_date : str -> option str.
Variable extract_lot_number : str -> option str.

Definition parse_property_page (html url : str) : PropertyRecord :=
  mkPropertyRecord url
    (extract_title html)
    (extract_address html)
    (extract_guide_price html)
    (extract_status html)
    (extract_auction_date html)
    (extract_lot_number html).

(** The command-line arguments [run] reads. *)
Record Args := mkArgs {
  sitemap : str;
  limit : option Z;
  include_sold : bool
}.

Definition fieldnames : list str :=
  [py "url"; py "title"; py "address"; py "guide_price"; py "status";
   py "auction_date"; py "lot_number"].

(** A row as [csv.DictWriter] writes [record.to_row()]: [None] is written
    as the empty string. *)
Definition to_row (r : PropertyRecord) : list str :=
  [r.(url); or_empty r.(title); or_empty r.(address);
   or_empty r.(guide_price); or_empty r.(status);
   or_empty r.(auction_date); or_empty r.(lot_number)].

Definition write_csv (records : list PropertyRecord) : csv :=
  fieldnames :: map to_row records.

(** The loop over the discovered URLs; [kept] is [records]. *)
Fixpoint scrape (include_sold : bool) (w : W) (urls : list str)
    (kept : list PropertyRecord) : W * list PropertyRecord :=
  match urls with
  | [] => (w, kept)
  | u :: rest =>
      let (w, r) := Fetch.fetch_text W session_get w u 3 in
      match r with
      | Raise _ => scrape include_sold w rest kept
      | Ok html =>
          let record := parse_property_page html u in
          if include_sold || is_for_sale record
          then scrape include_sold w rest (kept ++ [record])
          else scrape include_sold w rest kept
      end
  end.

(** What [run] leaves behind: its exit code and the file it wrote, if any. *)
Record RunEnd := mkRunEnd {
  exit_code : Z;
  written : option csv
}.

(** The URLs [run] goes through, after [--limit]. *)
Definition limited (limit : option Z) (property_urls : list str) : list str :=
  match limit with
  | Some k => if (k =? 0)%Z then property_urls else slice_to k property_urls
  | None => property_urls
  end.

(** [run(args)], as far as the records go: the exit code, and the file
    as [write_csv] is asked to write it; [None] when the traversal ran out
    of fuel.  The pause [time.sleep(args.delay)] after each page and the
    opening of [args.output] are left out: both can raise (a negative
    delay, a path that cannot be written), which ends the script where
    this gives a result. *)
Definition run (w : W) (args : Args) : option RunEnd :=
  let c := Sitemap.iter_sitemap_property_urls check_bracketed_netloc W
             session_get fromstring w args.(sitemap) 100 in
  match c.(Sitemap.result_of W) with
  | OutOfFuel => None
  | Raised _ => Some (mkRunEnd 1 None)
  | Returned property_urls =>
      let property_urls := limited args.(limit) property_urls in
      let (_, records) :=
        scrape args.(include_sold) c.(Sitemap.world W) property_urls [] in
      Some (mkRunEnd 0 (Some (write_csv records)))
  end.

End WithWeb.
End Pipeline.

(** ** The landing-page pipeline ([scrape_national_lots.py]) *)

(** A value of [json.loads].  A number is kept by whether it is zero and
    by its [str()]. *)
#[warnings="-register-all"]
Inductive json : Type :=
| JNull
| JBool (b : bool)
| JNumber (is_zero : bool) (shown : str)
| JStr (s : str)
| JList (items : list json)
| JDict (members : list (str * json)).

(** The seven columns; the keys of a row. *)
Inductive Field : Type :=
| Url | Title | Address | GuidePrice | Status | AuctionDate | LotNumber.

Definition field_eqb (a b : Field) : bool :=
  match a, b with
  | Url, Url | Title, Title | Address, Address | GuidePrice, GuidePrice
  | Status, Status | AuctionDate, AuctionDate | LotNumber, LotNumber => true
  | _, _ => false
  end.

Definition field_name (f : Field) : str :=
  match f with
  | Url => py "url"
  | Title => py "title"
  | Address => py "address"
  | GuidePrice => py "guide_price"
  | Status => py "status"
  | AuctionDate => py "auction_date"
  | LotNumber => py "lot_number"
  end.

(** A [Dict[str, str]] over the column names, in insertion order. *)
Definition details := list (Field * str).

(** [d.get(k)] *)
Fixpoint dict_get (d : details) (k : Field) : option str :=
  match d with
  | [] => None
  | (k', v) :: d' => if field_eqb k' k then Some v else dict_get d' k
  end.

(** [d[k] = v] *)
Fixpoint dict_set (d : details) (k : Field) (v : str) : details :=
  match d with
  | [] => [(k, v)]
  | (k', v') :: d' =>
      if field_eqb k' k then (k, v) :: d' else (k', v') :: dict_set d' k v
  end.

(** [k in d] *)
Definition dict_has (d : details) (k : Field) : bool :=
  match dict_get d k with Some _ => true | None => false end.

(** What the code reads from [BeautifulSoup(html, "html.parser")]. *)
Record Soup := mkSoup {
  (** [anchor.get("href", "")] for each anchor of [soup.select("a[href]")] *)
  anchor_hrefs : list str;
  (** [json.loads(script.string or "")] for each [application/ld+json]
      script; [None] stands for [json.JSONDecodeError] *)
  ld_json_scripts : list (option json);
  (** [soup.get_text(" ", strip=True)] *)
  full_text : str;
  (** the text of [soup.find(["h1", "h2"])], when there is one *)
  heading : option str;
  (** the text of [soup.find("address")] or of the first element with an
      address-like class, when there is one *)
  address_node : option str
}.

Definition NATIONAL_URL : str := py "https://www.auctionhouse.co.uk/national".
Definition LOT_PATH_MARKER : str := py "/lot/details/".
Definition LOT_HOST : str := py "online.auctionhouse.co.uk".

(** The pound sign, U+00A3. *)
Definition pound : ascii := ascii_of_N 163.

(** The patterns of [_extract_from_html], in the order they are tried. *)
Definition lot_number_patterns : list str :=
  [py "Lot\s*#?\s*(\d+)"; py "Lot Number[:\s]*([\w-]+)"].

Definition guide_price_patterns : list str :=
  [py "Guide Price[:\s" ++ pound :: py "]*([^|\n]+)";
   py "Price[:\s" ++ pound :: py "]*([^|\n]+)"].

Definition auction_date_patterns : list str :=
  [py "Auction Date[:\s]*([A-Za-z0-9 ,:-]+)";
   py "Closes[:\s]*([A-Za-z0-9 ,:-]+)"].

Definition status_patterns : list str :=
  [py "Status[:\s]*([A-Za-z ]+)"; py "Availability[:\s]*([A-Za-z ]+)"].

Module National.
Section WithWeb.

Variable check_bracketed_netloc : str -> bool.
Variable W : Type.
Variable session_get : W -> str -> W * result request_error Response.
Variable BeautifulSoup : str -> Soup.

(** [urljoin(base, url)]; [None] stands for [ValueError]. *)
Variable urljoin : str -> str -> option str.

(** [re.search(pattern, text, re.IGNORECASE)]: group 1 of the match. *)
Variable re_search : str -> str -> option str.

(** [str(v)] for a list or a dict. *)
Variable repr_container : json -> str.

(** The loop of [find_lot_links] over the anchors. *)
Fixpoint find_loop (hrefs : list str) (base_url : str)
    (links seen : list str) : result exn (list str) :=
  match hrefs with
  | [] => Ok links
  | h :: rest =>
      let href := strip h in
      if negb (contains LOT_PATH_MARKER href)
      then find_loop rest base_url links seen
      else
        match urljoin base_url href with
        | None => Raise ValueError
        | Some absolute =>
            match UrlParse.urlparse check_bracketed_netloc absolute with
            | None => Raise ValueError
            | Some parsed =>
                if negb (contains LOT_HOST parsed.(UrlParse.netloc))
                then find_loop rest base_url links seen
                else
                  let canonical := UrlParse.canonical_of parsed in
                  if negb (mem canonical seen)
                  then find_loop rest base_url (links ++ [canonical])
                         (canonical :: seen)
                  else find_loop rest base_url links seen
            end
        end
  end.

Definition find_lot_links (html base_url : str) : result exn (list str) :=
  find_loop (BeautifulSoup html).(anchor_hrefs) base_url [] [].

(** Truth value of a JSON value. *)
Definition json_truthy (v : json) : bool :=
  match v with
  | JNull => false
  | JBool b => b
  | JNumber is_zero _ => negb is_zero
  | JStr s => nonempty s
  | JList items => match items with [] => false | _ => true end
  | JDict members => match members with [] => false | _ => true end
  end.

(** [str(v)] *)
Definition py_str (v : json) : str :=
  match v with
  | JNull => py "None"
  | JBool true => py "True"
  | JBool false => py "False"
  | JNumber _ shown => shown
  | JStr s => s
  | JList _ | JDict _ => repr_container v
  end.

(** [p.get(key)] on a JSON object. *)
Fixpoint json_get (members : list (str * json)) (key : str) : option json :=
  match members with
  | [] => None
  | (k, v) :: rest => if str_eqb k key then Some v else json_get rest key
  end.

(** [p.get(key)] as a condition. *)
Definition get_truthy (members : list (str * json)) (key : str)
  : option json :=
  match json_get members key with
  | Some v => if json_truthy v then Some v else None
  | None => None
  end.

Definition _load_json_ld (soup : Soup) : list (list (str * json)) :=
  flat_map
    (fun script =>
       match script with
       | Some (JList items) =>
           flat_map (fun p => match p with JDict m => [m] | _ => [] end) items
       | Some (JDict m) => [m]
       | _ => []
       end)
    soup.(ld_json_scripts).

Definition address_keys : list str :=
  [py "name"; py "streetAddress"; py "addressLocality"; py "addressRegion";
   py "postalCode"; py "addressCountry"].

(** [sep.join(parts)] *)
Fixpoint join (sep : str) (parts : list str) : str :=
  match parts with
  | [] => []
  | [p] => p
  | p :: rest => p ++ sep ++ join sep rest
  end.

Definition _flatten_address (address : list (str * json)) : str :=
  join (py ", ")
    (flat_map
       (fun key =>
          match get_truthy address key with
          | Some value => [py_str value]
          | None => []
          end)
       address_keys).

Definition listing_types : list str :=
  [py "Product"; py "RealEstateListing"; py "Offer";
   py "SingleFamilyResidence"; py "House"].

Definition is_candidate (p : list (str * json)) : bool :=
  match json_get p (py "@type") with
  | Some (JStr t) => mem t listing_types
  | _ => false
  end.

(** [if p.get(key) and (not guarded or field not in details):
      details[field] = str(p[key])] *)
Definition set_from (p : list (str * json)) (key : str) (field : Field)
    (unless_set : bool) (d : details) : details :=
  match get_truthy p key with
  | Some v =>
      if unless_set && dict_has d field then d
      else dict_set d field (py_str v)
  | None => d
  end.

Definition _extract_from_json_ld (payloads : list (list (str * json)))
  : details :=
  match filter is_candidate payloads with
  | [] => []
  | primary :: _ =>
      match primary with
      | [] => []
      | _ :: _ =>
          let d := set_from primary (py "name") Title false [] in
          let d := set_from primary (py "sku") LotNumber false d in
          let d := set_from primary (py "productID") LotNumber true d in
          let d :=
            match json_get primary (py "offers") with
            | Some (JDict offers) =>
                let d := set_from offers (py "price") GuidePrice false d in
                let d := set_from offers (py "availability") Status false d in
                set_from offers (py "validFrom") AuctionDate false d
            | _ => d
            end in
          let d := set_from primary (py "availability") Status true d in
          let d := set_from primary (py "releaseDate") AuctionDate true d in
          match json_get primary (py "address") with
          | Some (JDict address) =>
              dict_set d Address (_flatten_address address)
          | _ => d
          end
      end
  end.

Fixpoint _regex_search (text : str) (patterns : list str) : option str :=
  match patterns with
  | [] => None
  | pattern :: rest =>
      match re_search pattern text with
      | Some group1 => Some (strip group1)
      | None => _regex_search text rest
      end
  end.

Definition _extract_from_html (soup : Soup) : details :=
  let full_text := soup.(full_text) in
  let d : details := [] in
  let d := dict_set d LotNumber
    (or_empty (_regex_search full_text lot_number_patterns)) in
  let d := dict_set d GuidePrice
    (or_empty (_regex_search full_text guide_price_patterns)) in
  let d := dict_set d AuctionDate
    (or_empty (_regex_search full_text auction_date_patterns)) in
  let d := dict_set d Status
    (or_empty (_regex_search full_text status_patterns)) in
  let d :=
    if negb (truthy (dict_get d Title)) then
      match soup.(heading) with
      | Some t => dict_set d Title t
      | None => d
      end
    else d in
  if negb (truthy (dict_get d Address)) then
    match soup.(address_node) with
    | Some t => dict_set d Address t
    | None => d
    end
  else d.

(** [details.update({k: v for k, v in structured.items() if v})] *)
Definition update_nonempty (d structured : details) : details :=
  fold_left
    (fun d kv => if nonempty (snd kv) then dict_set d (fst kv) (snd kv) else d)
    structured d.

(** The loop over [html_fallbacks.items()]. *)
Definition fill_gaps (d fallbacks : details) : details :=
  fold_left
    (fun d kv =>
       if nonempty (snd kv) && negb (truthy (dict_get d (fst kv)))
       then dict_set d (fst kv) (snd kv) else d)
    fallbacks d.

(** The merge of [parse_lot_page], on the two layers' maps. *)
Definition merge (url : str) (structured heuristic : details) : details :=
  fill_gaps (update_nonempty [(Url, url)] structured) heuristic.

Definition parse_lot_page (html url : str) : details :=
  let soup := BeautifulSoup html in
  merge url (_extract_from_json_ld (_load_json_ld soup))
    (_extract_from_html soup).

Definition fieldnames : list Field :=
  [LotNumber; Title; Address; GuidePrice; Status; AuctionDate; Url].

Definition write_csv (rows : list details) : csv :=
  map field_name fieldnames
  :: map (fun row => map (fun f => or_empty (dict_get row f)) fieldnames) rows.

(** The loop over the lot URLs. *)
Fixpoint collect (w : W) (lot_urls : list str) (rows : list details)
  : W * list details :=
  match lot_urls with
  | [] => (w, rows)
  | lot_url :: rest =>
      let (w, r) := Fetch.fetch_content W session_get w lot_url in
      match r with
      | Raise _ => collect w rest rows
      | Ok lot_html =>
          collect w rest (rows ++ [parse_lot_page lot_html lot_url])
      end
  end.

(** [scrape_national_lots(output, delay, max_lots)], as far as the rows
    go: the rows it returns and the file as [write_csv] is asked to write
    it, or the exception that fetching the landing page or finding its
    links ends it with.  The pause [time.sleep(delay)] after each lot and
    the opening of [output] are left out: both can raise (a negative
    delay, a path that cannot be written), which ends the script where
    this gives a result. *)
Definition scrape_national_lots (w : W) (max_lots : option Z)
  : result exn (list details * csv) :=
  let (w, r) := Fetch.fetch_content W session_get w NATIONAL_URL in
  match r with
  | Raise e => Raise e
  | Ok national_html =>
      match find_lot_links national_html NATIONAL_URL with
      | Raise e => Raise e
      | Ok lot_urls =>
          let lot_urls :=
            match max_lots with
            | Some k => slice_to k lot_urls
            | None => lot_urls
            end in
          let (_, rows) := collect w lot_urls [] in
          Ok (rows, write_csv rows)
      end
  end.

End WithWeb.
End National.

(** ** The heuristic extractors of [scrape_auctionhouse.py] *)

(** What the extractors read from [BeautifulSoup(html, "html.parser")]; the
    text of an element is its [get_text(" ", strip=True)]. *)
Record Page := mkPage {
  (** the text of [soup.find("h1")], when there is one *)
  h1 : option str;
  (** the text of [soup.title], when there is one *)
  title_tag : option str;
  (** the text of [soup.find(class_=re.compile(cls, re.IGNORECASE))] *)
  by_class : str -> option str;
  (** the texts of [soup.find_all(tag_name)] *)
  by_tag : str -> list str;
  (** [soup.stripped_strings] *)
  stripped_strings : list str
}.

(** [sep.join(parts)] *)
Fixpoint str_join (sep : str) (parts : list str) : str :=
  match parts with
  | [] => []
  | [p] => p
  | p :: rest => p ++ sep ++ str_join sep rest
  end.

(** The newline character. *)
Definition nl : ascii := ascii_of_N 10.

Definition address_classes : list str :=
  [py "address"; py "property-address"; py "lot-address"; py "address-block"].

Definition address_tags : list str := [py "p"; py "div"; py "span"; py "li"].

Definition status_classes : list str :=
  [py "status"; py "availability"; py "flag"; py "badge"].

Definition postcode_pattern : str :=
  py "\b[A-Z]{1,2}\d[\dA-Z]?\s*\d[A-Z]{2}\b".

Definition guide_price_pattern : str :=
  py "Guide\s*Price\s*[:\-]?\s*("
  ++ pound :: py "?[\d,]+(?:\.\d{2})?(?:\s*to\s*"
  ++ pound :: py "?[\d,]+(?:\.\d{2})?)?)".

Definition auction_date_pattern : str :=
  py "Auction\s*Date\s*[:\-]?\s*([^\n]+)".

Definition bidding_closes_pattern : str :=
  py "Bidding\s+closes\s*[:\-]?\s*([^\n]+)".

Definition lot_pattern : str := py "Lot\s*(\d+)".

Definition status_pattern : str :=
  py "(available|for\s+sale|bidding\s+open|unsold|sold\s+prior|sold"
  ++ py "|withdrawn|postponed)".

Module Heuristics.
Section WithRe.

(** [re.search(pattern, text, re.IGNORECASE)]: group 1 of the match. *)
Variable re_search : str -> str -> option str.

(** [re.search(pattern, text)] as a condition. *)
Variable re_found : str -> str -> bool.

(** [_first_text(elem)], with the default [None]; a tag is always true. *)
Definition _first_text (elem : option str) : option str :=
  match elem with
  | None => None
  | Some text => if nonempty text then Some text else None
  end.

(** [a or b] *)
Definition or_else (a b : option str) : option str :=
  if truthy a then a else b.

Definition extract_title (soup : Page) : option str :=
  or_else (_first_text soup.(h1)) (_first_text soup.(title_tag)).

(** The loop over the address classes, and the one over the status
    classes. *)
Fixpoint first_by_class (soup : Page) (classes : list str) : option str :=
  match classes with
  | [] => None
  | cls :: rest =>
      let text := _first_text (soup.(by_class) cls) in
      if truthy text then text else first_by_class soup rest
  end.

(** The loop over the nodes of one tag name. *)
Fixpoint first_postcode (texts : list str) : option str :=
  match texts with
  | [] => None
  | node :: rest =>
      let text := _first_text (Some node) in
      if negb (truthy text) then first_postcode rest
      else if re_found postcode_pattern (or_empty text) then text
      else first_postcode rest
  end.

(** The loop over the tag names. *)
Fixpoint first_postcode_by_tag (soup : Page) (tag_names : list str)
  : option str :=
  match tag_names with
  | [] => None
  | tag_name :: rest =>
      match first_postcode (soup.(by_tag) tag_name) with
      | Some text => Some text
      | None => first_postcode_by_tag soup rest
      end
  end.

Definition extract_address (soup : Page) : option str :=
  match first_by_class soup address_classes with
  | Some text => Some text
  | None => first_postcode_by_tag soup address_tags
  end.

Definition extract_guide_price (text_blob : str) : option str :=
  match re_search guide_price_pattern text_blob with
  | Some group1 => Some (strip group1)
  | None => None
  end.

Definition extract_auction_date (text_blob : str) : option str :=
  match re_search auction_date_pattern text_blob with
  | Some group1 => Some (strip group1)
  | None =>
      match re_search bidding_closes_pattern text_blob with
      | Some group1 => Some (strip group1)
      | None => None
      end
  end.

Definition extract_lot_number (text_blob : str) : option str :=
  re_search lot_pattern text_blob.

Definition extract_status (soup : Page) (text_blob : str) : option str :=
  match first_by_class soup status_classes with
  | Some text => Some text
  | None => re_search status_pattern text_blob
  end.

(** [parse_property_page], on the parsed page. *)
Definition parse_soup (soup : Page) (url : str) : PropertyRecord :=
  let text_blob := str_join [nl] soup.(stripped_strings) in
  mkPropertyRecord url
    (extract_title soup)
    (extract_address soup)
    (extract_guide_price text_blob)
    (extract_status soup text_blob)
    (extract_auction_date text_blob)
    (extract_lot_number text_blob).

End WithRe.
End Heuristics.

(** ** The address graph ([make_graph.py]) *)

(** [d.get(k)] and [d[k] = v] on a [dict] with string keys, kept in
    insertion order. *)
Fixpoint sdict_get {V : Type} (d : list (str * V)) (k : str) : option V :=
  match d with
  | [] => None
  | (k', v) :: d' => if str_eqb k' k then Some v else sdict_get d' k
  end.

Fixpoint sdict_set {V : Type} (d : list (str * V)) (k : str) (v : V)
  : list (str * V) :=
  match d with
  | [] => [(k, v)]
  | (k', v') :: d' =>
      if str_eqb k' k then (k, v) :: d' else (k', v') :: sdict_set d' k v
  end.

(** [itertools.combinations(l, 2)] *)
Fixpoint combinations2 {A : Type} (l : list A) : list (A * A) :=
  match l with
  | [] => []
  | x :: rest => map (pair x) rest ++ combinations2 rest
  end.

(** What [geocode_address] can raise. *)
Inductive geo_error : Type :=
| GeoHTTPError
    (** [requests.HTTPError], from [raise_for_status] *)
| GeoError
    (** any other exception: the connection, the JSON, the numbers *).

Module Graph.
Section WithGeocoder.

Variable W : Type.

(** Floating-point numbers. *)
Variable Float : Type.

(** [geocode_address(addr)]: a pair [(lat, lon)], or [None] when the
    service knows no match. *)
Variable geocode_address :
  W -> str -> W * result geo_error (option (Float * Float)).

Variable haversine_km : Float -> Float -> Float -> Float -> Float.

Definition Coord : Type := Float * Float.

(** The variables of the geocoding loop, and the addresses sent to the
    service so far (latest first), each with whether an answer came. *)
Record Geo := mkGeo {
  world : W;
  cache : list (str * option Coord);
  coords : list (str * option Coord);
  requests : list (str * bool)
}.

(** [for addr in addresses:] *)
Fixpoint geocode_all (addresses : list str) (st : Geo) : Geo :=
  match addresses with
  | [] => st
  | addr :: rest =>
      match sdict_get st.(cache) addr with
      | Some cached =>
          geocode_all rest
            (mkGeo st.(world) st.(cache) (sdict_set st.(coords) addr cached)
               st.(requests))
      | None =>
          let (w, r) := geocode_address st.(world) addr in
          match r with
          | Ok result =>
              geocode_all rest
                (mkGeo w (sdict_set st.(cache) addr result)
                   (sdict_set st.(coords) addr result)
                   ((addr, true) :: st.(requests)))
          | Raise _ =>
              geocode_all rest
                (mkGeo w st.(cache) (sdict_set st.(coords) addr None)
                   ((addr, false) :: st.(requests)))
          end
      end
  end.

(** [{a: c for a, c in coords.items() if c is not None}] *)
Definition resolved_of (coords : list (str * option Coord))
  : list (str * Coord) :=
  flat_map
    (fun ac => match snd ac with Some c => [(fst ac, c)] | None => [] end)
    coords.

(** [[a for a, c in coords.items() if c is None]] *)
Definition unresolved_of (coords : list (str * option Coord)) : list str :=
  flat_map
    (fun ac => match snd ac with Some _ => [] | None => [fst ac] end)
    coords.

(** An undirected graph of [networkx]: its nodes with their position, and
    its edges with their weight. *)
Record nx_graph := mk_nx_graph {
  nodes : list (str * Coord);
  edges : list (str * str * Float)
}.

(** The edge joins [a] and [b], in either direction. *)
Definition joins (a b : str) (e : str * str * Float) : bool :=
  (str_eqb (fst (fst e)) a && str_eqb (snd (fst e)) b)
  || (str_eqb (fst (fst e)) b && str_eqb (snd (fst e)) a).

(** [G.add_edge(a, b, weight=w)]: a new edge, or a new weight for the edge
    there is. *)
Fixpoint add_edge (es : list (str * str * Float)) (a b : str) (w : Float)
  : list (str * str * Float) :=
  match es with
  | [] => [(a, b, w)]
  | e :: rest =>
      if joins a b e then (fst e, w) :: rest else e :: add_edge rest a b w
  end.

(** The two loops that build the graph; [resolved[a]] cannot fail for a
    key of [resolved]. *)
Definition build_graph (resolved : list (str * Coord)) : nx_graph :=
  mk_nx_graph
    (fold_left (fun g ac => sdict_set g (fst ac) (snd ac)) resolved [])
    (fold_left
       (fun es ab =>
          match sdict_get resolved (fst ab), sdict_get resolved (snd ab) with
          | Some (lat1, lon1), Some (lat2, lon2) =>
              add_edge es (fst ab) (snd ab)
                (haversine_km lat1 lon1 lat2 lon2)
          | _, _ => es
          end)
       (combinations2 (map fst resolved)) []).

(** The script up to the graph: geocode, drop the failures, connect. *)
Definition geocoded (w : W) (addresses : list str) : Geo :=
  geocode_all addresses (mkGeo w [] [] []).

Definition make_graph (w : W) (addresses : list str) : nx_graph :=
  build_graph (resolved_of (geocoded w addresses).(coords)).

End WithGeocoder.
End Graph.

(** * Scenarios

    Concrete records, sites and pages on which the properties below are
    exercised. *)

Module Scenario.

(** A listing that is open for bids and shows no guide price. *)
Definition bidding_open : PropertyRecord :=
  mkPropertyRecord (py "https://www.auctionhouse.co.uk/property/1")
    (Some (py "1 High Street")) None None (Some (py "Bidding Open")) None None.

(** The same listing with a guide price. *)
Definition bidding_open_priced : PropertyRecord :=
  mkPropertyRecord (py "https://www.auctionhouse.co.uk/property/1")
    (Some (py "1 High Street")) None (Some (py "150,000"))
    (Some (py "Bidding Open")) None None.

(** A scripted web: the session remembers the requests made (latest first)
    and a site answers a request for [u] from the number of earlier
    requests for [u]. *)
Definition Web := list str.

Definition times_requested (u : str) (w : Web) : nat :=
  length (filter (str_eqb u) w).

Definition scripted (site : str -> nat -> result request_error Response)
  : Web -> str -> Web * result request_error Response :=
  fun w u => (u :: w, site u (times_requested u w)).

(** A host that times out twice and then answers. *)
Definition flaky_site (u : str) (earlier : nat)
  : result request_error Response :=
  if Nat.ltb earlier 2 then Raise (RequestException (py "timed out"))
  else Ok (mkResponse 200 (py "<html></html>")).

(** *** Sitemaps *)

(** The text of a sitemap document with the given root tag and [loc]
    elements. *)
Definition render (e : Element) : str :=
  py "<" ++ e.(tag) ++ py ">"
  ++ concat (map (fun l => py "<loc>" ++ or_empty l ++ py "</loc>") e.(locs))
  ++ py "</" ++ e.(tag) ++ py ">".

Definition root_url : str := py "https://www.auctionhouse.co.uk/sitemap.xml".
Definition leaf_a_url : str :=
  py "https://www.auctionhouse.co.uk/sitemap-a.xml".
Definition leaf_b_url : str :=
  py "https://www.auctionhouse.co.uk/sitemap-b.xml".

Definition index_doc : Element :=
  mkElement (py "sitemapindex") [Some leaf_a_url; Some leaf_b_url].

Definition leaf_a : Element :=
  mkElement (py "urlset")
    [Some (py "https://www.auctionhouse.co.uk/property/2");
     Some (py "https://www.auctionhouse.co.uk/property/1")].

Definition leaf_b : Element :=
  mkElement (py "urlset")
    [Some (py "https://www.auctionhouse.co.uk/property/3")].

(** A leaf that lists one page twice, under two query strings. *)
Definition leaf_queries : Element :=
  mkElement (py "urlset")
    [Some (py "https://www.auctionhouse.co.uk/property/1?ref=a");
     Some (py "https://www.auctionhouse.co.uk/property/1?ref=b")].

(** ElementTree on the documents above; anything else is not XML. *)
Definition fromstring (body : str) : option Element :=
  find (fun e => str_eqb (render e) body)
    [index_doc; leaf_a; leaf_b; leaf_queries].

Definition serve (pages : list (str * Element)) (u : str)
  : result request_error Response :=
  match find (fun p => str_eqb (fst p) u) pages with
  | Some (_, e) => Ok (mkResponse 200 (render e))
  | None => Ok (mkResponse 503 (py "Service Unavailable"))
  end.

(** An index over two leaves, with two listings and one. *)
Definition two_leaves (u : str) (earlier : nat)
  : result request_error Response :=
  serve [(root_url, index_doc); (leaf_a_url, leaf_a); (leaf_b_url, leaf_b)] u.

(** The same index when the second leaf cannot be served. *)
Definition dead_leaf (u : str) (earlier : nat)
  : result request_error Response :=
  serve [(root_url, index_doc); (leaf_a_url, leaf_a)] u.

(** A root sitemap that is the leaf with the query strings. *)
Definition query_leaf (u : str) (earlier : nat)
  : result request_error Response :=
  serve [(root_url, leaf_queries)] u.

Definition discover (site : str -> nat -> result request_error Response)
  : Sitemap.Crawl Web :=
  Sitemap.iter_sitemap_property_urls UrlParse.no_bracket_check Web
    (scripted site) fromstring [] root_url 100.

(** *** Lot pages *)

Definition dq : ascii := ascii_of_N 34.

(** A string between double quotes. *)
Definition q (s : string) : str := dq :: py s ++ [dq].

Definition lot_101_url : str :=
  py "https://online.auctionhouse.co.uk/lot/details/101".
Definition lot_102_url : str :=
  py "https://online.auctionhouse.co.uk/lot/details/102".

(** The landing page: two lots, the first linked twice. *)
Definition landing_html : str :=
  py "<html><body>"
  ++ py "<a href='https://online.auctionhouse.co.uk/lot/details/101?ref=nat'>"
  ++ py "Lot 101</a> <a href='/about'>About</a> "
  ++ py "<a href='https://online.auctionhouse.co.uk/lot/details/102'>"
  ++ py "Lot 102</a> "
  ++ py "<a href='https://online.auctionhouse.co.uk/lot/details/101#photos'>"
  ++ py "Photos</a></body></html>".

Definition landing_soup : Soup :=
  mkSoup
    [py "https://online.auctionhouse.co.uk/lot/details/101?ref=nat";
     py "/about";
     py "https://online.auctionhouse.co.uk/lot/details/102";
     py "https://online.auctionhouse.co.uk/lot/details/101#photos"]
    [] (py "Lot 101 About Lot 102 Photos") None None.

(** A page that links to a lot on the lot host and to two look-alikes on
    another host: one whose name starts with the lot host, one that carries
    the lot host as user information. *)
Definition foreign_html : str :=
  py "<html><body>"
  ++ py "<a href='https://online.auctionhouse.co.uk/lot/details/101'>"
  ++ py "Lot 101</a> "
  ++ py "<a href='https://online.auctionhouse.co.uk.evil.example"
  ++ py "/lot/details/7'>Lot 7</a> "
  ++ py "<a href='https://online.auctionhouse.co.uk@evil.example"
  ++ py "/lot/details/8'>Lot 8</a></body></html>".

Definition foreign_soup : Soup :=
  mkSoup
    [py "https://online.auctionhouse.co.uk/lot/details/101";
     py "https://online.auctionhouse.co.uk.evil.example/lot/details/7";
     py "https://online.auctionhouse.co.uk@evil.example/lot/details/8"]
    [] (py "Lot 101 Lot 7 Lot 8") None None.

(** A page with a link whose host opens a bracket and never closes it. *)
Definition bracket_html : str :=
  py "<html><body>"
  ++ py "<a href='https://[online.auctionhouse.co.uk/lot/details/9'>"
  ++ py "Lot 9</a></body></html>".

Definition bracket_soup : Soup :=
  mkSoup [py "https://[online.auctionhouse.co.uk/lot/details/9"]
    [] (py "Lot 9") None None.

(** A lot on offer. *)
Definition lot_101_html : str :=
  py "<html><body><h1>1 High Street</h1>"
  ++ py "<p>Lot 101 | Guide Price: 150,000 | Status: Available</p>"
  ++ py "</body></html>".

Definition lot_101_text : str :=
  py "1 High Street Lot 101 | Guide Price: 150,000 | Status: Available".

Definition lot_101_soup : Soup :=
  mkSoup [] [] lot_101_text (Some (py "1 High Street")) None.

(** A lot that has been sold. *)
Definition lot_102_html : str :=
  py "<html><body><h1>2 Mill Lane</h1>"
  ++ py "<p>Lot 102 | Status: Sold</p></body></html>".

Definition lot_102_text : str := py "2 Mill Lane Lot 102 | Status: Sold".

Definition lot_102_soup : Soup :=
  mkSoup [] [] lot_102_text (Some (py "2 Mill Lane")) None.

(** A page with a structured payload and the text "Lot 42". *)
Definition offer_html : str :=
  py "<html><head><script type='application/ld+json'>{"
  ++ q "@type" ++ py ":" ++ q "Offer" ++ py "," ++ q "offers" ++ py ":{"
  ++ q "price" ++ py ":" ++ q "120000" ++ py ","
  ++ q "availability" ++ py ":" ++ q "InStock"
  ++ py "}}</script></head><body><p>Lot 42</p></body></html>".

Definition offer_payload : json :=
  JDict [(py "@type", JStr (py "Offer"));
         (py "offers",
          JDict [(py "price", JStr (py "120000"));
                 (py "availability", JStr (py "InStock"))])].

Definition offer_soup : Soup :=
  mkSoup [] [Some offer_payload] (py "Lot 42") None None.

(** BeautifulSoup on the pages above; any other text is read as an empty
    document. *)
Definition BeautifulSoup (html : str) : Soup :=
  match find (fun p => str_eqb (fst p) html)
          [(landing_html, landing_soup); (lot_101_html, lot_101_soup);
           (lot_102_html, lot_102_soup); (offer_html, offer_soup);
           (foreign_html, foreign_soup); (bracket_html, bracket_soup)] with
  | Some (_, soup) => soup
  | None => mkSoup [] [] [] None None
  end.

(** [re.search] with the patterns of [_extract_from_html] on the texts
    above: the matches there are, with their first group. *)
Definition re_search (pattern text : str) : option str :=
  match find (fun m => str_eqb (fst (fst m)) pattern
                       && str_eqb (snd (fst m)) text)
          [(nth 0 lot_number_patterns [], lot_101_text, py "101");
           (nth 0 guide_price_patterns [], lot_101_text, py "150,000 ");
           (nth 1 guide_price_patterns [], lot_101_text, py "150,000 ");
           (nth 0 status_patterns [], lot_101_text, py "Available");
           (nth 0 lot_number_patterns [], lot_102_text, py "102");
           (nth 0 status_patterns [], lot_102_text, py "Sold");
           (nth 0 lot_number_patterns [], py "Lot 42", py "42")] with
  | Some (_, group1) => Some group1
  | None => None
  end.

(** [urljoin] on the links above that hold the lot path marker, all of
    them absolute: the URL is parsed, which raises [ValueError] where
    [urlparse] does, and an absolute [https] URL with a host is returned as
    it is. *)
Definition urljoin (base url : str) : option str :=
  match UrlParse.urlparse UrlParse.no_bracket_check url with
  | Some _ => Some url
  | None => None
  end.

(** No list or dict is turned into a string on these pages. *)
Definition repr_container (v : json) : str := py "{...}".

(** The landing page and its two lot pages. *)
Definition national_site (u : str) (earlier : nat)
  : result request_error Response :=
  match find (fun p => str_eqb (fst p) u)
          [(NATIONAL_URL, landing_html); (lot_101_url, lot_101_html);
           (lot_102_url, lot_102_html)] with
  | Some (_, html) => Ok (mkResponse 200 html)
  | None => Ok (mkResponse 404 (py "Not Found"))
  end.

Definition parse_lot_page : str -> str -> details :=
  National.parse_lot_page BeautifulSoup re_search repr_container.

Definition scrape_national_lots (max_lots : option Z)
  : result exn (list details * csv) :=
  National.scrape_national_lots UrlParse.no_bracket_check Web
    (scripted national_site) BeautifulSoup urljoin re_search repr_container
    [] max_lots.

End Scenario.

(** More records and hosts for the properties below. *)

Module ScenarioX.

(** A sold listing that still shows its guide price. *)
Definition sold_stc : PropertyRecord :=
  mkPropertyRecord (py "https://www.auctionhouse.co.uk/property/7")
    (Some (py "7 Mill Lane")) None (Some (py "95,000"))
    (Some (py "SOLD STC")) None None.

(** A listing with no status and no guide price. *)
Definition bare_listing : PropertyRecord :=
  mkPropertyRecord (py "https://www.auctionhouse.co.uk/property/8")
    (Some (py "8 Mill Lane")) None None None None None.

(** *** Property pages *)

Definition property_1_url : str :=
  py "https://www.auctionhouse.co.uk/property/1".
Definition property_2_url : str :=
  py "https://www.auctionhouse.co.uk/property/2".

(** A property on offer, with an address block and a status badge. *)
Definition property_1_html : str :=
  py "<html><head><title>1 High Street | Auction House</title></head>"
  ++ py "<body><h1>1 High Street</h1>"
  ++ py "<p class='address'>1 High Street, Leeds LS1 1AA</p>"
  ++ py "<span class='status'>Available</span>"
  ++ py "<p>Guide Price: 150,000</p><p>Lot 12</p></body></html>".

Definition property_1_page : Page :=
  mkPage (Some (py "1 High Street"))
    (Some (py "1 High Street | Auction House"))
    (fun cls =>
       if str_eqb cls (py "address")
       then Some (py "1 High Street, Leeds LS1 1AA")
       else if str_eqb cls (py "status") then Some (py "Available")
       else None)
    (fun tag_name =>
       if str_eqb tag_name (py "p")
       then [py "1 High Street, Leeds LS1 1AA"; py "Guide Price: 150,000";
             py "Lot 12"]
       else if str_eqb tag_name (py "span") then [py "Available"]
       else [])
    [py "1 High Street | Auction House"; py "1 High Street";
     py "1 High Street, Leeds LS1 1AA"; py "Available";
     py "Guide Price: 150,000"; py "Lot 12"].

(** A property that is sold, with a badge and its postcode in a
    paragraph. *)
Definition property_2_html : str :=
  py "<html><body><h1>2 Mill Lane</h1><span class='badge'>Sold STC</span>"
  ++ py "<p>2 Mill Lane, York YO1 7HH</p></body></html>".

Definition property_2_page : Page :=
  mkPage (Some (py "2 Mill Lane")) None
    (fun cls => if str_eqb cls (py "badge") then Some (py "Sold STC")
                else None)
    (fun tag_name =>
       if str_eqb tag_name (py "p") then [py "2 Mill Lane, York YO1 7HH"]
       else if str_eqb tag_name (py "span") then [py "Sold STC"]
       else [])
    [py "2 Mill Lane"; py "Sold STC"; py "2 Mill Lane, York YO1 7HH"].

(** BeautifulSoup on the two pages; any other text is read as an empty
    document. *)
Definition soup_of (html : str) : Page :=
  if str_eqb html property_1_html then property_1_page
  else if str_eqb html property_2_html then property_2_page
  else mkPage None None (fun _ => None) (fun _ => []) [].

Definition text_of (soup : Page) : str :=
  str_join [nl] soup.(stripped_strings).

(** [re.search] with the patterns of the extractors on the two pages: the
    matches there are, with their first group. *)
Definition re_search (pattern text : str) : option str :=
  match find (fun m => str_eqb (fst (fst m)) pattern
                       && str_eqb (snd (fst m)) text)
          [(guide_price_pattern, text_of property_1_page, py "150,000");
           (lot_pattern, text_of property_1_page, py "12");
           (status_pattern, text_of property_1_page, py "Available");
           (status_pattern, text_of property_2_page, py "Sold")] with
  | Some (_, group1) => Some group1
  | None => None
  end.

(** The postcode pattern on the texts of the two pages. *)
Definition re_found (pattern text : str) : bool :=
  str_eqb pattern postcode_pattern
  && (str_eqb text (py "1 High Street, Leeds LS1 1AA")
      || str_eqb text (py "2 Mill Lane, York YO1 7HH")).

(** The sitemap of the scenario with its first two property pages; the
    third cannot be served. *)
Definition property_site (u : str) (earlier : nat)
  : result request_error Response :=
  if str_eqb u property_1_url then Ok (mkResponse 200 property_1_html)
  else if str_eqb u property_2_url then Ok (mkResponse 200 property_2_html)
  else Scenario.two_leaves u earlier.

(** The extractors, from the HTML of a page. *)
Definition title_of (html : str) : option str :=
  Heuristics.extract_title (soup_of html).
Definition address_of (html : str) : option str :=
  Heuristics.extract_address re_found (soup_of html).
Definition guide_price_of (html : str) : option str :=
  Heuristics.extract_guide_price re_search (text_of (soup_of html)).
Definition status_of (html : str) : option str :=
  Heuristics.extract_status re_search (soup_of html) (text_of (soup_of html)).
Definition auction_date_of (html : str) : option str :=
  Heuristics.extract_auction_date re_search (text_of (soup_of html)).
Definition lot_number_of (html : str) : option str :=
  Heuristics.extract_lot_number re_search (text_of (soup_of html)).

Definition run (args : Pipeline.Args) : option Pipeline.RunEnd :=
  Pipeline.run UrlParse.no_bracket_check Scenario.Web
    (Scenario.scripted property_site) Scenario.fromstring
    title_of address_of guide_price_of status_of auction_date_of
    lot_number_of [] args.

Definition all_properties : Pipeline.Args :=
  Pipeline.mkArgs Scenario.root_url None false.

Definition one_property : Pipeline.Args :=
  Pipeline.mkArgs Scenario.root_url (Some 1%Z) true.

(** The same sitemap, sold properties included. *)
Definition with_sold : Pipeline.Args :=
  Pipeline.mkArgs Scenario.root_url None true.

(** The index of the scenario when its first leaf is answered with a page
    that is not XML. *)
Definition garbled_leaf (u : str) (earlier : nat)
  : result request_error Response :=
  if str_eqb u Scenario.leaf_a_url
  then Ok (mkResponse 200 (py "<html><body>Moved</body></html>"))
  else Scenario.two_leaves u earlier.

End ScenarioX.

(** A geocoder for the properties below. *)

Module ScenarioG.

(** Positions as whole numbers, and the squared distance for
    [haversine_km]: the properties do not look into them. *)
Definition lookup (addr : str) : option (Z * Z) :=
  if str_eqb addr (py "10 Downing Street, London, SW1A 2AA, UK")
  then Some (515034, -1276)%Z
  else if str_eqb addr (py "Buckingham Palace, London, SW1A 1AA, UK")
  then Some (515014, -1419)%Z
  else if str_eqb addr (py "Manchester Piccadilly Station, UK")
  then Some (534774, -22309)%Z
  else None.

(** The service fails on its first request and answers afterwards. *)
Definition geocode_address (w : nat) (addr : str)
  : nat * result geo_error (option (Z * Z)) :=
  (S w, match w with O => Raise GeoHTTPError | S _ => Ok (lookup addr) end).

Definition distance (lat1 lon1 lat2 lon2 : Z) : Z :=
  ((lat2 - lat1) * (lat2 - lat1) + (lon2 - lon1) * (lon2 - lon1))%Z.

Definition addresses : list str :=
  [py "10 Downing Street, London, SW1A 2AA, UK";
   py "10 Downing Street, London, SW1A 2AA, UK";
   py "Buckingham Palace, London, SW1A 1AA, UK";
   py "Nowhere at all";
   py "Manchester Piccadilly Station, UK";
   py "Buckingham Palace, London, SW1A 1AA, UK"].

End ScenarioG.

(** * Vocabulary of the properties *)

Module Spec.

(** No disqualifying keyword occurs in the lower-cased status. *)
Definition no_sold_flag (r : PropertyRecord) : Prop :=
  existsb (fun flag => contains flag (lower (or_empty r.(status))))
    sold_flags = false.

Section WithSession.

Variable W : Type.
Variable session_get : W -> str -> W * result request_error Response.

(** The session after [k] consecutive requests for [url]. *)
Fixpoint after_requests (w : W) (url : str) (k : nat) : W :=
  match k with
  | O => w
  | S k' =>
      fst (Fetch.attempt_once W session_get (after_requests w url k') url)
  end.

(** What the [k]-th consecutive request for [url] yields, [k] from 1. *)
Definition nth_attempt (w : W) (url : str) (k : nat)
  : result request_error str :=
  snd (Fetch.attempt_once W session_get (after_requests w url (k - 1)) url).

(** What a run of the retry loop amounts to: [k] requests were made, the
    first [k - 1] of them failed, and either the [k]-th gave the body that
    is returned, or every allowed attempt failed and the failure raised
    carries the error of the last one. *)
Definition fetched_in (w : W) (url : str) (allowed : nat)
    (end_ : W * result exn str) : Prop :=
  exists k : nat,
    1 <= k <= allowed
    /\ fst end_ = after_requests w url k
    /\ (forall j, 1 <= j < k -> exists e, nth_attempt w url j = Raise e)
    /\ match snd end_ with
       | Ok body => nth_attempt w url k = Ok body
       | Raise e =>
           k = allowed
           /\ exists last,
                nth_attempt w url k = Raise last
                /\ e = RuntimeError url (Some last)
       end.

End WithSession.

(** The pages that [fetch] obtains from the URLs, in order; a URL whose
    fetch fails is left out. *)
Fixpoint pages_fetched {W : Type} (fetch : W -> str -> W * result exn str)
    (w : W) (urls : list str) : list (str * str) :=
  match urls with
  | [] => []
  | u :: rest =>
      let (w, r) := fetch w u in
      match r with
      | Raise _ => pages_fetched fetch w rest
      | Ok html => (u, html) :: pages_fetched fetch w rest
      end
  end.

(** The merge rule in the words of its contract: the structured value if
    present and non-empty, else the heuristic value if present and
    non-empty, else absent. *)
Definition merged_value (structured heuristic : details) (f : Field)
  : option str :=
  if truthy (dict_get structured f) then dict_get structured f
  else if truthy (dict_get heuristic f) then dict_get heuristic f
  else None.

(** A dict as the extractors build them: no key twice, and no [url]. *)
Definition extracted (d : details) : Prop :=
  NoDup (map fst d) /\ ~ In Url (map fst d).

(** A row of the landing-page pipeline, read as a record. *)
Definition record_of_row (row : details) : PropertyRecord :=
  mkPropertyRecord (or_empty (dict_get row Url))
    (dict_get row Title) (dict_get row Address) (dict_get row GuidePrice)
    (dict_get row Status) (dict_get row AuctionDate) (dict_get row LotNumber).

Definition str_lt (a b : str) : Prop := str_ltb a b = true.

Section WithSitemaps.

Variable check_bracketed_netloc : str -> bool.
Variable fromstring : str -> option Element.

(** [u] is a [loc] text that the loop over a leaf keeps: stripped,
    non-empty and with a property path. *)
Definition kept (locs : list (option str)) (u : str) : Prop :=
  exists loc,
    In loc locs
    /\ strip (or_empty loc) = u
    /\ nonempty u = true
    /\ Sitemap.looks_like_property_url check_bracketed_netloc u = Ok true.

(** [u] is kept from the document [e], which is not an index. *)
Definition listed_by (e : Element) (u : str) : Prop :=
  endswith (py "sitemapindex") (lower e.(tag)) = false /\ kept e.(locs) u.

(** [u] is listed by a leaf document that was fetched and parsed. *)
Definition found_in_leaves (trace : trace) (u : str) : Prop :=
  exists doc body e,
    In (doc, Ok body) trace /\ fromstring body = Some e /\ listed_by e u.

End WithSitemaps.

(** The first occurrence of every element, in order. *)
Fixpoint first_occurrences (l : list str) : list str :=
  match l with
  | [] => []
  | x :: rest =>
      x :: filter (fun y => negb (str_eqb y x)) (first_occurrences rest)
  end.

Section WithLinks.

Variable check_bracketed_netloc : str -> bool.
Variable urljoin : str -> str -> option str.

(** The canonical form of an anchor that link discovery keeps: its href
    holds the lot path marker, is resolved against the base URL, has a
    network location (user information, host and port together) with the
    text of the lot host somewhere in it, and is cut down to scheme,
    network location and path. *)
Definition canonical_link (base_url h : str) : option str :=
  let href := strip h in
  if contains LOT_PATH_MARKER href then
    match urljoin base_url href with
    | Some absolute =>
        match UrlParse.urlparse check_bracketed_netloc absolute with
        | Some parsed =>
            if contains LOT_HOST parsed.(UrlParse.netloc)
            then Some (UrlParse.canonical_of parsed)
            else None
        | None => None
        end
    | None => None
    end
  else None.

(** Resolving and parsing the anchor does not raise [ValueError]. *)
Definition resolves (base_url h : str) : Prop :=
  contains LOT_PATH_MARKER (strip h) = true ->
  exists absolute parsed,
    urljoin base_url (strip h) = Some absolute
    /\ UrlParse.urlparse check_bracketed_netloc absolute = Some parsed.

(** The anchor holds the lot path marker and [urljoin] or [urlparse]
    answers it with [ValueError]. *)
Definition refused (base_url h : str) : bool :=
  contains LOT_PATH_MARKER (strip h)
  && match urljoin base_url (strip h) with
     | Some absolute =>
         match UrlParse.urlparse check_bracketed_netloc absolute with
         | Some _ => false
         | None => true
         end
     | None => true
     end.

(** What link discovery returns when no anchor is refused: the canonical
    forms of the anchors kept, in order of first appearance, without
    duplicates. *)
Definition discover_from_page (hrefs : list str) (base_url : str)
  : list str :=
  first_occurrences
    (flat_map
       (fun h =>
          match canonical_link base_url h with
          | Some c => [c]
          | None => []
          end)
       hrefs).

(** The host of a network location: what stands between the user
    information, if any, and the port, if any, in lower case; a bracketed
    literal goes without its brackets. *)
Definition host_of (netloc : str) : str :=
  let hostinfo :=
    match UrlParse.rpartition "@" netloc with
    | Some (_, after) => after
    | None => netloc
    end in
  lower
    match UrlParse.partition "[" hostinfo with
    | Some (_, bracketed) => fst (UrlParse.cut "]" bracketed)
    | None => fst (UrlParse.cut ":" hostinfo)
    end.

(** The host test in the words of the contract, read generously: the host
    is the lot host or a name under it. *)
Definition host_matches (netloc : str) : bool :=
  str_eqb (host_of netloc) LOT_HOST
  || endswith ("."%char :: LOT_HOST) (host_of netloc).

(** The canonical form of an anchor whose host is the lot host: as
    [canonical_link], with the host test of the contract. *)
Definition listing_link (base_url h : str) : option str :=
  let href := strip h in
  if contains LOT_PATH_MARKER href then
    match urljoin base_url href with
    | Some absolute =>
        match UrlParse.urlparse check_bracketed_netloc absolute with
        | Some parsed =>
            if host_matches parsed.(UrlParse.netloc)
            then Some (UrlParse.canonical_of parsed)
            else None
        | None => None
        end
    | None => None
    end
  else None.

(** Link discovery as the contract words it: only anchors whose host is
    the lot host are kept. *)
Definition discover_by_host (hrefs : list str) (base_url : str)
  : list str :=
  first_occurrences
    (flat_map
       (fun h =>
          match listing_link base_url h with
          | Some c => [c]
          | None => []
          end)
       hrefs).

End WithLinks.

End Spec.

(** Vocabulary of the further properties. *)

Module SpecX.

(** A link as landing-page discovery gives them: it holds the lot host and
    neither a query nor a fragment mark. *)
Definition well_formed_link (l : str) : Prop :=
  contains LOT_HOST l = true /\ ~ In "?"%char l /\ ~ In "#"%char l.

Section WithSitemaps.

Variable fromstring : str -> option Element.

(** [u] is a child that a fetched index document names: the stripped text
    of one of its [loc] elements, ending in [.xml]. *)
Definition named_by_index (trace : trace) (u : str) : Prop :=
  endswith (py ".xml") u = true
  /\ exists doc body e loc,
       In (doc, Ok body) trace
       /\ fromstring body = Some e
       /\ endswith (py "sitemapindex") (lower e.(tag)) = true
       /\ In loc e.(locs)
       /\ strip (or_empty loc) = u.

End WithSitemaps.

Section WithLeaves.

Variable check_bracketed_netloc : str -> bool.
Variable fromstring : str -> option Element.

(** The document has a [loc] that the loop over a leaf hands to
    [urlparse], its stripped text not being empty, and that [urlparse]
    refuses with [ValueError]. *)
Definition refused_loc (root : Element) : Prop :=
  exists loc,
    In loc root.(locs)
    /\ nonempty (strip (or_empty loc)) = true
    /\ UrlParse.urlparse check_bracketed_netloc (strip (or_empty loc))
       = None.

(** The call of [fetch_text] ends discovery with [e]: either it failed,
    and [e] is its [RuntimeError] for that document, or it gave a document
    that parsed, is not an index, and has a [loc] that [urlparse] refuses,
    and [e] is [ValueError]. *)
Definition ends_discovery (call : str * result exn str) (e : exn) : Prop :=
  match snd call with
  | Raise e' =>
      e' = e /\ exists cause, e = RuntimeError (fst call) (Some cause)
  | Ok body =>
      e = ValueError
      /\ exists root,
           fromstring body = Some root
           /\ endswith (py "sitemapindex") (lower root.(tag)) = false
           /\ refused_loc root
  end.

(** The call of [fetch_text] lets discovery go on: it gave a body, and the
    body is not well-formed XML, or is an index, or is a leaf none of whose
    [loc]s [urlparse] refuses. *)
Definition passes (call : str * result exn str) : Prop :=
  match snd call with
  | Raise _ => False
  | Ok body =>
      match fromstring body with
      | None => True
      | Some root =>
          endswith (py "sitemapindex") (lower root.(tag)) = true
          \/ ~ refused_loc root
      end
  end.

End WithLeaves.

Section WithStructured.

Variable repr_container : json -> str.

(** [a] if it is there, else [b]. *)
Definition first_of (a b : option json) : option json :=
  match a with Some _ => a | None => b end.

(** The field mapping of the structured extractor in the words of its
    contract, on the primary payload. *)
Definition structured_value (primary : list (str * json)) (f : Field)
  : option str :=
  let offers :=
    match National.json_get primary (py "offers") with
    | Some (JDict o) => o
    | _ => []
    end in
  let shown := option_map (National.py_str repr_container) in
  match f with
  | Url => None
  | Title => shown (National.get_truthy primary (py "name"))
  | LotNumber =>
      shown (first_of (National.get_truthy primary (py "sku"))
               (National.get_truthy primary (py "productID")))
  | GuidePrice => shown (National.get_truthy offers (py "price"))
  | Status =>
      shown (first_of (National.get_truthy offers (py "availability"))
               (National.get_truthy primary (py "availability")))
  | AuctionDate =>
      shown (first_of (National.get_truthy offers (py "validFrom"))
               (National.get_truthy primary (py "releaseDate")))
  | Address =>
      match National.json_get primary (py "address") with
      | Some (JDict address) =>
          Some (National._flatten_address repr_container address)
      | _ => None
      end
  end.

End WithStructured.

(** The column of a field in a row of the landing-page file. *)
Definition column (f : Field) (cols : list str) : str :=
  nth (match f with
       | LotNumber => 0 | Title => 1 | Address => 2 | GuidePrice => 3
       | Status => 4 | AuctionDate => 5 | Url => 6
       end) cols [].

(** A field read back from a row of the file: an empty column is an absent
    field. *)
Definition read_back (cols : list str) (f : Field) : option str :=
  if nonempty (column f cols) then Some (column f cols) else None.

(** A key added at the end unless it is there. *)
Definition add_key (ks : list str) (a : str) : list str :=
  if mem a ks then ks else ks ++ [a].

(** The two pairs name the same two addresses, in either order. *)
Definition same_pair (p q : str * str) : Prop :=
  (fst p = fst q /\ snd p = snd q) \/ (fst p = snd q /\ snd p = fst q).

(** No two pairs of the list name the same two addresses. *)
Fixpoint distinct_pairs (ps : list (str * str)) : Prop :=
  match ps with
  | [] => True
  | p :: rest => (forall q, In q rest -> ~ same_pair p q)
                 /\ distinct_pairs rest
  end.

Section WithGeo.

Variable W : Type.
Variable Float : Type.

(** Once an address was answered, it is in the cache, and nothing sent
    later names it. *)
Definition answered_once (st : Graph.Geo W Float) : Prop :=
  (forall a,
      In (a, true) (Graph.requests W Float st) ->
      sdict_get (Graph.cache W Float st) a <> None)
  /\ forall later a earlier,
       Graph.requests W Float st = later ++ (a, true) :: earlier ->
       ~ In a (map fst later).

End WithGeo.

End SpecX.

(** * Properties *)

(** ** Strings *)

Lemma chr_eqb_eq (a b : ascii) : chr_eqb a b = true <-> a = b.
Proof. apply Ascii.eqb_eq. Qed.

Lemma str_eqb_eq (a b : str) : str_eqb a b = true <-> a = b.
Proof.
  revert b; induction a as [|x a IH]; intros [|y b]; simpl;
    try (split; [discriminate | congruence]); try tauto.
  rewrite andb_true_iff, chr_eqb_eq, IH.
  split; [intros [-> ->]; reflexivity | intros H; inversion H; auto].
Qed.

Lemma str_eqb_refl (a : str) : str_eqb a a = true.
Proof. apply str_eqb_eq; reflexivity. Qed.

Lemma mem_In (x : str) (l : list str) : mem x l = true <-> In x l.
Proof.
  unfold mem; rewrite existsb_exists; split.
  - intros (y & Hin & Heq); apply str_eqb_eq in Heq; subst; exact Hin.
  - intros Hin; exists x; split; [exact Hin | apply str_eqb_refl].
Qed.

Lemma mem_false_In (x : str) (l : list str) : mem x l = false <-> ~ In x l.
Proof.
  rewrite <- mem_In; destruct (mem x l); split; congruence.
Qed.

Lemma nonempty_lower (s : str) : nonempty (lower s) = nonempty s.
Proof. destruct s; reflexivity. Qed.

(** ** The availability classifier *)

(** The classifier on a record with a status that carries no disqualifying
    keyword: it answers by the guide price. *)
Lemma is_for_sale_clean_status (r : PropertyRecord) :
  truthy r.(status) = true -> Spec.no_sold_flag r ->
  is_for_sale r = truthy r.(guide_price).
Proof.
  unfold is_for_sale, Spec.no_sold_flag; intros Hs Hf.
  rewrite Hf, andb_false_r, nonempty_lower.
  destruct (status r) as [s|]; simpl in *; [|discriminate].
  rewrite Hs; destruct (truthy (guide_price r)); reflexivity.
Qed.

(** C1, as stated, fails: a record with status "Bidding Open" and no guide
    price has a non-empty status without any disqualifying keyword, and is
    classified as unavailable. *)
Lemma C1_bidding_open_unavailable :
  ~ (forall r : PropertyRecord,
       truthy r.(status) = true -> Spec.no_sold_flag r -> is_for_sale r = true).
Proof.
  intros H.
  specialize (H Scenario.bidding_open eq_refl eq_refl).
  vm_compute in H; discriminate.
Qed.

(** C1, amended: for every record whose status is present, non-empty and
    free of the five keywords (case-insensitively), the classifier returns
    true exactly when the guide price is present and non-empty. *)
Theorem C1_clean_status_follows_guide_price (r : PropertyRecord) :
  truthy r.(status) = true -> Spec.no_sold_flag r ->
  (is_for_sale r = true <-> truthy r.(guide_price) = true).
Proof.
  intros Hs Hf; rewrite (is_for_sale_clean_status r Hs Hf); tauto.
Qed.

Lemma C1_clean_status_witness :
  is_for_sale Scenario.bidding_open_priced = true
  <-> truthy Scenario.bidding_open_priced.(guide_price) = true.
Proof.
  apply (C1_clean_status_follows_guide_price Scenario.bidding_open_priced);
    reflexivity.
Defined.

(** ** The fetcher *)

Section FetchProperties.

Variable W : Type.
Variable session_get : W -> str -> W * result request_error Response.

Local Abbreviation attempt_once := (Fetch.attempt_once W session_get).
Local Abbreviation fetch_loop := (Fetch.fetch_loop W session_get).
Local Abbreviation fetch_text := (Fetch.fetch_text W session_get).
Local Abbreviation after_requests := (Spec.after_requests W session_get).
Local Abbreviation nth_attempt := (Spec.nth_attempt W session_get).

Lemma after_requests_shift (w : W) (url : str) (k : nat) :
  after_requests w url (S k)
  = after_requests (fst (attempt_once w url)) url k.
Proof.
  induction k as [|k IH]; [reflexivity|].
  change (after_requests w url (S (S k)))
    with (fst (attempt_once (after_requests w url (S k)) url)).
  rewrite IH; reflexivity.
Qed.

Lemma nth_attempt_first (w : W) (url : str) :
  nth_attempt w url 1 = snd (attempt_once w url).
Proof. reflexivity. Qed.

Lemma nth_attempt_shift (w : W) (url : str) (k : nat) :
  1 <= k ->
  nth_attempt w url (S k) = nth_attempt (fst (attempt_once w url)) url k.
Proof.
  intros Hk; unfold Spec.nth_attempt.
  replace (S k - 1) with (S (k - 1)) by lia.
  rewrite after_requests_shift; reflexivity.
Qed.

Local Abbreviation fetched_in := (Spec.fetched_in W session_get).

Lemma fetch_loop_spec (n : nat) :
  forall (w : W) (url : str) (retries attempt : Z)
         (last_error : option request_error),
    1 <= n ->
    (retries - attempt + 1 = Z.of_nat n)%Z ->
    fetched_in w url n (fetch_loop n w url retries attempt last_error).
Proof.
  induction n as [|n IH]; intros w url retries attempt last_error Hn Hrem;
    [lia|].
  simpl.
  destruct (attempt_once w url) as [w1 r1] eqn:E1.
  assert (Hw1 : w1 = fst (attempt_once w url)) by (rewrite E1; reflexivity).
  assert (Hr1 : nth_attempt w url 1 = r1)
    by (rewrite nth_attempt_first, E1; reflexivity).
  destruct r1 as [body|exc].
  - exists 1; simpl.
    split; [lia|]. split; [rewrite E1; reflexivity|].
    split; [intros j Hj; lia | exact Hr1].
  - destruct (Z.geb_spec attempt retries) as [Hge|Hlt].
    + assert (n = 0) by lia; subst n.
      exists 1; simpl.
      split; [lia|]. split; [rewrite E1; reflexivity|].
      split; [intros j Hj; lia|].
      split; [reflexivity|].
      exists exc; split; [exact Hr1 | reflexivity].
    + assert (Hn' : 1 <= n) by lia.
      assert (Hrem' : (retries - (attempt + 1) + 1 = Z.of_nat n)%Z) by lia.
      destruct (IH w1 url retries (attempt + 1)%Z (Some exc) Hn' Hrem')
        as (k & Hk & Hw & Hfail & Hend).
      exists (S k).
      split; [lia|].
      split; [rewrite after_requests_shift, <- Hw1; exact Hw|].
      split.
      * intros j Hj.
        destruct j as [|[|j]]; [lia | exists exc; exact Hr1 |].
        rewrite nth_attempt_shift, <- Hw1 by lia.
        apply Hfail; lia.
      * destruct (snd (fetch_loop n w1 url retries (attempt + 1)%Z (Some exc)))
          as [body|e].
        -- rewrite nth_attempt_shift, <- Hw1 by lia; exact Hend.
        -- destruct Hend as (-> & last & Hlast & ->).
           split; [reflexivity|].
           exists last; split; [|reflexivity].
           rewrite nth_attempt_shift, <- Hw1 by lia; exact Hlast.
Qed.

(** With at least one attempt allowed, [fetch_text] makes between one and
    [retries] requests. *)
Lemma fetch_text_spec (w : W) (url : str) (retries : Z) :
  (1 <= retries)%Z ->
  fetched_in w url (Z.to_nat retries) (fetch_text w url retries).
Proof.
  intros H; unfold Fetch.fetch_text.
  apply fetch_loop_spec; lia.
Qed.


(** C10: with [retries <= 0] the loop body never runs: the session is left
    as it was (no request is made) and the failure raised reports [None] as
    the last error. *)
Theorem C10_fetch_text_no_attempt (w : W) (url : str) (retries : Z) :
  (retries <= 0)%Z ->
  fetch_text w url retries = (w, Raise (RuntimeError url None)).
Proof.
  intros H; unfold Fetch.fetch_text.
  replace (Z.to_nat retries) with 0 by lia.
  reflexivity.
Qed.

End FetchProperties.

Lemma C10_fetch_text_no_attempt_witness :
  Fetch.fetch_text Scenario.Web (Scenario.scripted Scenario.flaky_site)
    [] (py "https://www.auctionhouse.co.uk/sitemap.xml") 0
  = ([], Raise (RuntimeError (py "https://www.auctionhouse.co.uk/sitemap.xml")
                  None)).
Proof.
  apply (C10_fetch_text_no_attempt Scenario.Web
           (Scenario.scripted Scenario.flaky_site)); lia.
Defined.

(** A host that fails twice and answers the third request: the body comes
    back and three requests were made. *)
Example fetch_text_third_time_lucky :
  Fetch.fetch_text Scenario.Web (Scenario.scripted Scenario.flaky_site)
    [] (py "u") 3
  = ([py "u"; py "u"; py "u"], Ok (py "<html></html>")).
Proof. reflexivity. Qed.

(** ** The order of [sorted] *)

Lemma ord_inj (a b : ascii) : ord a = ord b -> a = b.
Proof.
  unfold ord; intros H.
  rewrite <- (ascii_N_embedding a), <- (ascii_N_embedding b), H; reflexivity.
Qed.

Lemma str_ltb_irrefl (a : str) : str_ltb a a = false.
Proof.
  induction a as [|x a IH]; simpl; [reflexivity|].
  rewrite N.ltb_irrefl; exact IH.
Qed.

Lemma str_ltb_trans (a b c : str) :
  str_ltb a b = true -> str_ltb b c = true -> str_ltb a c = true.
Proof.
  revert b c; induction a as [|x a IH]; intros [|y b] [|z c]; simpl;
    try congruence.
  destruct (N.ltb_spec (ord x) (ord y)), (N.ltb_spec (ord y) (ord x)),
    (N.ltb_spec (ord y) (ord z)), (N.ltb_spec (ord z) (ord y)),
    (N.ltb_spec (ord x) (ord z)), (N.ltb_spec (ord z) (ord x));
    try congruence; try lia.
  apply IH.
Qed.

Lemma str_ltb_connex (a b : str) :
  str_ltb a b = false -> str_ltb b a = false -> a = b.
Proof.
  revert b; induction a as [|x a IH]; intros [|y b]; simpl;
    try congruence.
  destruct (N.ltb_spec (ord x) (ord y)), (N.ltb_spec (ord y) (ord x));
    try congruence.
  intros H1 H2; f_equal; [apply ord_inj; lia | apply IH; assumption].
Qed.

Lemma insert_sorted_In (x u : str) (l : list str) :
  In u (insert_sorted x l) <-> u = x \/ In u l.
Proof.
  induction l as [|y l IH]; simpl; [intuition congruence|].
  destruct (str_leb x y); simpl; [intuition congruence|].
  rewrite IH; intuition congruence.
Qed.

Lemma insert_sorted_strict (x : str) (l : list str) :
  StronglySorted Spec.str_lt l -> ~ In x l ->
  StronglySorted Spec.str_lt (insert_sorted x l).
Proof.
  induction 1 as [|y l Hs IH Hy]; intros Hx; simpl.
  - constructor; constructor.
  - unfold str_leb.
    destruct (str_ltb y x) eqn:Eyx; simpl.
    + constructor.
      * apply IH; intros Hin; apply Hx; right; exact Hin.
      * apply Forall_forall; intros u Hu.
        apply insert_sorted_In in Hu; destruct Hu as [->|Hu];
          [exact Eyx | exact (proj1 (Forall_forall _ _) Hy u Hu)].
    + assert (Hxy : str_ltb x y = true).
      { destruct (str_ltb x y) eqn:Exy; [reflexivity|].
        exfalso; apply Hx; left; apply str_ltb_connex; assumption. }
      constructor; [constructor; assumption|].
      constructor; [exact Hxy|].
      apply Forall_forall; intros u Hu.
      apply (str_ltb_trans x y u Hxy).
      exact (proj1 (Forall_forall _ _) Hy u Hu).
Qed.

Lemma sorted_In (u : str) (s : list str) : In u (sorted s) <-> In u s.
Proof.
  induction s as [|x s IH]; simpl; [tauto|].
  rewrite insert_sorted_In, IH; intuition congruence.
Qed.

Lemma sorted_strict (s : list str) :
  NoDup s -> StronglySorted Spec.str_lt (sorted s).
Proof.
  induction 1 as [|x s Hx Hs IH]; simpl; [constructor|].
  apply insert_sorted_strict; [exact IH|].
  rewrite sorted_In; exact Hx.
Qed.

(** A strictly increasing list has no duplicates. *)
Lemma strict_NoDup (l : list str) :
  StronglySorted Spec.str_lt l -> NoDup l.
Proof.
  induction 1 as [|x l Hs IH Hx]; constructor; [|exact IH].
  intros Hin.
  pose proof (proj1 (Forall_forall _ _) Hx x Hin) as H.
  unfold Spec.str_lt in H; rewrite str_ltb_irrefl in H; discriminate.
Qed.

Lemma set_add_In (x u : str) (s : list str) :
  In u (set_add x s) <-> u = x \/ In u s.
Proof.
  unfold set_add; destruct (mem x s) eqn:E; simpl.
  - apply mem_In in E; intuition congruence.
  - intuition congruence.
Qed.

Lemma set_add_NoDup (x : str) (s : list str) :
  NoDup s -> NoDup (set_add x s).
Proof.
  unfold set_add; destruct (mem x s) eqn:E; intros H; [exact H|].
  constructor; [apply mem_false_In; exact E | exact H].
Qed.

(** ** Sitemap discovery *)

Section SitemapProperties.

Variable check_bracketed_netloc : str -> bool.
Variable W : Type.
Variable session_get : W -> str -> W * result request_error Response.
Variable fromstring : str -> option Element.

Local Abbreviation looks_like_property_url :=
  (Sitemap.looks_like_property_url check_bracketed_netloc).
Local Abbreviation enqueue_child := Sitemap.enqueue_child.
Local Abbreviation enqueue_children := Sitemap.enqueue_children.
Local Abbreviation collect_properties :=
  (Sitemap.collect_properties check_bracketed_netloc).
Local Abbreviation crawl :=
  (Sitemap.crawl check_bracketed_netloc W session_get fromstring).
Local Abbreviation iter_sitemap_property_urls :=
  (Sitemap.iter_sitemap_property_urls check_bracketed_netloc W session_get
     fromstring).
Local Abbreviation mkCrawl := (Sitemap.mkCrawl W).
Local Abbreviation fetched := (Sitemap.fetched W).
Local Abbreviation result_of := (Sitemap.result_of W).
Local Abbreviation kept := (Spec.kept check_bracketed_netloc).
Local Abbreviation listed_by := (Spec.listed_by check_bracketed_netloc).
Local Abbreviation found_in_leaves :=
  (Spec.found_in_leaves check_bracketed_netloc fromstring).

(** Induction along the loop: an invariant [I] of the loop variables (and
    of the rounds left) that every round keeps gives [Q] wherever the
    traversal stops. *)
Lemma crawl_inv (max_nested : Z)
    (I : nat -> list str -> list str -> list str -> trace -> Prop)
    (Q : Sitemap.Crawl W -> Prop) :
  (forall w tv v P T, I 0 tv v P T -> Q (mkCrawl w T OutOfFuel)) ->
  (forall n w v P T,
      I (S n) [] v P T -> Q (mkCrawl w T (Returned (sorted P)))) ->
  (forall n cur tv v P T,
      I (S n) (cur :: tv) v P T -> mem cur v = true -> I n tv v P T) ->
  (forall n w cur tv v P T e,
      I (S n) (cur :: tv) v P T -> mem cur v = false ->
      Q (mkCrawl w ((cur, Raise e) :: T) (Raised e))) ->
  (forall n cur tv v P T body,
      I (S n) (cur :: tv) v P T -> mem cur v = false ->
      fromstring body = None ->
      I n tv (cur :: v) P ((cur, Ok body) :: T)) ->
  (forall n cur tv v P T body root,
      I (S n) (cur :: tv) v P T -> mem cur v = false ->
      fromstring body = Some root ->
      endswith (py "sitemapindex") (lower root.(tag)) = true ->
      I n (enqueue_children (cur :: v) max_nested root.(locs) tv)
        (cur :: v) P ((cur, Ok body) :: T)) ->
  (forall n w cur tv v P T body root e,
      I (S n) (cur :: tv) v P T -> mem cur v = false ->
      fromstring body = Some root ->
      endswith (py "sitemapindex") (lower root.(tag)) = false ->
      collect_properties root.(locs) P = Raise e ->
      Q (mkCrawl w ((cur, Ok body) :: T) (Raised e))) ->
  (forall n cur tv v P T body root P',
      I (S n) (cur :: tv) v P T -> mem cur v = false ->
      fromstring body = Some root ->
      endswith (py "sitemapindex") (lower root.(tag)) = false ->
      collect_properties root.(locs) P = Ok P' ->
      I n tv (cur :: v) P' ((cur, Ok body) :: T)) ->
  forall fuel w tv v P T,
    I fuel tv v P T -> Q (crawl fuel max_nested w tv v P T).
Proof.
  intros Hfuel Hdone Hseen Hfail Hbad Hindex Hraise Hleaf.
  induction fuel as [|n IH]; intros w tv v P T HI; simpl.
  - eapply Hfuel; exact HI.
  - destruct tv as [|cur tv]; [eapply Hdone; exact HI|].
    destruct (mem cur v) eqn:Ev; [apply IH; eapply Hseen; eassumption|].
    destruct (Fetch.fetch_text W session_get w cur 3) as [w1 [body|e]];
      [|eapply Hfail; eassumption].
    destruct (fromstring body) as [root|] eqn:Ep;
      [|apply IH; eapply Hbad; eassumption].
    destruct (endswith (py "sitemapindex") (lower (tag root))) eqn:Et;
      [apply IH; eapply Hindex; eassumption|].
    destruct (collect_properties (locs root) P) as [P'|e] eqn:Ec;
      [apply IH; eapply Hleaf; eassumption | eapply Hraise; eassumption].
Qed.

(** *** A fetch failure ends the traversal *)

(** A failed call of [fetch_text] is the last call of the traversal: it
    heads the trace, every call before it succeeded, and its exception is
    the outcome. *)
Lemma crawl_fetch_failure_last (fuel : nat) (max_nested : Z) (w : W)
    (tv v P : list str) (T : trace) :
  (forall u e, ~ In (u, Raise e) T) ->
  forall u e,
    In (u, Raise e) (fetched (crawl fuel max_nested w tv v P T)) ->
    result_of (crawl fuel max_nested w tv v P T) = Raised e
    /\ exists earlier,
         fetched (crawl fuel max_nested w tv v P T)
         = (u, Raise e) :: earlier
         /\ forall u' e', ~ In (u', Raise e') earlier.
Proof.
  intros HT.
  apply (crawl_inv max_nested
           (fun _ _ _ _ T => forall u e, ~ In (u, Raise e) T)
           (fun c => forall u e,
                In (u, Raise e) (fetched c) ->
                result_of c = Raised e
                /\ exists earlier,
                     fetched c = (u, Raise e) :: earlier
                     /\ forall u' e', ~ In (u', Raise e') earlier));
    try exact HT; simpl.
  - intros w0 tv0 v0 P0 T0 H u e Hin; destruct (H u e Hin).
  - intros n w0 v0 P0 T0 H u e Hin; destruct (H u e Hin).
  - intros n cur tv0 v0 P0 T0 H Hm; exact H.
  - intros n w0 cur tv0 v0 P0 T0 e H Hm u e' [Heq|Hin].
    + inversion Heq; subst; split; [reflexivity|].
      exists T0; split; [reflexivity | exact H].
    + destruct (H u e' Hin).
  - intros n cur tv0 v0 P0 T0 body H Hm Hp u e [Heq|Hin];
      [discriminate | exact (H u e Hin)].
  - intros n cur tv0 v0 P0 T0 body root H Hm Hp Ht u e [Heq|Hin];
      [discriminate | exact (H u e Hin)].
  - intros n w0 cur tv0 v0 P0 T0 body root e H Hm Hp Ht Hc u e' [Heq|Hin];
      [discriminate | destruct (H u e' Hin)].
  - intros n cur tv0 v0 P0 T0 body root P' H Hm Hp Ht Hc u e [Heq|Hin];
      [discriminate | exact (H u e Hin)].
Qed.

(** *** Each document is fetched once *)

Lemma crawl_fetched_once (fuel : nat) (max_nested : Z) (w : W)
    (tv v P : list str) (T : trace) :
  NoDup (map fst T) -> (forall u, In u (map fst T) -> In u v) ->
  NoDup (map fst (fetched (crawl fuel max_nested w tv v P T))).
Proof.
  intros HT Hv.
  pose (Inv := fun (v0 : list str) (T0 : trace) =>
          NoDup (map fst T0) /\ (forall u, In u (map fst T0) -> In u v0)).
  assert (Hstep : forall cur v0 T0 (r : result exn str),
             Inv v0 T0 -> mem cur v0 = false ->
             Inv (cur :: v0) ((cur, r) :: T0)).
  { intros cur v0 T0 r [Hn Hsub] Hm; split; simpl.
    - constructor; [|exact Hn].
      intros Hin; apply mem_false_In in Hm; exact (Hm (Hsub _ Hin)).
    - intros u [->|Hin]; [left; reflexivity | right; exact (Hsub _ Hin)]. }
  apply (crawl_inv max_nested
           (fun _ _ v0 _ T0 => Inv v0 T0)
           (fun c => NoDup (map fst (fetched c))));
    try (split; assumption); simpl.
  - intros w0 tv0 v0 P0 T0 H; exact (proj1 H).
  - intros n w0 v0 P0 T0 H; exact (proj1 H).
  - intros n cur tv0 v0 P0 T0 H Hm; exact H.
  - intros n w0 cur tv0 v0 P0 T0 e H Hm.
    exact (proj1 (Hstep cur v0 T0 (Raise e) H Hm)).
  - intros n cur tv0 v0 P0 T0 body H Hm Hp; apply Hstep; assumption.
  - intros n cur tv0 v0 P0 T0 body root H Hm Hp Ht; apply Hstep; assumption.
  - intros n w0 cur tv0 v0 P0 T0 body root e H Hm Hp Ht Hc.
    exact (proj1 (Hstep cur v0 T0 (Ok body) H Hm)).
  - intros n cur tv0 v0 P0 T0 body root P' H Hm Hp Ht Hc;
      apply Hstep; assumption.
Qed.

(** *** What a traversal that returns has found *)

Lemma collect_properties_spec (locs : list (option str)) :
  forall P P',
    collect_properties locs P = Ok P' -> NoDup P ->
    NoDup P' /\ (forall u, In u P' <-> In u P \/ kept locs u).
Proof.
  induction locs as [|loc locs IH]; intros P P' Hc HP; simpl in Hc.
  - inversion Hc; subst; split; [exact HP|].
    intros u; split; [tauto|].
    intros [H|(l & [] & _)]; exact H.
  - assert (Hcons : forall u,
               kept (loc :: locs) u
               <-> (strip (or_empty loc) = u /\ nonempty u = true
                    /\ looks_like_property_url u = Ok true)
                   \/ kept locs u).
    { intros u; split.
      - intros (l & [<-|Hin] & H); [left; exact H | right; exists l; tauto].
      - intros [H|(l & Hin & H)];
          [exists loc; simpl; tauto | exists l; simpl; tauto]. }
    destruct (nonempty (strip (or_empty loc))) eqn:En; simpl in Hc.
    + destruct (looks_like_property_url (strip (or_empty loc)))
        as [[|]|e] eqn:El; [| |discriminate].
      * destruct (IH _ _ Hc (set_add_NoDup _ _ HP)) as [Hn Hiff].
        split; [exact Hn|]; intros u.
        rewrite Hiff, set_add_In, Hcons; split.
        -- intros [[->|H]|H]; [right; left; tauto | tauto | tauto].
        -- intros [H|[(<- & _)|H]]; tauto.
      * destruct (IH _ _ Hc HP) as [Hn Hiff].
        split; [exact Hn|]; intros u.
        rewrite Hiff, Hcons; split; [tauto|].
        intros [H|[(<- & _ & H)|H]]; [tauto | congruence | tauto].
    + destruct (IH _ _ Hc HP) as [Hn Hiff].
      split; [exact Hn|]; intros u.
      rewrite Hiff, Hcons; split; [tauto|].
      intros [H|[(<- & H & _)|H]]; [tauto | congruence | tauto].
Qed.

Lemma found_in_leaves_cons (cur : str) (r : result exn str) (T : trace)
    (u : str) :
  found_in_leaves ((cur, r) :: T) u
  <-> (exists body e,
          r = Ok body /\ fromstring body = Some e /\ listed_by e u)
      \/ found_in_leaves T u.
Proof.
  unfold Spec.found_in_leaves; split.
  - intros (doc & body & e & [Heq|Hin] & Hp & Hl).
    + inversion Heq; subst; left; exists body, e; tauto.
    + right; exists doc, body, e; tauto.
  - intros [(body & e & -> & Hp & Hl)|(doc & body & e & Hin & Hp & Hl)].
    + exists cur, body, e; simpl; tauto.
    + exists doc, body, e; simpl; tauto.
Qed.

Lemma crawl_returned (fuel : nat) (max_nested : Z) (w : W)
    (tv v P : list str) (T : trace) :
  NoDup P -> (forall u, In u P <-> found_in_leaves T u) ->
  forall l,
    result_of (crawl fuel max_nested w tv v P T) = Returned l ->
    StronglySorted Spec.str_lt l
    /\ (forall u,
          In u l
          <-> found_in_leaves (fetched (crawl fuel max_nested w tv v P T)) u).
Proof.
  intros HP HT.
  apply (crawl_inv max_nested
           (fun _ _ _ P0 T0 =>
              NoDup P0 /\ (forall u, In u P0 <-> found_in_leaves T0 u))
           (fun c => forall l,
                result_of c = Returned l ->
                StronglySorted Spec.str_lt l
                /\ (forall u, In u l <-> found_in_leaves (fetched c) u)));
    try (split; assumption); simpl.
  - intros w0 tv0 v0 P0 T0 H l Hl; discriminate.
  - intros n w0 v0 P0 T0 [Hn Hiff] l Hl; inversion Hl; subst.
    split; [apply sorted_strict; exact Hn|].
    intros u; rewrite sorted_In; apply Hiff.
  - intros n cur tv0 v0 P0 T0 H Hm; exact H.
  - intros n w0 cur tv0 v0 P0 T0 e H Hm l Hl; discriminate.
  - intros n cur tv0 v0 P0 T0 body [Hn Hiff] Hm Hp; split; [exact Hn|].
    intros u; rewrite found_in_leaves_cons, Hiff; split; [tauto|].
    intros [(b & e & Hb & Hpb & _)|H]; [|exact H].
    inversion Hb; subst; congruence.
  - intros n cur tv0 v0 P0 T0 body root [Hn Hiff] Hm Hp Ht;
      split; [exact Hn|].
    intros u; rewrite found_in_leaves_cons, Hiff; split; [tauto|].
    intros [(b & e & Hb & Hpb & Hleaf & _)|H]; [|exact H].
    inversion Hb; subst.
    rewrite Hp in Hpb; inversion Hpb; subst; congruence.
  - intros n w0 cur tv0 v0 P0 T0 body root e H Hm Hp Ht Hc l Hl;
      discriminate.
  - intros n cur tv0 v0 P0 T0 body root P' [Hn Hiff] Hm Hp Ht Hc.
    destruct (collect_properties_spec _ _ _ Hc Hn) as [Hn' Hiff'].
    split; [exact Hn'|].
    intros u; rewrite found_in_leaves_cons, Hiff', Hiff; split.
    + intros [H|H]; [tauto|].
      left; exists body, root; split; [reflexivity|].
      split; [exact Hp|]; split; [exact Ht | exact H].
    + intros [(b & e & Hb & Hpb & _ & Hk)|H]; [|tauto].
      inversion Hb; subst.
      rewrite Hp in Hpb; inversion Hpb; subst; right; exact Hk.
Qed.

(** *** The traversal ends *)

Lemma enqueue_children_bound (max_nested : Z) (m : nat) (v : list str)
    (locs : list (option str)) :
  (max_nested <= Z.of_nat m)%Z ->
  forall tv,
    length v + length tv <= m ->
    length v + length (enqueue_children v max_nested locs tv) <= m.
Proof.
  intros Hmax; unfold Sitemap.enqueue_children.
  induction locs as [|loc locs IH]; intros tv Hb; simpl; [exact Hb|].
  apply IH; unfold Sitemap.enqueue_child.
  destruct (negb (nonempty (strip (or_empty loc)))
            || mem (strip (or_empty loc)) v); [exact Hb|].
  destruct (Z.geb_spec (Z.of_nat (length v) + Z.of_nat (length tv))
              max_nested); [exact Hb|].
  destruct (endswith (py ".xml") (strip (or_empty loc))); [|exact Hb].
  simpl; lia.
Qed.

Lemma crawl_ends (max_nested : Z) (m : nat) :
  (max_nested <= Z.of_nat m)%Z ->
  forall fuel w tv v P T,
    length v + length tv <= m ->
    (m - length v) * (m + 1) + length tv < fuel ->
    result_of (crawl fuel max_nested w tv v P T) <> OutOfFuel.
Proof.
  intros Hmax fuel w tv v P T Hb Hf.
  assert (Hnext : forall n cur (tv0 tv1 v0 : list str),
             length v0 + length (cur :: tv0) <= m ->
             (m - length v0) * (m + 1) + length (cur :: tv0) < S n ->
             length (cur :: v0) + length tv1 <= m ->
             length (cur :: v0) + length tv1 <= m
             /\ (m - length (cur :: v0)) * (m + 1) + length tv1 < n).
  { intros n cur tv0 tv1 v0 H1 H2 H3; split; [exact H3|].
    simpl in *.
    assert (Ha : m - length v0 = S (m - S (length v0))) by lia.
    rewrite Ha in H2; simpl in H2; lia. }
  apply (crawl_inv max_nested
           (fun n tv0 v0 _ _ =>
              length v0 + length tv0 <= m
              /\ (m - length v0) * (m + 1) + length tv0 < n)
           (fun c => result_of c <> OutOfFuel));
    try (split; assumption); simpl.
  - intros w0 tv0 v0 P0 T0 [_ H]; exfalso; exact (Nat.nlt_0_r _ H).
  - intros; discriminate.
  - intros n cur tv0 v0 P0 T0 [H1 H2] Hm; simpl in *; lia.
  - intros; discriminate.
  - intros n cur tv0 v0 P0 T0 body [H1 H2] Hm Hp.
    apply (Hnext n cur tv0 tv0 v0 H1 H2); simpl in *; lia.
  - intros n cur tv0 v0 P0 T0 body root [H1 H2] Hm Hp Ht.
    apply (Hnext n cur tv0 _ v0 H1 H2).
    apply enqueue_children_bound; [exact Hmax | simpl in *; lia].
  - intros; discriminate.
  - intros n cur tv0 v0 P0 T0 body root P' [H1 H2] Hm Hp Ht Hc.
    apply (Hnext n cur tv0 tv0 v0 H1 H2); simpl in *; lia.
Qed.

(** The rounds allowed by [iter_sitemap_property_urls] are never used up. *)
Lemma iter_sitemap_property_urls_ends (w : W) (root_sitemap : str)
    (max_nested : Z) :
  result_of (iter_sitemap_property_urls w root_sitemap max_nested)
  <> OutOfFuel.
Proof.
  unfold Sitemap.iter_sitemap_property_urls, Sitemap.enough_fuel.
  set (m := Z.to_nat (Z.max 1 max_nested)).
  apply (crawl_ends max_nested m); simpl; lia.
Qed.

(** C2, amended: a sitemap document whose fetch fails after its retries,
    the root or any other, ends the traversal at once.  Discovery raises
    that very failure instead of returning, and the failed call is the last
    call of [fetch_text] the traversal makes: it heads the trace, so nothing
    of the remaining frontier is fetched after it, and every call before it
    had succeeded. *)
Theorem C2_fetch_failure_ends_discovery (w : W) (root_sitemap : str)
    (max_nested : Z) (u : str) (e : exn) :
  In (u, Raise e)
    (fetched (iter_sitemap_property_urls w root_sitemap max_nested)) ->
  result_of (iter_sitemap_property_urls w root_sitemap max_nested) = Raised e
  /\ exists earlier,
       fetched (iter_sitemap_property_urls w root_sitemap max_nested)
       = (u, Raise e) :: earlier
       /\ forall u' e', ~ In (u', Raise e') earlier.
Proof.
  apply crawl_fetch_failure_last; intros u0 e0 [].
Qed.

(** C6: whatever the sitemap graph (cycles, documents listed by several
    indexes), no sitemap document is fetched twice by a traversal. *)
Theorem C6_each_sitemap_fetched_once (w : W) (root_sitemap : str)
    (max_nested : Z) :
  NoDup
    (map fst (fetched (iter_sitemap_property_urls w root_sitemap max_nested))).
Proof.
  apply crawl_fetched_once; [constructor | intros u []].
Qed.

(** C8, amended: the traversal ends, and when it returns, its result is
    strictly increasing (sorted, without duplicates) and holds exactly the
    [loc] texts, stripped of surrounding white space and otherwise as
    written, that have a property path and occur in a fetched document
    that parsed and is not an index.  Nothing is canonicalized. *)
Theorem C8_discovery_result (w : W) (root_sitemap : str) (max_nested : Z) :
  let c := iter_sitemap_property_urls w root_sitemap max_nested in
  result_of c <> OutOfFuel
  /\ forall l,
       result_of c = Returned l ->
       StronglySorted Spec.str_lt l
       /\ NoDup l
       /\ (forall u, In u l <-> found_in_leaves (fetched c) u).
Proof.
  split; [apply iter_sitemap_property_urls_ends|].
  intros l Hl.
  destruct (crawl_returned _ _ _ _ _ _ _ (NoDup_nil _)
              (fun u => conj (fun H : In u [] => match H with end)
                          (fun H : found_in_leaves [] u =>
                             match H with
                             | ex_intro _ _ (ex_intro _ _ (ex_intro _ _
                                 (conj Hin _))) => Hin
                             end))
              l Hl) as [Hs Hiff].
  split; [exact Hs|]; split; [apply strict_NoDup; exact Hs | exact Hiff].
Qed.

End SitemapProperties.

(** *** Sitemap discovery on the scenarios *)

(** An index over two leaves with two listings and one: three URLs. *)
Example discover_two_leaves :
  Sitemap.result_of _ (Scenario.discover Scenario.two_leaves)
  = Returned [py "https://www.auctionhouse.co.uk/property/1";
              py "https://www.auctionhouse.co.uk/property/2";
              py "https://www.auctionhouse.co.uk/property/3"].
Proof. vm_compute; reflexivity. Qed.

(** C2, as stated, fails: when the second leaf of the index cannot be
    fetched, discovery does not skip it and return; it raises, and the
    first leaf is never fetched. *)
Lemma C2_dead_leaf_aborts_discovery :
  ~ (forall (site : str -> nat -> result request_error Response)
       (u : str) (e : exn),
       u <> Scenario.root_url ->
       In (u, Raise e) (Sitemap.fetched _ (Scenario.discover site)) ->
       exists l, Sitemap.result_of _ (Scenario.discover site) = Returned l).
Proof.
  intros H.
  destruct (H Scenario.dead_leaf Scenario.leaf_b_url
              (RuntimeError Scenario.leaf_b_url (Some (HTTPError 503))))
    as [l Hl].
  - vm_compute; discriminate.
  - vm_compute; left; reflexivity.
  - vm_compute in Hl; discriminate.
Qed.

(** On the index whose second leaf is dead: the failed fetch of that leaf
    is the last one, after the root alone; the first leaf, still pending,
    is never fetched. *)
Lemma C2_fetch_failure_witness :
  Sitemap.result_of _ (Scenario.discover Scenario.dead_leaf)
  = Raised (RuntimeError Scenario.leaf_b_url (Some (HTTPError 503)))
  /\ exists earlier,
       Sitemap.fetched _ (Scenario.discover Scenario.dead_leaf)
       = (Scenario.leaf_b_url,
          Raise (RuntimeError Scenario.leaf_b_url (Some (HTTPError 503))))
         :: earlier
       /\ forall u' e', ~ In (u', Raise e') earlier.
Proof.
  apply (C2_fetch_failure_ends_discovery UrlParse.no_bracket_check
           Scenario.Web (Scenario.scripted Scenario.dead_leaf)
           Scenario.fromstring [] Scenario.root_url 100
           Scenario.leaf_b_url).
  vm_compute; left; reflexivity.
Defined.

(** C8, as stated, fails: a leaf that lists one page under two query
    strings yields two results with one canonical form, so the result is
    not deduplicated on the canonical form. *)
Lemma C8_queries_not_deduplicated :
  ~ (forall (site : str -> nat -> result request_error Response)
       (l : list str),
       Sitemap.result_of _ (Scenario.discover site) = Returned l ->
       NoDup (map (UrlParse.canonicalize UrlParse.no_bracket_check) l)).
Proof.
  intros H.
  specialize (H Scenario.query_leaf
                [py "https://www.auctionhouse.co.uk/property/1?ref=a";
                 py "https://www.auctionhouse.co.uk/property/1?ref=b"]
                ltac:(vm_compute; reflexivity)).
  vm_compute in H.
  inversion H as [|x l Hx Hl]; subst.
  apply Hx; left; reflexivity.
Qed.

Lemma C8_discovery_result_witness :
  StronglySorted Spec.str_lt
    [py "https://www.auctionhouse.co.uk/property/1";
     py "https://www.auctionhouse.co.uk/property/2";
     py "https://www.auctionhouse.co.uk/property/3"].
Proof.
  apply (proj2 (C8_discovery_result UrlParse.no_bracket_check
                  Scenario.Web (Scenario.scripted Scenario.two_leaves)
                  Scenario.fromstring [] Scenario.root_url 100)).
  vm_compute; reflexivity.
Defined.

(** ** URL parsing and the canonical form *)

Section UrlProperties.

Import UrlParse.

(** *** Characters *)

Ltac each_char c :=
  destruct c as [[] [] [] [] [] [] [] []]; vm_compute; try reflexivity;
  try discriminate; try (intros; discriminate); try (intros; reflexivity).

Lemma chr_lower_idem (c : ascii) : chr_lower (chr_lower c) = chr_lower c.
Proof. each_char c. Qed.

Lemma chr_lower_scheme_char (c : ascii) :
  scheme_char c = true -> scheme_char (chr_lower c) = true.
Proof. each_char c. Qed.

Lemma chr_lower_alpha (c : ascii) :
  ascii_alpha c = true -> ascii_alpha (chr_lower c) = true.
Proof. each_char c. Qed.

Lemma alpha_not_c0 (c : ascii) :
  ascii_alpha c = true -> c0_or_space c = false.
Proof. each_char c. Qed.

Lemma scheme_char_safe (c : ascii) :
  scheme_char c = true -> unsafe_byte c = false.
Proof. each_char c. Qed.

Lemma scheme_char_not_colon (c : ascii) :
  scheme_char c = true -> chr_eqb c ":" = false.
Proof. each_char c. Qed.

Lemma chr_eqb_refl (c : ascii) : chr_eqb c c = true.
Proof. apply Ascii.eqb_refl. Qed.

Lemma chr_eqb_sym (a b : ascii) : chr_eqb a b = chr_eqb b a.
Proof. apply Ascii.eqb_sym. Qed.

Lemma has_chr_In (c : ascii) (s : str) : has_chr c s = true <-> In c s.
Proof.
  unfold has_chr; rewrite existsb_exists; split.
  - intros (x & Hin & Hx); apply chr_eqb_eq in Hx; subst; exact Hin.
  - intros Hin; exists c; split; [exact Hin | apply chr_eqb_refl].
Qed.

Lemma has_chr_false (c : ascii) (s : str) : has_chr c s = false <-> ~ In c s.
Proof.
  rewrite <- has_chr_In; destruct (has_chr c s); split; congruence.
Qed.

(** *** Splitting *)

Lemma partition_Some (c : ascii) (s a b : str) :
  partition c s = Some (a, b) -> s = a ++ c :: b /\ ~ In c a.
Proof.
  revert a b; induction s as [|x s IH]; intros a b H; simpl in H;
    [discriminate|].
  destruct (chr_eqb x c) eqn:E.
  - apply chr_eqb_eq in E; inversion H; subst; split; [reflexivity | intros []].
  - destruct (partition c s) as [[a' b']|]; [|discriminate].
    inversion H; subst.
    destruct (IH a' b eq_refl) as [-> Hn]; split; [reflexivity|].
    intros [->|Hin]; [rewrite chr_eqb_refl in E; discriminate | exact (Hn Hin)].
Qed.

Lemma partition_None (c : ascii) (s : str) :
  partition c s = None <-> ~ In c s.
Proof.
  induction s as [|x s IH]; simpl; [split; [intros _ [] | reflexivity]|].
  destruct (chr_eqb x c) eqn:E.
  - apply chr_eqb_eq in E; subst; split; [discriminate | intros H].
    exfalso; apply H; left; reflexivity.
  - destruct (partition c s) as [[a b]|].
    + split; [discriminate | intros H].
      exfalso; apply (proj1 (not_iff_compat IH)); [discriminate|].
      intros Hin; apply H; right; exact Hin.
    + split; [intros _ [->|Hin] | reflexivity].
      * rewrite chr_eqb_refl in E; discriminate.
      * exact (proj1 IH eq_refl Hin).
Qed.

Lemma partition_app (c : ascii) (a b : str) :
  ~ In c a -> partition c (a ++ c :: b) = Some (a, b).
Proof.
  induction a as [|x a IH]; intros Hn; simpl.
  - rewrite chr_eqb_refl; reflexivity.
  - destruct (chr_eqb x c) eqn:E.
    + apply chr_eqb_eq in E; subst; exfalso; apply Hn; left; reflexivity.
    + rewrite IH; [reflexivity | intros Hin; apply Hn; right; exact Hin].
Qed.

Lemma rpartition_Some (c : ascii) (s a b : str) :
  rpartition c s = Some (a, b) -> s = a ++ c :: b /\ ~ In c b.
Proof.
  revert a b; induction s as [|x s IH]; intros a b H; simpl in H;
    [discriminate|].
  destruct (rpartition c s) as [[a' b']|] eqn:Er.
  - inversion H; subst.
    destruct (IH a' b eq_refl) as [-> Hn]; split; [reflexivity | exact Hn].
  - destruct (chr_eqb x c) eqn:E; [|discriminate].
    apply chr_eqb_eq in E; inversion H; subst; split; [reflexivity|].
    clear H IH; revert Er; induction b as [|y b IHb]; simpl;
      [intros _ []|].
    destruct (rpartition c b) as [[? ?]|]; [discriminate|].
    destruct (chr_eqb y c) eqn:Ey; [discriminate|].
    intros _ [->|Hin]; [rewrite chr_eqb_refl in Ey; discriminate|].
    exact (IHb eq_refl Hin).
Qed.

Lemma rpartition_None (c : ascii) (s : str) :
  ~ In c s -> rpartition c s = None.
Proof.
  induction s as [|x s IH]; intros Hn; simpl; [reflexivity|].
  rewrite IH by (intros Hin; apply Hn; right; exact Hin).
  destruct (chr_eqb x c) eqn:E; [|reflexivity].
  apply chr_eqb_eq in E; subst; exfalso; apply Hn; left; reflexivity.
Qed.

Lemma rpartition_app (c : ascii) (a b : str) :
  ~ In c b -> rpartition c (a ++ c :: b) = Some (a, b).
Proof.
  intros Hn; induction a as [|x a IH]; simpl.
  - rewrite (rpartition_None c b Hn), chr_eqb_refl; reflexivity.
  - rewrite IH; reflexivity.
Qed.

Lemma break_spec (p : ascii -> bool) (s a b : str) :
  break p s = (a, b) ->
  s = a ++ b
  /\ (forall x, In x a -> p x = false)
  /\ (b = [] \/ exists x b', b = x :: b' /\ p x = true).
Proof.
  revert a b; induction s as [|x s IH]; intros a b H; simpl in H.
  - inversion H; subst; split; [reflexivity|]; split; [intros x []|].
    left; reflexivity.
  - destruct (p x) eqn:E.
    + inversion H; subst; split; [reflexivity|]; split; [intros y []|].
      right; exists x, s; split; [reflexivity | exact E].
    + destruct (break p s) as [a' b'].
      inversion H; subst.
      destruct (IH a' b eq_refl) as (-> & Ha & Hb).
      split; [reflexivity|]; split; [|exact Hb].
      intros y [<-|Hin]; [exact E | exact (Ha y Hin)].
Qed.

Lemma break_app (p : ascii -> bool) (a b : str) :
  (forall x, In x a -> p x = false) ->
  (b = [] \/ exists x b', b = x :: b' /\ p x = true) ->
  break p (a ++ b) = (a, b).
Proof.
  intros Ha Hb; induction a as [|x a IH]; simpl.
  - destruct Hb as [->|(x & b' & -> & Hx)]; simpl;
      [reflexivity | rewrite Hx; reflexivity].
  - rewrite (Ha x (or_introl eq_refl)), IH; [reflexivity|].
    intros y Hy; apply Ha; right; exact Hy.
Qed.

Lemma cut_spec (c : ascii) (s a b : str) :
  cut c s = (a, b) ->
  ~ In c a /\ exists t, s = a ++ t.
Proof.
  unfold cut; destruct (partition c s) as [[a' b']|] eqn:E; intros H;
    inversion H; subst.
  - destruct (partition_Some _ _ _ _ E) as [-> Hn].
    split; [exact Hn | eexists; reflexivity].
  - split; [apply partition_None; exact E | exists []; rewrite app_nil_r].
    reflexivity.
Qed.

Lemma cut_absent (c : ascii) (s : str) : ~ In c s -> cut c s = (s, []).
Proof.
  intros H; unfold cut; rewrite (proj2 (partition_None c s) H); reflexivity.
Qed.

(** The path that [_splitparams] leaves is a prefix of its argument, and
    splitting it again changes nothing. *)
Lemma splitparams_prefix (x : str) : exists t, x = fst (splitparams x) ++ t.
Proof.
  unfold splitparams.
  destruct (rpartition "/" x) as [[hd seg]|] eqn:Er.
  - destruct (rpartition_Some _ _ _ _ Er) as [-> _].
    destruct (partition ";" seg) as [[a b]|] eqn:Ep; simpl.
    + destruct (partition_Some _ _ _ _ Ep) as [-> _].
      exists (";"%char :: b); rewrite <- app_assoc; reflexivity.
    + exists []; rewrite app_nil_r; reflexivity.
  - destruct (partition ";" x) as [[a b]|] eqn:Ep; simpl.
    + destruct (partition_Some _ _ _ _ Ep) as [-> _]; eexists; reflexivity.
    + destruct x as [|c x] using rev_ind; [exists []; reflexivity|].
      rewrite removelast_last; eexists; reflexivity.
Qed.

Lemma splitparams_stable (x : str) :
  In ";"%char (fst (splitparams x)) ->
  splitparams (fst (splitparams x)) = (fst (splitparams x), []).
Proof.
  remember (fst (splitparams x)) as y eqn:Hy; intros Hin.
  unfold splitparams in Hy.
  destruct (rpartition "/" x) as [[hd seg]|] eqn:Er.
  - destruct (rpartition_Some _ _ _ _ Er) as [Hx Hseg].
    destruct (partition ";" seg) as [[a b]|] eqn:Ep; simpl in Hy; subst y.
    + destruct (partition_Some _ _ _ _ Ep) as [-> Ha].
      unfold splitparams.
      rewrite rpartition_app
        by (intros H; apply Hseg; apply in_or_app; left; exact H).
      rewrite (proj2 (partition_None ";" a) Ha); reflexivity.
    + unfold splitparams; rewrite Er, Ep; reflexivity.
  - exfalso.
    destruct (partition ";" x) as [[a b]|] eqn:Ep; simpl in Hy; subst y.
    + destruct (partition_Some _ _ _ _ Ep) as [_ Ha]; exact (Ha Hin).
    + apply (proj1 (partition_None ";" x) Ep).
      destruct x as [|c x _] using rev_ind; [destruct Hin|].
      rewrite removelast_last in Hin; apply in_or_app; left; exact Hin.
Qed.

Lemma lstrip_by_head (p : ascii -> bool) (c : ascii) (s : str) :
  p c = false -> lstrip_by p (c :: s) = c :: s.
Proof. intros H; simpl; rewrite H; reflexivity. Qed.

Lemma filter_all (A : Type) (f : A -> bool) (l : list A) :
  (forall x, In x l -> f x = true) -> filter f l = l.
Proof.
  induction l as [|x l IH]; intros H; simpl; [reflexivity|].
  rewrite (H x (or_introl eq_refl)), IH; [reflexivity|].
  intros y Hy; apply H; right; exact Hy.
Qed.

Lemma startswith_slashes (r : str) :
  startswith (py "//") r = true -> exists r', r = "/"%char :: "/"%char :: r'.
Proof.
  change (py "//") with ["/"; "/"]%char.
  destruct r as [|a [|b r']]; simpl; try discriminate.
  - rewrite andb_false_r; discriminate.
  - rewrite andb_true_r, andb_true_iff, !chr_eqb_eq.
    intros [<- <-]; exists r'; reflexivity.
Qed.

Lemma netloc_delim_cases (c : ascii) :
  netloc_delim c = true -> c = "/"%char \/ c = "?"%char \/ c = "#"%char.
Proof.
  unfold netloc_delim; rewrite !orb_true_iff, !chr_eqb_eq; tauto.
Qed.

Lemma lower_idem (s : str) : lower (lower s) = lower s.
Proof.
  unfold lower; rewrite map_map; apply map_ext; intros c.
  apply chr_lower_idem.
Qed.

Variable check_bracketed_netloc : str -> bool.

Local Abbreviation urlparse := (urlparse check_bracketed_netloc).
Local Abbreviation canonicalize := (canonicalize check_bracketed_netloc).
Local Abbreviation netloc_valid := (netloc_valid check_bracketed_netloc).

(** A string put together as [scheme://netloc/path] from well-formed parts
    parses back into these parts. *)
Lemma canonical_parses (s n pth : str) :
  first_alpha s = true ->
  forallb scheme_char s = true ->
  lower s = s ->
  (forall x, In x (n ++ pth) -> unsafe_byte x = false) ->
  (forall x, In x n -> netloc_delim x = false) ->
  netloc_valid n = true ->
  (pth = [] \/ exists t, pth = "/"%char :: t) ->
  ~ In "#"%char pth ->
  ~ In "?"%char pth ->
  (mem s uses_params = true -> In ";"%char pth ->
   splitparams pth = (pth, [])) ->
  urlparse (s ++ py "://" ++ n ++ pth) = Some (mkParseResult s n pth [] [] []).
Proof.
  intros Halpha Hscheme Hlow Hsafe Hn Hvalid Hpth Hfrag Hquery Hparams.
  assert (Hcolon : ~ In ":"%char s).
  { intros Hin.
    pose proof (proj1 (forallb_forall _ _) Hscheme _ Hin) as H.
    apply scheme_char_not_colon in H; rewrite chr_eqb_refl in H.
    discriminate. }
  unfold UrlParse.urlparse.
  change (py "://") with [":"; "/"; "/"]%char.
  destruct s as [|c s]; [discriminate|].
  cbn [app].
  rewrite lstrip_by_head by (apply alpha_not_c0; exact Halpha).
  rewrite filter_all.
  2:{ intros x Hx; apply negb_true_iff.
      change (In x ((c :: s) ++ [":"; "/"; "/"]%char ++ n ++ pth)) in Hx.
      apply in_app_or in Hx; destruct Hx as [Hx|Hx].
      - apply scheme_char_safe.
        exact (proj1 (forallb_forall _ _) Hscheme _ Hx).
      - apply in_app_or in Hx; destruct Hx as [Hx|Hx]; [|exact (Hsafe x Hx)].
        destruct Hx as [<-|[<-|[<-|[]]]]; reflexivity. }
  unfold split_scheme.
  change (c :: s ++ ":"%char :: "/"%char :: "/"%char :: n ++ pth)
    with ((c :: s) ++ ":"%char :: "/"%char :: "/"%char :: n ++ pth).
  rewrite (partition_app ":" (c :: s) _ Hcolon).
  rewrite Halpha, Hscheme, Hlow; cbn [nonempty andb].
  unfold split_netloc.
  change (startswith (py "//") ("/"%char :: "/"%char :: n ++ pth)) with true.
  cbn [skipn].
  rewrite (break_app netloc_delim n pth Hn).
  2:{ destruct Hpth as [->|(t & ->)]; [left; reflexivity|].
      right; exists "/"%char, t; split; reflexivity. }
  rewrite Hvalid, (cut_absent "#" pth Hfrag), (cut_absent "?" pth Hquery).
  destruct (mem (c :: s) uses_params && has_chr ";" pth) eqn:E;
    [|reflexivity].
  apply andb_true_iff in E; destruct E as [Em E].
  rewrite (Hparams Em (proj1 (has_chr_In _ _) E)); reflexivity.
Qed.

(** C9, amended: for every URL that parses with a scheme and a network
    location, canonicalizing its canonical form gives that form back. *)
Theorem C9_canonicalize_idempotent (u c : str) (parsed : ParseResult) :
  urlparse u = Some parsed ->
  parsed.(scheme) <> [] ->
  parsed.(netloc) <> [] ->
  canonicalize u = Some c ->
  canonicalize c = Some c.
Proof.
  unfold UrlParse.canonicalize; intros Hp Hs Hn Hc.
  rewrite Hp in Hc; simpl in Hc; inversion Hc; subst c; clear Hc.
  unfold UrlParse.urlparse in Hp.
  set (u1 := filter (fun c => negb (unsafe_byte c))
               (lstrip_by c0_or_space u)) in Hp.
  assert (Hu1 : forall x, In x u1 -> unsafe_byte x = false).
  { intros x Hx; apply filter_In in Hx; destruct Hx as [_ Hx].
    apply negb_true_iff; exact Hx. }
  destruct (split_scheme u1) as [s r] eqn:Es.
  destruct (UrlParse.split_netloc check_bracketed_netloc r)
    as [[n r2]|] eqn:En; [|discriminate].
  destruct (cut "#" r2) as [r3 frag] eqn:Ef.
  destruct (cut "?" r3) as [r4 q] eqn:Eq.
  destruct (if mem s uses_params && has_chr ";" r4
            then splitparams r4 else (r4, [])) as [pth par] eqn:Epar.
  inversion Hp; subst parsed; clear Hp; simpl in Hs, Hn.
  unfold canonical_of at 2 3; cbn [scheme netloc path].
  (* the scheme *)
  unfold split_scheme in Es.
  destruct (partition ":" u1) as [[pre rest]|] eqn:Ec;
    [|inversion Es; subst; congruence].
  destruct (nonempty pre && first_alpha pre && forallb scheme_char pre)
    eqn:Econd; inversion Es; subst s r; clear Es; [|congruence].
  apply andb_true_iff in Econd; destruct Econd as [Econd Hsch].
  apply andb_true_iff in Econd; destruct Econd as [_ Halpha].
  destruct (partition_Some _ _ _ _ Ec) as [Hu1eq _].
  (* the network location *)
  unfold split_netloc in En.
  destruct (startswith (py "//") rest) eqn:Eslashes;
    [|inversion En; subst; congruence].
  destruct (startswith_slashes _ Eslashes) as [r' ->]; cbn [skipn] in En.
  destruct (break netloc_delim r') as [n' r2'] eqn:Eb.
  destruct (netloc_valid n') eqn:Ev; inversion En; subst n' r2'; clear En.
  destruct (break_spec _ _ _ _ Eb) as (-> & Hnd & Hr2).
  (* the path *)
  destruct (cut_spec _ _ _ _ Ef) as [Hfrag [t3 ->]].
  destruct (cut_spec _ _ _ _ Eq) as [Hquery [t4 ->]].
  assert (Hpre : exists t, r4 = pth ++ t).
  { destruct (mem (lower pre) uses_params && has_chr ";" r4).
    - destruct (splitparams_prefix r4) as [t Ht].
      rewrite Epar in Ht; exists t; exact Ht.
    - inversion Epar; subst; exists []; rewrite app_nil_r; reflexivity. }
  destruct Hpre as [t5 ->].
  rewrite (canonical_parses (lower pre) n pth); [reflexivity | ..].
  - destruct pre as [|c pre]; [discriminate|].
    simpl in *; apply chr_lower_alpha; exact Halpha.
  - unfold lower; rewrite forallb_forall; intros x Hx.
    apply in_map_iff in Hx; destruct Hx as (y & <- & Hy).
    apply chr_lower_scheme_char.
    exact (proj1 (forallb_forall _ _) Hsch y Hy).
  - apply lower_idem.
  - intros x Hx; apply Hu1; rewrite Hu1eq.
    apply in_or_app; right; right; right; right.
    rewrite <- !app_assoc.
    apply in_app_or in Hx; destruct Hx as [Hx|Hx];
      apply in_or_app; [left; exact Hx | right].
    apply in_or_app; left; exact Hx.
  - exact Hnd.
  - exact Ev.
  - destruct pth as [|c pth]; [left; reflexivity | right].
    destruct Hr2 as [Hr2|(x & b' & Hr2 & Hx)]; [discriminate|].
    simpl in Hr2; inversion Hr2; subst x b'.
    destruct (netloc_delim_cases _ Hx) as [Hc | [Hc | Hc]]; subst c.
    + exists pth; reflexivity.
    + exfalso; apply Hquery; left; reflexivity.
    + exfalso; apply Hfrag; apply in_or_app; left; left; reflexivity.
  - intros Hin; apply Hfrag; apply in_or_app; left.
    apply in_or_app; left; exact Hin.
  - intros Hin; apply Hquery; apply in_or_app; left; exact Hin.
  - intros Hmem Hsemi.
    destruct (mem (lower pre) uses_params && has_chr ";" (pth ++ t5))
      eqn:Econd.
    + assert (Hfst : pth = fst (splitparams (pth ++ t5)))
        by (rewrite Epar; reflexivity).
      rewrite Hfst; apply splitparams_stable; rewrite <- Hfst; exact Hsemi.
    + exfalso.
      rewrite Hmem in Econd; simpl in Econd.
      apply has_chr_false in Econd; apply Econd.
      apply in_or_app; left; exact Hsemi.
Qed.

End UrlProperties.

(** *** Canonical forms on examples *)

Example canonicalize_drops_query_and_fragment :
  UrlParse.canonicalize UrlParse.no_bracket_check
    (py "HTTPS://online.auctionhouse.co.uk/lot/details/101;v=2?ref=nat#photos")
  = Some (py "https://online.auctionhouse.co.uk/lot/details/101").
Proof. vm_compute; reflexivity. Qed.

(** C9, as stated, fails: a URL without a scheme gets the canonical form
    [://host/path], whose own canonical form is [://://host/path]. *)
Lemma C9_scheme_less_not_idempotent :
  ~ (forall u c : str,
       UrlParse.canonicalize UrlParse.no_bracket_check u = Some c ->
       UrlParse.canonicalize UrlParse.no_bracket_check c = Some c).
Proof.
  intros H.
  specialize (H (py "//online.auctionhouse.co.uk/lot/details/101")
                (py "://online.auctionhouse.co.uk/lot/details/101")
                ltac:(vm_compute; reflexivity)).
  vm_compute in H; discriminate.
Qed.

Lemma C9_canonicalize_idempotent_witness :
  UrlParse.canonicalize UrlParse.no_bracket_check
    (py "https://online.auctionhouse.co.uk/lot/details/101")
  = Some (py "https://online.auctionhouse.co.uk/lot/details/101").
Proof.
  apply (C9_canonicalize_idempotent UrlParse.no_bracket_check
           (py "https://online.auctionhouse.co.uk/lot/details/101?ref=nat#top")
           (py "https://online.auctionhouse.co.uk/lot/details/101")
           (UrlParse.mkParseResult (py "https")
              (py "online.auctionhouse.co.uk") (py "/lot/details/101")
              [] (py "ref=nat") (py "top")));
    vm_compute; try reflexivity; discriminate.
Defined.

(** ** Landing-page link discovery *)

Lemma first_occurrences_In (x : str) (l : list str) :
  In x (Spec.first_occurrences l) <-> In x l.
Proof.
  induction l as [|y l IH]; simpl; [tauto|].
  rewrite filter_In, IH, negb_true_iff.
  destruct (str_eqb x y) eqn:E.
  - apply str_eqb_eq in E; subst; intuition congruence.
  - assert (x <> y) by (intros ->; rewrite str_eqb_refl in E; discriminate).
    intuition congruence.
Qed.

Lemma first_occurrences_NoDup (l : list str) :
  NoDup (Spec.first_occurrences l).
Proof.
  induction l as [|y l IH]; simpl; constructor.
  - rewrite filter_In, str_eqb_refl; intros [_ H]; discriminate.
  - apply NoDup_filter; exact IH.
Qed.

Section LinkProperties.

Variable check_bracketed_netloc : str -> bool.
Variable BeautifulSoup : str -> Soup.
Variable urljoin : str -> str -> option str.

Local Abbreviation find_loop :=
  (National.find_loop check_bracketed_netloc urljoin).
Local Abbreviation find_lot_links :=
  (National.find_lot_links check_bracketed_netloc BeautifulSoup urljoin).
Local Abbreviation canonical_link :=
  (Spec.canonical_link check_bracketed_netloc urljoin).
Local Abbreviation resolves := (Spec.resolves check_bracketed_netloc urljoin).
Local Abbreviation refused := (Spec.refused check_bracketed_netloc urljoin).
Local Abbreviation discover_from_page :=
  (Spec.discover_from_page check_bracketed_netloc urljoin).

(** The candidates of a page, one per anchor kept, with repetitions. *)
Local Abbreviation candidates base_url hrefs :=
  (flat_map
     (fun h => match canonical_link base_url h with
               | Some c => [c]
               | None => []
               end)
     hrefs).

Local Abbreviation unseen seen l :=
  (filter (fun y => negb (mem y seen)) (Spec.first_occurrences l)).

Lemma unseen_cons (seen : list str) (c : str) (l : list str) :
  unseen seen (c :: l)
  = if mem c seen then unseen seen l else c :: unseen (c :: seen) l.
Proof.
  simpl; destruct (mem c seen) eqn:E; simpl.
  - induction (Spec.first_occurrences l) as [|y f IH]; simpl; [reflexivity|].
    destruct (str_eqb y c) eqn:Ey; simpl.
    + apply str_eqb_eq in Ey; subst y; rewrite E; simpl; exact IH.
    + destruct (mem y seen); simpl; rewrite IH; reflexivity.
  - f_equal.
    induction (Spec.first_occurrences l) as [|y f IH]; simpl; [reflexivity|].
    destruct (str_eqb y c) eqn:Ey; simpl; [exact IH|].
    destruct (mem y seen); simpl; rewrite IH; reflexivity.
Qed.

Lemma find_loop_spec (base_url : str) (hrefs : list str) :
  Forall (resolves base_url) hrefs ->
  forall links seen,
    find_loop hrefs base_url links seen
    = Ok (links ++ unseen seen (candidates base_url hrefs)).
Proof.
  induction 1 as [|h hrefs Hh Hrest IH]; intros links seen.
  - simpl; rewrite app_nil_r; reflexivity.
  - cbn [National.find_loop flat_map].
    unfold Spec.canonical_link, Spec.resolves in *.
    destruct (contains LOT_PATH_MARKER (strip h)) eqn:Em; cbn [negb].
    + destruct (Hh eq_refl) as (absolute & parsed & -> & ->).
      destruct (contains LOT_HOST (UrlParse.netloc parsed)); cbn [negb app].
      * rewrite unseen_cons.
        destruct (mem (UrlParse.canonical_of parsed) seen); cbn [negb].
        -- apply IH.
        -- rewrite IH, <- app_assoc; reflexivity.
      * apply IH.
    + apply IH.
Qed.

(** An anchor that cannot be resolved or parsed ends discovery with
    [ValueError], unless an earlier one already did. *)
Lemma find_loop_unresolved (base_url h : str) (hrefs links seen : list str) :
  ~ resolves base_url h ->
  find_loop (h :: hrefs) base_url links seen = Raise ValueError.
Proof.
  intros Hn; cbn [National.find_loop].
  unfold Spec.resolves in Hn.
  destruct (contains LOT_PATH_MARKER (strip h)) eqn:Em; cbn [negb].
  - destruct (urljoin base_url (strip h)) as [absolute|] eqn:Ej;
      [|reflexivity].
    destruct (UrlParse.urlparse check_bracketed_netloc absolute)
      as [parsed|] eqn:Ep; [|reflexivity].
    exfalso; apply Hn; intros _; exists absolute, parsed; split;
      [reflexivity | exact Ep].
  - exfalso; apply Hn; intros H; discriminate.
Qed.

Lemma refused_resolves (base_url h : str) :
  refused base_url h = false <-> resolves base_url h.
Proof.
  unfold Spec.refused, Spec.resolves.
  destruct (contains LOT_PATH_MARKER (strip h)); cbn [andb].
  - destruct (urljoin base_url (strip h)) as [absolute|].
    + destruct (UrlParse.urlparse check_bracketed_netloc absolute)
        as [parsed|] eqn:Ep.
      * split; [|reflexivity].
        intros _ _; exists absolute, parsed; split; [reflexivity | exact Ep].
      * split; [discriminate|].
        intros H; destruct (H eq_refl) as (a & p & Ha & Hp).
        inversion Ha; subst; congruence.
    + split; [discriminate|].
      intros H; destruct (H eq_refl) as (a & p & Ha & _); discriminate.
  - split; [intros _ H; discriminate | reflexivity].
Qed.

Lemma none_refused (base_url : str) (hrefs : list str) :
  existsb (refused base_url) hrefs = false ->
  Forall (resolves base_url) hrefs.
Proof.
  induction hrefs as [|h hrefs IH]; simpl; [constructor|].
  rewrite orb_false_iff; intros [Hh Hrest]; constructor;
    [apply refused_resolves; exact Hh | exact (IH Hrest)].
Qed.

(** The loop raises at the first anchor that is refused, whatever it has
    gathered by then. *)
Lemma find_loop_refused (base_url : str) (hrefs : list str) :
  existsb (refused base_url) hrefs = true ->
  forall links seen,
    find_loop hrefs base_url links seen = Raise ValueError.
Proof.
  induction hrefs as [|h hrefs IH]; simpl existsb; [discriminate|].
  destruct (refused base_url h) eqn:Er; cbn [orb]; intros Hrest links seen.
  - apply find_loop_unresolved; intros Hres.
    apply refused_resolves in Hres; congruence.
  - cbn [National.find_loop]; unfold Spec.refused in Er.
    destruct (contains LOT_PATH_MARKER (strip h)); cbn [negb andb] in *;
      [|exact (IH Hrest _ _)].
    destruct (urljoin base_url (strip h)) as [absolute|]; [|discriminate].
    destruct (UrlParse.urlparse check_bracketed_netloc absolute)
      as [parsed|]; [|discriminate].
    destruct (negb (contains LOT_HOST (UrlParse.netloc parsed)));
      [exact (IH Hrest _ _)|].
    destruct (negb (mem (UrlParse.canonical_of parsed) seen));
      exact (IH Hrest _ _).
Qed.


End LinkProperties.

(** ** The merge of the two extraction layers *)

Lemma field_eqb_eq (a b : Field) : field_eqb a b = true <-> a = b.
Proof. destruct a, b; simpl; split; congruence. Qed.

Lemma field_eqb_refl (a : Field) : field_eqb a a = true.
Proof. destruct a; reflexivity. Qed.

Lemma field_eqb_neq (a b : Field) : a <> b -> field_eqb a b = false.
Proof.
  intros H; destruct (field_eqb a b) eqn:E; [|reflexivity].
  apply field_eqb_eq in E; contradiction.
Qed.

Lemma dict_get_set_same (d : details) (k : Field) (v : str) :
  dict_get (dict_set d k v) k = Some v.
Proof.
  induction d as [|[k' v'] d IH]; simpl.
  - rewrite field_eqb_refl; reflexivity.
  - destruct (field_eqb k' k) eqn:E; simpl.
    + rewrite field_eqb_refl; reflexivity.
    + rewrite E; exact IH.
Qed.

Lemma dict_get_set_other (d : details) (k k' : Field) (v : str) :
  k <> k' -> dict_get (dict_set d k v) k' = dict_get d k'.
Proof.
  intros Hne; induction d as [|[k0 v0] d IH]; simpl.
  - rewrite (field_eqb_neq _ _ Hne); reflexivity.
  - destruct (field_eqb k0 k) eqn:E; simpl.
    + apply field_eqb_eq in E; subst k0.
      rewrite (field_eqb_neq _ _ Hne); reflexivity.
    + destruct (field_eqb k0 k'); [reflexivity | exact IH].
Qed.

Lemma dict_get_absent (d : details) (k : Field) :
  ~ In k (map fst d) -> dict_get d k = None.
Proof.
  induction d as [|[k' v'] d IH]; simpl; intros H; [reflexivity|].
  rewrite field_eqb_neq by (intros ->; apply H; left; reflexivity).
  apply IH; intros Hin; apply H; right; exact Hin.
Qed.

Lemma dict_set_keys (d : details) (k k' : Field) (v : str) :
  In k' (map fst (dict_set d k v)) <-> k' = k \/ In k' (map fst d).
Proof.
  induction d as [|[k0 v0] d IH]; simpl; [intuition congruence|].
  destruct (field_eqb k0 k) eqn:E; simpl.
  - apply field_eqb_eq in E; subst; intuition congruence.
  - rewrite IH; intuition congruence.
Qed.

Lemma dict_set_NoDup (d : details) (k : Field) (v : str) :
  NoDup (map fst d) -> NoDup (map fst (dict_set d k v)).
Proof.
  induction d as [|[k0 v0] d IH]; simpl; intros H.
  - constructor; [intros [] | constructor].
  - inversion H as [|? ? Hk0 Hd]; subst.
    destruct (field_eqb k0 k) eqn:E; simpl.
    + apply field_eqb_eq in E; subst; constructor; assumption.
    + constructor; [|apply IH; exact Hd].
      rewrite dict_set_keys; intros [->|Hin]; [|exact (Hk0 Hin)].
      rewrite field_eqb_refl in E; discriminate.
Qed.

Lemma extracted_nil : Spec.extracted [].
Proof. split; [constructor | intros []]. Qed.

Lemma extracted_set (d : details) (k : Field) (v : str) :
  k <> Url -> Spec.extracted d -> Spec.extracted (dict_set d k v).
Proof.
  intros Hk [Hn Hu]; split; [apply dict_set_NoDup; exact Hn|].
  rewrite dict_set_keys; intros [H|H]; [congruence | exact (Hu H)].
Qed.

Section MergeProperties.

Variable BeautifulSoup : str -> Soup.
Variable re_search : str -> str -> option str.
Variable repr_container : json -> str.

Local Abbreviation set_from := (National.set_from repr_container).
Local Abbreviation _extract_from_json_ld :=
  (National._extract_from_json_ld repr_container).
Local Abbreviation _extract_from_html :=
  (National._extract_from_html re_search).
Local Abbreviation parse_lot_page :=
  (National.parse_lot_page BeautifulSoup re_search repr_container).

Lemma extracted_set_from (p : list (str * json)) (key : str) (f : Field)
    (unless_set : bool) (d : details) :
  f <> Url -> Spec.extracted d ->
  Spec.extracted (set_from p key f unless_set d).
Proof.
  intros Hf Hd; unfold National.set_from.
  destruct (National.get_truthy p key); [|exact Hd].
  destruct (unless_set && dict_has d f); [exact Hd|].
  apply extracted_set; assumption.
Qed.

Lemma extracted_json_ld (payloads : list (list (str * json))) :
  Spec.extracted (_extract_from_json_ld payloads).
Proof.
  unfold National._extract_from_json_ld.
  destruct (filter National.is_candidate payloads) as [|primary rest];
    [apply extracted_nil|].
  destruct primary as [|m primary]; [apply extracted_nil|].
  cbv zeta.
  repeat match goal with
         | |- Spec.extracted (National.set_from _ _ _ _ _ _) =>
             apply extracted_set_from; [discriminate|]
         | |- Spec.extracted (dict_set _ _ _) =>
             apply extracted_set; [discriminate|]
         | |- Spec.extracted [] => apply extracted_nil
         | |- Spec.extracted (match ?x with _ => _ end) => destruct x
         end.
Qed.

Lemma extracted_html (soup : Soup) : Spec.extracted (_extract_from_html soup).
Proof.
  unfold National._extract_from_html.
  repeat match goal with
         | |- Spec.extracted (if ?c then _ else _) => destruct c
         | |- Spec.extracted (match ?o with Some _ => _ | None => _ end) =>
             destruct o
         | |- Spec.extracted (dict_set _ _ _) =>
             apply extracted_set; [discriminate|]
         | |- Spec.extracted [] => apply extracted_nil
         end.
Qed.

Lemma update_nonempty_get (structured : details) :
  NoDup (map fst structured) ->
  forall d f,
    dict_get (National.update_nonempty d structured) f
    = match dict_get structured f with
      | Some v => if nonempty v then Some v else dict_get d f
      | None => dict_get d f
      end.
Proof.
  unfold National.update_nonempty.
  induction structured as [|[k v] s IH]; intros Hn d f; [reflexivity|].
  inversion Hn as [|? ? Hk Hs]; subst.
  cbn [fold_left fst snd dict_get].
  rewrite (IH Hs).
  destruct (field_eqb k f) eqn:E.
  - apply field_eqb_eq in E; subst f.
    rewrite (dict_get_absent s k Hk).
    destruct (nonempty v); [apply dict_get_set_same | reflexivity].
  - assert (Hne : k <> f)
      by (intros ->; rewrite field_eqb_refl in E; discriminate).
    destruct (nonempty v); [|reflexivity].
    rewrite (dict_get_set_other d k f v Hne); reflexivity.
Qed.

Lemma fill_gaps_get (fallbacks : details) :
  NoDup (map fst fallbacks) ->
  forall d f,
    dict_get (National.fill_gaps d fallbacks) f
    = if truthy (dict_get d f) then dict_get d f
      else match dict_get fallbacks f with
           | Some v => if nonempty v then Some v else dict_get d f
           | None => dict_get d f
           end.
Proof.
  unfold National.fill_gaps.
  induction fallbacks as [|[k v] s IH]; intros Hn d f.
  - simpl; destruct (truthy (dict_get d f)); reflexivity.
  - inversion Hn as [|? ? Hk Hs]; subst.
    cbn [fold_left fst snd dict_get].
    rewrite (IH Hs).
    destruct (field_eqb k f) eqn:E.
    + apply field_eqb_eq in E; subst f.
      rewrite (dict_get_absent s k Hk).
      destruct (truthy (dict_get d k)) eqn:Et; rewrite ?andb_false_r;
        cbn [negb].
      * rewrite Et; reflexivity.
      * rewrite andb_true_r.
        destruct (nonempty v) eqn:Ev.
        -- rewrite dict_get_set_same; cbn [truthy]; rewrite Ev; reflexivity.
        -- rewrite Et; reflexivity.
    + assert (Hne : k <> f)
        by (intros ->; rewrite field_eqb_refl in E; discriminate).
      destruct (nonempty v && negb (truthy (dict_get d k)));
        [rewrite (dict_get_set_other d k f v Hne)|]; reflexivity.
Qed.

(** The merge on two maps as the extractors build them. *)
Lemma merge_get (url : str) (structured heuristic : details) (f : Field) :
  Spec.extracted structured -> Spec.extracted heuristic ->
  dict_get (National.merge url structured heuristic) f
  = match f with
    | Url => Some url
    | _ => Spec.merged_value structured heuristic f
    end.
Proof.
  intros [Hs Hsu] [Hh Hhu]; unfold National.merge, Spec.merged_value.
  rewrite (fill_gaps_get _ Hh), (update_nonempty_get _ Hs).
  destruct (field_eqb f Url) eqn:E.
  - apply field_eqb_eq in E; subst f.
    rewrite (dict_get_absent _ _ Hsu), (dict_get_absent _ _ Hhu); simpl.
    destruct (nonempty url); reflexivity.
  - assert (Hd : dict_get [(Url, url)] f = None).
    { cbn [dict_get]; rewrite (field_eqb_neq Url f); [reflexivity|].
      intros <-; discriminate. }
    rewrite Hd.
    transitivity (if truthy (dict_get structured f)
                  then dict_get structured f
                  else if truthy (dict_get heuristic f)
                       then dict_get heuristic f
                       else None);
      [|destruct f; try reflexivity; discriminate].
    destruct (dict_get structured f) as [a|];
      destruct (dict_get heuristic f) as [b|]; cbn [truthy];
      try destruct (nonempty a) eqn:Ea; try destruct (nonempty b) eqn:Eb;
      cbn [truthy]; rewrite ?Ea, ?Eb; reflexivity.
Qed.

(** C5, amended: for each of the six extracted fields the merged record
    holds the structured value when that is present and non-empty, else
    the heuristic value when that is present and non-empty, else nothing;
    the seventh field, [url], always holds the URL handed to the parser. *)
Theorem C5_merged_fields (html url : str) (f : Field) :
  let soup := BeautifulSoup html in
  let structured := _extract_from_json_ld (National._load_json_ld soup) in
  let heuristic := _extract_from_html soup in
  dict_get (parse_lot_page html url) f
  = match f with
    | Url => Some url
    | _ => Spec.merged_value structured heuristic f
    end.
Proof.
  intros soup structured heuristic; unfold National.parse_lot_page.
  apply merge_get; [apply extracted_json_ld | apply extracted_html].
Qed.

End MergeProperties.

(** The page with the payload and the text "Lot 42". *)
Example parse_offer_page :
  Scenario.parse_lot_page Scenario.offer_html (py "u")
  = [(Url, py "u"); (GuidePrice, py "120000"); (Status, py "InStock");
     (LotNumber, py "42")].
Proof. vm_compute; reflexivity. Qed.

(** C5, as stated, fails on the seventh field: neither layer has a [url],
    yet the merged record has one. *)
Lemma C5_url_is_not_merged :
  ~ (forall (html url : str) (f : Field),
       let soup := Scenario.BeautifulSoup html in
       dict_get (Scenario.parse_lot_page html url) f
       = Spec.merged_value
           (National._extract_from_json_ld Scenario.repr_container
              (National._load_json_ld soup))
           (National._extract_from_html Scenario.re_search soup) f).
Proof.
  intros H.
  specialize (H Scenario.offer_html Scenario.lot_101_url Url).
  vm_compute in H; discriminate.
Qed.

(** ** What the pipelines export *)

Section ExportProperties.

Variable check_bracketed_netloc : str -> bool.
Variable W : Type.
Variable session_get : W -> str -> W * result request_error Response.
Variable fromstring : str -> option Element.
Variable extract_title : str -> option str.
Variable extract_address : str -> option str.
Variable extract_guide_price : str -> option str.
Variable extract_status : str -> option str.
Variable extract_auction_date : str -> option str.
Variable extract_lot_number : str -> option str.
Variable BeautifulSoup : str -> Soup.
Variable urljoin : str -> str -> option str.
Variable re_search : str -> str -> option str.
Variable repr_container : json -> str.

Local Abbreviation fetch_text3 :=
  (fun w u => Fetch.fetch_text W session_get w u 3).
Local Abbreviation fetch_content := (Fetch.fetch_content W session_get).
Local Abbreviation parse_property_page :=
  (Pipeline.parse_property_page extract_title extract_address
     extract_guide_price extract_status extract_auction_date
     extract_lot_number).
Local Abbreviation scrape :=
  (Pipeline.scrape W session_get extract_title extract_address
     extract_guide_price extract_status extract_auction_date
     extract_lot_number).
Local Abbreviation run :=
  (Pipeline.run check_bracketed_netloc W session_get fromstring
     extract_title extract_address extract_guide_price extract_status
     extract_auction_date extract_lot_number).
Local Abbreviation iter_sitemap_property_urls :=
  (Sitemap.iter_sitemap_property_urls check_bracketed_netloc W session_get
     fromstring).
Local Abbreviation parse_lot_page :=
  (National.parse_lot_page BeautifulSoup re_search repr_container).
Local Abbreviation collect :=
  (National.collect W session_get BeautifulSoup re_search repr_container).
Local Abbreviation find_lot_links :=
  (National.find_lot_links check_bracketed_netloc BeautifulSoup urljoin).
Local Abbreviation scrape_national_lots :=
  (National.scrape_national_lots check_bracketed_netloc W session_get
     BeautifulSoup urljoin re_search repr_container).

(** The record of a fetched property page, the row of a fetched lot page. *)
Local Abbreviation record_of_page :=
  (fun p : str * str => parse_property_page (snd p) (fst p)).
Local Abbreviation row_of_page :=
  (fun p : str * str => parse_lot_page (snd p) (fst p)).

Lemma scrape_spec (include_sold : bool) (urls : list str) :
  forall w kept,
    snd (scrape include_sold w urls kept)
    = kept
      ++ filter (fun r => include_sold || is_for_sale r)
           (map record_of_page (Spec.pages_fetched fetch_text3 w urls)).
Proof.
  induction urls as [|u urls IH]; intros w kept; simpl.
  - rewrite app_nil_r; reflexivity.
  - destruct (Fetch.fetch_text W session_get w u 3) as [w1 [html|e]];
      simpl; [|apply IH].
    destruct (include_sold || is_for_sale (parse_property_page html u));
      rewrite IH; [rewrite <- app_assoc|]; reflexivity.
Qed.

Lemma collect_spec (lot_urls : list str) :
  forall w rows,
    snd (collect w lot_urls rows)
    = rows ++ map row_of_page (Spec.pages_fetched fetch_content w lot_urls).
Proof.
  induction lot_urls as [|u urls IH]; intros w rows; simpl.
  - rewrite app_nil_r; reflexivity.
  - destruct (Fetch.fetch_content W session_get w u) as [w1 [html|e]];
      simpl; [|apply IH].
    rewrite IH, <- app_assoc; reflexivity.
Qed.

(** C3, amended: a run of the sitemap pipeline that gets past discovery
    writes, under the header, one row for each page it fetched whose record
    passes the availability classifier, and one row for each page it
    fetched when unavailable ones are asked for; the landing-page pipeline
    has no classifier and no such option, and writes one row for each lot
    page it fetched. *)
Theorem C3_exported_rows :
  (forall (w : W) (args : Pipeline.Args),
      run w args
      = let c :=
          iter_sitemap_property_urls w args.(Pipeline.sitemap) 100 in
        match Sitemap.result_of W c with
        | Returned property_urls =>
            let pages :=
              Spec.pages_fetched fetch_text3 (Sitemap.world W c)
                (Pipeline.limited args.(Pipeline.limit) property_urls) in
            Some (Pipeline.mkRunEnd 0
                    (Some (Pipeline.write_csv
                             (filter
                                (fun r =>
                                   args.(Pipeline.include_sold)
                                   || is_for_sale r)
                                (map record_of_page pages)))))
        | Raised _ => Some (Pipeline.mkRunEnd 1 None)
        | OutOfFuel => None
        end)
  /\ (forall (w : W) (max_lots : option Z),
         scrape_national_lots w max_lots
         = let (w', r) := fetch_content w NATIONAL_URL in
           match r with
           | Raise e => Raise e
           | Ok national_html =>
               match find_lot_links national_html NATIONAL_URL with
               | Raise e => Raise e
               | Ok lot_urls =>
                   let pages :=
                     Spec.pages_fetched fetch_content w'
                       match max_lots with
                       | Some k => slice_to k lot_urls
                       | None => lot_urls
                       end in
                   Ok (map row_of_page pages,
                       National.write_csv (map row_of_page pages))
               end
           end).
Proof.
  split.
  - intros w args; unfold Pipeline.run; cbv zeta.
    destruct (Sitemap.result_of W
                (iter_sitemap_property_urls w (Pipeline.sitemap args) 100))
      as [property_urls|e|]; try reflexivity.
    pose proof (scrape_spec (Pipeline.include_sold args)
                  (Pipeline.limited (Pipeline.limit args) property_urls)
                  (Sitemap.world W
                     (iter_sitemap_property_urls w (Pipeline.sitemap args)
                        100))
                  []) as Hs.
    destruct (scrape (Pipeline.include_sold args)
                (Sitemap.world W
                   (iter_sitemap_property_urls w (Pipeline.sitemap args) 100))
                (Pipeline.limited (Pipeline.limit args) property_urls) [])
      as [w1 records].
    simpl in Hs; rewrite Hs; reflexivity.
  - intros w max_lots; unfold National.scrape_national_lots.
    destruct (Fetch.fetch_content W session_get w NATIONAL_URL)
      as [w' [national_html|e]]; [|reflexivity].
    destruct (find_lot_links national_html NATIONAL_URL) as [lot_urls|e];
      [|reflexivity].
    cbv zeta.
    pose proof (collect_spec
                  match max_lots with
                  | Some k => slice_to k lot_urls
                  | None => lot_urls
                  end w' []) as Hc.
    destruct (collect w'
                match max_lots with
                | Some k => slice_to k lot_urls
                | None => lot_urls
                end []) as [w1 rows].
    simpl in Hc; rewrite Hc; reflexivity.
Qed.

(** A traversal that raises makes [run] give up with exit code 1 and
    write nothing. *)
Lemma run_discovery_failed (w : W) (args : Pipeline.Args) (e : exn) :
  Sitemap.result_of W
    (iter_sitemap_property_urls w args.(Pipeline.sitemap) 100) = Raised e ->
  run w args = Some (Pipeline.mkRunEnd 1 None).
Proof.
  intros H; unfold Pipeline.run; rewrite H; reflexivity.
Qed.

End ExportProperties.

(** The landing page of the scenario: both lots are exported, the sold one
    too. *)
Example national_lots_exported :
  Scenario.scrape_national_lots None
  = Ok ([[(Url, Scenario.lot_101_url); (LotNumber, py "101");
          (GuidePrice, py "150,000"); (Status, py "Available");
          (Title, py "1 High Street")];
         [(Url, Scenario.lot_102_url); (LotNumber, py "102");
          (Status, py "Sold"); (Title, py "2 Mill Lane")]],
        [[py "lot_number"; py "title"; py "address"; py "guide_price";
          py "status"; py "auction_date"; py "url"];
         [py "101"; py "1 High Street"; []; py "150,000"; py "Available";
          []; Scenario.lot_101_url];
         [py "102"; py "2 Mill Lane"; []; []; py "Sold"; [];
          Scenario.lot_102_url]]).
Proof. vm_compute; reflexivity. Qed.

(** C3, as stated, fails for the landing-page pipeline: the lot whose
    status is "Sold" fails the availability classifier and is exported all
    the same, and there is no option to ask for it. *)
Lemma C3_sold_lot_exported :
  ~ (forall (max_lots : option Z) (rows : list details) (file : csv),
       Scenario.scrape_national_lots max_lots = Ok (rows, file) ->
       forall row,
         In row rows -> is_for_sale (Spec.record_of_row row) = true).
Proof.
  intros H.
  pose proof (H None _ _ national_lots_exported
                [(Url, Scenario.lot_102_url); (LotNumber, py "102");
                 (Status, py "Sold"); (Title, py "2 Mill Lane")]
                (or_intror (or_introl eq_refl))) as Hsold.
  vm_compute in Hsold; discriminate.
Qed.

(** *** Link discovery on the landing page of the scenario *)

Example landing_links :
  National.find_lot_links UrlParse.no_bracket_check Scenario.BeautifulSoup
    Scenario.urljoin Scenario.landing_html NATIONAL_URL
  = Ok [Scenario.lot_101_url; Scenario.lot_102_url].
Proof. vm_compute; reflexivity. Qed.

(** The hosts of the two look-alike links are not the lot host. *)
Example foreign_hosts :
  Spec.host_of (py "online.auctionhouse.co.uk.evil.example")
  = py "online.auctionhouse.co.uk.evil.example"
  /\ Spec.host_of (py "online.auctionhouse.co.uk@evil.example")
     = py "evil.example"
  /\ Spec.host_of (py "Online.AuctionHouse.co.uk:443")
     = py "online.auctionhouse.co.uk".
Proof. vm_compute; repeat split. Qed.


(** * Further properties of the code *)

(** ** The availability classifier, on flagged and on unknown status *)

Lemma is_for_sale_flagged (r : PropertyRecord) (flag : str) :
  In flag sold_flags ->
  contains flag (lower (or_empty r.(status))) = true ->
  is_for_sale r = false.
Proof.
  intros Hin Hc; unfold is_for_sale.
  assert (He : existsb
                 (fun flag => contains flag (lower (or_empty (status r))))
                 sold_flags = true)
    by (apply existsb_exists; exists flag; split; assumption).
  rewrite He, andb_true_r.
  destruct (lower (or_empty (status r))) as [|c s] eqn:El; [|reflexivity].
  exfalso.
  destruct Hin as [<-|[<-|[<-|[<-|[<-|[]]]]]]; vm_compute in Hc;
    discriminate.
Qed.

(** X1: a record whose status holds one of the five keywords, in any
    letter case, is not for sale, whether or not it has a guide price. *)
Theorem X1_flagged_status_not_for_sale (r : PropertyRecord) (flag : str) :
  In flag sold_flags ->
  contains flag (lower (or_empty r.(status))) = true ->
  is_for_sale r = false.
Proof. apply is_for_sale_flagged. Qed.

Lemma X1_flagged_status_witness : is_for_sale ScenarioX.sold_stc = false.
Proof.
  apply (X1_flagged_status_not_for_sale ScenarioX.sold_stc (py "sold"));
    [left; reflexivity | vm_compute; reflexivity].
Defined.

(** X2: a record whose status is absent or empty is for sale, with or
    without a guide price. *)
Theorem X2_unknown_status_for_sale (r : PropertyRecord) :
  truthy r.(status) = false -> is_for_sale r = true.
Proof.
  intros Hs; unfold is_for_sale.
  assert (He : lower (or_empty (status r)) = []).
  { destruct (status r) as [[|c s]|]; try reflexivity; discriminate. }
  rewrite He; simpl.
  destruct (truthy (guide_price r)); reflexivity.
Qed.

Lemma X2_unknown_status_witness : is_for_sale ScenarioX.bare_listing = true.
Proof.
  apply (X2_unknown_status_for_sale ScenarioX.bare_listing); reflexivity.
Defined.

(** ** The fetchers *)

Section FetchExtra.

Variable W : Type.
Variable session_get : W -> str -> W * result request_error Response.

Local Abbreviation attempt_once := (Fetch.attempt_once W session_get).
Local Abbreviation fetch_text := (Fetch.fetch_text W session_get).
Local Abbreviation fetch_content := (Fetch.fetch_content W session_get).
Local Abbreviation after_requests := (Spec.after_requests W session_get).
Local Abbreviation nth_attempt := (Spec.nth_attempt W session_get).


End FetchExtra.


(** ** Sitemap discovery: what is fetched, how much, and what ends it *)

Section SitemapExtra.

Variable check_bracketed_netloc : str -> bool.
Variable W : Type.
Variable session_get : W -> str -> W * result request_error Response.
Variable fromstring : str -> option Element.

Local Abbreviation enqueue_children := Sitemap.enqueue_children.
Local Abbreviation collect_properties :=
  (Sitemap.collect_properties check_bracketed_netloc).
Local Abbreviation crawl :=
  (Sitemap.crawl check_bracketed_netloc W session_get fromstring).
Local Abbreviation iter_sitemap_property_urls :=
  (Sitemap.iter_sitemap_property_urls check_bracketed_netloc W session_get
     fromstring).
Local Abbreviation mkCrawl := (Sitemap.mkCrawl W).
Local Abbreviation fetched := (Sitemap.fetched W).
Local Abbreviation result_of := (Sitemap.result_of W).
Local Abbreviation named_by_index := (SpecX.named_by_index fromstring).
Local Abbreviation refused_loc :=
  (SpecX.refused_loc check_bracketed_netloc).
Local Abbreviation ends_discovery :=
  (SpecX.ends_discovery check_bracketed_netloc fromstring).
Local Abbreviation passes :=
  (SpecX.passes check_bracketed_netloc fromstring).

(** Induction along the loop as in [crawl_inv], with the call of
    [fetch_text] that failed at hand. *)
Lemma crawl_inv_fetch (max_nested : Z)
    (I : nat -> list str -> list str -> list str -> trace -> Prop)
    (Q : Sitemap.Crawl W -> Prop) :
  (forall w tv v P T, I 0 tv v P T -> Q (mkCrawl w T OutOfFuel)) ->
  (forall n w v P T,
      I (S n) [] v P T -> Q (mkCrawl w T (Returned (sorted P)))) ->
  (forall n cur tv v P T,
      I (S n) (cur :: tv) v P T -> mem cur v = true -> I n tv v P T) ->
  (forall n w w1 cur tv v P T e,
      I (S n) (cur :: tv) v P T -> mem cur v = false ->
      Fetch.fetch_text W session_get w cur 3 = (w1, Raise e) ->
      Q (mkCrawl w1 ((cur, Raise e) :: T) (Raised e))) ->
  (forall n cur tv v P T body,
      I (S n) (cur :: tv) v P T -> mem cur v = false ->
      fromstring body = None ->
      I n tv (cur :: v) P ((cur, Ok body) :: T)) ->
  (forall n cur tv v P T body root,
      I (S n) (cur :: tv) v P T -> mem cur v = false ->
      fromstring body = Some root ->
      endswith (py "sitemapindex") (lower root.(tag)) = true ->
      I n (enqueue_children (cur :: v) max_nested root.(locs) tv)
        (cur :: v) P ((cur, Ok body) :: T)) ->
  (forall n w cur tv v P T body root e,
      I (S n) (cur :: tv) v P T -> mem cur v = false ->
      fromstring body = Some root ->
      endswith (py "sitemapindex") (lower root.(tag)) = false ->
      collect_properties root.(locs) P = Raise e ->
      Q (mkCrawl w ((cur, Ok body) :: T) (Raised e))) ->
  (forall n cur tv v P T body root P',
      I (S n) (cur :: tv) v P T -> mem cur v = false ->
      fromstring body = Some root ->
      endswith (py "sitemapindex") (lower root.(tag)) = false ->
      collect_properties root.(locs) P = Ok P' ->
      I n tv (cur :: v) P' ((cur, Ok body) :: T)) ->
  forall fuel w tv v P T,
    I fuel tv v P T -> Q (crawl fuel max_nested w tv v P T).
Proof.
  intros Hfuel Hdone Hseen Hfail Hbad Hindex Hraise Hleaf.
  induction fuel as [|n IH]; intros w tv v P T HI; simpl.
  - eapply Hfuel; exact HI.
  - destruct tv as [|cur tv]; [eapply Hdone; exact HI|].
    destruct (mem cur v) eqn:Ev; [apply IH; eapply Hseen; eassumption|].
    destruct (Fetch.fetch_text W session_get w cur 3) as [w1 [body|e]]
      eqn:Ef; [|eapply Hfail; eassumption].
    destruct (fromstring body) as [root|] eqn:Ep;
      [|apply IH; eapply Hbad; eassumption].
    destruct (endswith (py "sitemapindex") (lower (tag root))) eqn:Et;
      [apply IH; eapply Hindex; eassumption|].
    destruct (collect_properties (locs root) P) as [P'|e] eqn:Ec;
      [apply IH; eapply Hleaf; eassumption | eapply Hraise; eassumption].
Qed.

(** *** The cap on the number of documents *)

Lemma crawl_fetched_bound (max_nested : Z) (m : nat) :
  (max_nested <= Z.of_nat m)%Z ->
  forall fuel w tv v P T,
    length T <= length v ->
    length v + length tv <= m ->
    length (fetched (crawl fuel max_nested w tv v P T)) <= m.
Proof.
  intros Hmax fuel w tv v P T HT Hb.
  apply (crawl_inv check_bracketed_netloc W session_get fromstring
           max_nested
           (fun _ tv0 v0 _ T0 =>
              length T0 <= length v0 /\ length v0 + length tv0 <= m)
           (fun c => length (fetched c) <= m));
    try (split; assumption); simpl.
  - intros w0 tv0 v0 P0 T0 [H1 H2]; lia.
  - intros n w0 v0 P0 T0 [H1 H2]; lia.
  - intros n cur tv0 v0 P0 T0 [H1 H2] Hm; simpl in *; lia.
  - intros n w0 cur tv0 v0 P0 T0 e [H1 H2] Hm; simpl in *; lia.
  - intros n cur tv0 v0 P0 T0 body [H1 H2] Hm Hp; simpl in *; lia.
  - intros n cur tv0 v0 P0 T0 body root [H1 H2] Hm Hp Ht.
    split; [simpl in *; lia|].
    change (length (cur :: v0)
            + length (enqueue_children (cur :: v0) max_nested (locs root) tv0)
            <= m).
    apply (enqueue_children_bound max_nested m); [exact Hmax|].
    simpl in *; lia.
  - intros n w0 cur tv0 v0 P0 T0 body root e [H1 H2] Hm Hp Ht Hc.
    simpl in *; lia.
  - intros n cur tv0 v0 P0 T0 body root P' [H1 H2] Hm Hp Ht Hc.
    simpl in *; lia.
Qed.

(** X5: a traversal fetches at most [max(1, max_nested)] sitemap documents:
    the root, and children only while the documents seen and pending stay
    under [max_nested]. *)
Theorem X5_fetched_documents_capped (w : W) (root_sitemap : str)
    (max_nested : Z) :
  (Z.of_nat
     (length (fetched (iter_sitemap_property_urls w root_sitemap max_nested)))
   <= Z.max 1 max_nested)%Z.
Proof.
  unfold Sitemap.iter_sitemap_property_urls.
  pose proof (crawl_fetched_bound max_nested
                (Z.to_nat (Z.max 1 max_nested)) ltac:(lia)
                (Sitemap.enough_fuel max_nested) w [root_sitemap] [] [] []
                ltac:(simpl; lia) ltac:(simpl; lia)) as H.
  lia.
Qed.

(** *** What ends a traversal *)

Lemma collect_properties_raises (locs : list (option str)) :
  forall P e, collect_properties locs P = Raise e -> e = ValueError.
Proof.
  induction locs as [|loc locs IH]; intros P e H; simpl in H;
    [discriminate|].
  destruct (negb (nonempty (strip (or_empty loc)))); [exact (IH _ _ H)|].
  unfold Sitemap.looks_like_property_url in H.
  destruct (UrlParse.urlparse check_bracketed_netloc (strip (or_empty loc)))
    as [parsed|]; [|inversion H; reflexivity].
  cbv beta iota in H.
  destruct (contains (py "/property/") (lower (UrlParse.path parsed))
            || contains (py "/properties/") (lower (UrlParse.path parsed)));
    exact (IH _ _ H).
Qed.

Lemma fetch_text_raises (w w1 : W) (u : str) (e : exn) :
  Fetch.fetch_text W session_get w u 3 = (w1, Raise e) ->
  exists last, e = RuntimeError u (Some last).
Proof.
  intros H.
  destruct (fetch_text_spec W session_get w u 3 ltac:(lia))
    as (k & _ & _ & _ & He).
  rewrite H in He; simpl in He.
  destruct He as (_ & last & _ & ->); exists last; reflexivity.
Qed.

(** The loop over a leaf raises at a [loc] that [urlparse] refuses. *)
Lemma collect_properties_refused (locs : list (option str)) :
  forall P e,
    collect_properties locs P = Raise e ->
    e = ValueError
    /\ exists loc,
         In loc locs
         /\ nonempty (strip (or_empty loc)) = true
         /\ UrlParse.urlparse check_bracketed_netloc (strip (or_empty loc))
            = None.
Proof.
  induction locs as [|loc locs IH]; intros P e H; simpl in H;
    [discriminate|].
  assert (Hrest : forall P0,
             collect_properties locs P0 = Raise e ->
             e = ValueError
             /\ exists l,
                  In l (loc :: locs)
                  /\ nonempty (strip (or_empty l)) = true
                  /\ UrlParse.urlparse check_bracketed_netloc
                       (strip (or_empty l)) = None).
  { intros P0 H0; destruct (IH _ _ H0) as (He & l & Hl & Hne & Hp).
    split; [exact He|]; exists l; split; [right; exact Hl|].
    split; [exact Hne | exact Hp]. }
  destruct (nonempty (strip (or_empty loc))) eqn:En; cbn [negb] in H;
    [|exact (Hrest _ H)].
  unfold Sitemap.looks_like_property_url in H.
  destruct (UrlParse.urlparse check_bracketed_netloc (strip (or_empty loc)))
    as [parsed|] eqn:Ep.
  - cbv beta iota in H.
    destruct (contains (py "/property/") (lower (UrlParse.path parsed))
              || contains (py "/properties/")
                   (lower (UrlParse.path parsed)));
      exact (Hrest _ H).
  - inversion H; split; [reflexivity|].
    exists loc; split; [left; reflexivity|]; split; [exact En | exact Ep].
Qed.

(** The loop over a leaf gets through when [urlparse] takes every [loc]. *)
Lemma collect_properties_accepts (locs : list (option str)) :
  forall P P',
    collect_properties locs P = Ok P' ->
    forall loc,
      In loc locs -> nonempty (strip (or_empty loc)) = true ->
      UrlParse.urlparse check_bracketed_netloc (strip (or_empty loc))
      <> None.
Proof.
  induction locs as [|l locs IH]; intros P P' H loc Hin Hne; [destruct Hin|].
  simpl in H.
  destruct (nonempty (strip (or_empty l))) eqn:En; cbn [negb] in H.
  - unfold Sitemap.looks_like_property_url in H.
    destruct (UrlParse.urlparse check_bracketed_netloc (strip (or_empty l)))
      as [parsed|] eqn:Ep; [|discriminate].
    cbv beta iota in H.
    destruct Hin as [<-|Hin]; [rewrite Ep; discriminate|].
    destruct (contains (py "/property/") (lower (UrlParse.path parsed))
              || contains (py "/properties/")
                   (lower (UrlParse.path parsed)));
      exact (IH _ _ H loc Hin Hne).
  - destruct Hin as [<-|Hin]; [congruence|].
    exact (IH _ _ H loc Hin Hne).
Qed.

Lemma crawl_outcome (fuel : nat) (max_nested : Z) (w : W)
    (tv v P : list str) (T : trace) :
  Forall passes T ->
  match result_of (crawl fuel max_nested w tv v P T) with
  | Raised e =>
      exists last earlier,
        fetched (crawl fuel max_nested w tv v P T) = last :: earlier
        /\ ends_discovery last e
        /\ Forall passes earlier
  | Returned _ => Forall passes (fetched (crawl fuel max_nested w tv v P T))
  | OutOfFuel => True
  end.
Proof.
  apply (crawl_inv_fetch max_nested
           (fun _ _ _ _ T0 => Forall passes T0)
           (fun c =>
              match result_of c with
              | Raised e =>
                  exists last earlier,
                    fetched c = last :: earlier
                    /\ ends_discovery last e
                    /\ Forall passes earlier
              | Returned _ => Forall passes (fetched c)
              | OutOfFuel => True
              end)); simpl.
  - intros; exact I.
  - intros n w0 v0 P0 T0 H; exact H.
  - intros n cur tv0 v0 P0 T0 H Hm; exact H.
  - intros n w0 w1 cur tv0 v0 P0 T0 e H Hm Hf.
    exists (cur, Raise e), T0; split; [reflexivity|]; split; [|exact H].
    unfold SpecX.ends_discovery; simpl; split; [reflexivity|].
    exact (fetch_text_raises _ _ _ _ Hf).
  - intros n cur tv0 v0 P0 T0 body H Hm Hp; constructor; [|exact H].
    unfold SpecX.passes; simpl; rewrite Hp; exact I.
  - intros n cur tv0 v0 P0 T0 body root H Hm Hp Ht; constructor; [|exact H].
    unfold SpecX.passes; simpl; rewrite Hp; left; exact Ht.
  - intros n w0 cur tv0 v0 P0 T0 body root e H Hm Hp Ht Hc.
    exists (cur, Ok body), T0; split; [reflexivity|]; split; [|exact H].
    destruct (collect_properties_refused _ _ _ Hc) as [He Hloc].
    unfold SpecX.ends_discovery; simpl; split; [exact He|].
    exists root; split; [exact Hp|]; split; [exact Ht | exact Hloc].
  - intros n cur tv0 v0 P0 T0 body root P' H Hm Hp Ht Hc;
      constructor; [|exact H].
    unfold SpecX.passes; simpl; rewrite Hp; right.
    intros (loc & Hin & Hne & Hnone).
    exact (collect_properties_accepts _ _ _ Hc loc Hin Hne Hnone).
Qed.

(** X6: what ends discovery, exactly.  A traversal always stops.  When it
    raises, the last call of [fetch_text] it made either failed, and the
    exception is the [RuntimeError] of that call, or gave a leaf with a
    [loc] that [urlparse] refuses, and the exception is [ValueError]; every
    call before it let the traversal go on.  When it returns, every call
    did.  A document that is not well-formed XML lets it go on: it never
    ends discovery. *)
Theorem X6_what_ends_discovery (w : W) (root_sitemap : str)
    (max_nested : Z) :
  let c := iter_sitemap_property_urls w root_sitemap max_nested in
  match result_of c with
  | Raised e =>
      exists last earlier,
        fetched c = last :: earlier
        /\ ends_discovery last e
        /\ Forall passes earlier
  | Returned _ => Forall passes (fetched c)
  | OutOfFuel => False
  end.
Proof.
  cbv zeta.
  pose proof (iter_sitemap_property_urls_ends check_bracketed_netloc W
                session_get fromstring w root_sitemap max_nested) as Hend.
  pose proof (crawl_outcome (Sitemap.enough_fuel max_nested) max_nested w
                [root_sitemap] [] [] [] (Forall_nil _)) as Hout.
  unfold Sitemap.iter_sitemap_property_urls in *.
  destruct (result_of
              (crawl (Sitemap.enough_fuel max_nested) max_nested w
                 [root_sitemap] [] [] [])); [exact Hout | exact Hout|].
  exfalso; apply Hend; reflexivity.
Qed.

(** *** Where the fetched documents come from *)

Lemma enqueue_children_In (v : list str) (max_nested : Z)
    (locs : list (option str)) :
  forall tv u,
    In u (enqueue_children v max_nested locs tv) ->
    In u tv
    \/ (endswith (py ".xml") u = true
        /\ exists loc, In loc locs /\ strip (or_empty loc) = u).
Proof.
  unfold Sitemap.enqueue_children.
  induction locs as [|loc locs IH]; intros tv u H; simpl in H;
    [left; exact H|].
  destruct (IH _ _ H) as [Hin|(He & l & Hl & Hu)].
  - unfold Sitemap.enqueue_child in Hin.
    destruct (negb (nonempty (strip (or_empty loc)))
              || mem (strip (or_empty loc)) v); [left; exact Hin|].
    destruct (Z.of_nat (length v) + Z.of_nat (length tv) >=? max_nested)%Z;
      [left; exact Hin|].
    destruct (endswith (py ".xml") (strip (or_empty loc))) eqn:Ex;
      [|left; exact Hin].
    destruct Hin as [<-|Hin]; [right | left; exact Hin].
    split; [exact Ex | exists loc; split; [left|]; reflexivity].
  - right; split; [exact He | exists l; split; [right; exact Hl | exact Hu]].
Qed.

Lemma named_by_index_cons (x : str * result exn str) (T : trace) (u : str) :
  named_by_index T u -> named_by_index (x :: T) u.
Proof.
  intros (He & doc & body & e & loc & Hin & H).
  split; [exact He|]; exists doc, body, e, loc; split; [right; exact Hin|].
  exact H.
Qed.

(** X7: every document a traversal fetches is either the root sitemap,
    fetched first, or a child named by an index document fetched before
    it: the stripped text of a [loc] of that index, ending in [.xml].  The
    trace has the latest call first, so what was fetched before a call is
    what follows it. *)
Theorem X7_fetched_documents_origin (w : W) (root_sitemap : str)
    (max_nested : Z) (later : trace) (u : str) (r : result exn str)
    (earlier : trace) :
  fetched (iter_sitemap_property_urls w root_sitemap max_nested)
  = later ++ (u, r) :: earlier ->
  (earlier = [] /\ u = root_sitemap) \/ named_by_index earlier u.
Proof.
  unfold Sitemap.iter_sitemap_property_urls; revert later u r earlier.
  pose (placed := fun (T : trace) =>
          forall later u r earlier,
            T = later ++ (u, r) :: earlier ->
            (earlier = [] /\ u = root_sitemap) \/ named_by_index earlier u).
  pose (Inv := fun (tv v : list str) (T : trace) =>
          ((T = [] /\ v = [] /\ tv = [root_sitemap])
           \/ (forall u, In u tv -> named_by_index T u))
          /\ placed T).
  assert (Hplaced : forall cur tv v T (r : result exn str),
             Inv (cur :: tv) v T -> placed ((cur, r) :: T)).
  { intros cur tv v T r [Hq Hp] later u r0 earlier Heq.
    destruct later as [|x later]; simpl in Heq; inversion Heq; subst.
    - destruct Hq as [(HT & _ & Htv)|Hq].
      + left; split; [exact HT | inversion Htv; reflexivity].
      + right; apply Hq; left; reflexivity.
    - exact (Hp later u r0 earlier eq_refl). }
  assert (Hrest : forall cur tv v T (r : result exn str),
             Inv (cur :: tv) v T ->
             forall u, In u tv -> named_by_index ((cur, r) :: T) u).
  { intros cur tv v T r [[(_ & _ & Htv)|Hq] _] u Hu.
    - inversion Htv; subst; destruct Hu.
    - apply named_by_index_cons, Hq; right; exact Hu. }
  apply (crawl_inv check_bracketed_netloc W session_get fromstring
           max_nested
           (fun _ tv v _ T => Inv tv v T)
           (fun c => placed (fetched c)));
    simpl.
  - intros w0 tv0 v0 P0 T0 [_ H]; exact H.
  - intros n w0 v0 P0 T0 [_ H]; exact H.
  - intros n cur tv0 v0 P0 T0 [Hq Hp] Hm; split; [|exact Hp].
    destruct Hq as [(_ & Hv & _)|Hq];
      [subst v0; simpl in Hm; discriminate|].
    right; intros u Hu; apply Hq; right; exact Hu.
  - intros n w0 cur tv0 v0 P0 T0 e H Hm.
    exact (Hplaced _ _ _ _ _ H).
  - intros n cur tv0 v0 P0 T0 body H Hm Hp; split;
      [right; exact (Hrest _ _ _ _ _ H) | exact (Hplaced _ _ _ _ _ H)].
  - intros n cur tv0 v0 P0 T0 body root H Hm Hp Ht; split;
      [right | exact (Hplaced _ _ _ _ _ H)].
    intros u Hu.
    destruct (enqueue_children_In _ _ _ _ _ Hu) as [Hin|(He & l & Hl & Hs)];
      [exact (Hrest _ _ _ _ _ H u Hin)|].
    split; [exact He|].
    exists cur, body, root, l; split; [left; reflexivity|].
    split; [exact Hp|]; split; [exact Ht|]; split; [exact Hl | exact Hs].
  - intros n w0 cur tv0 v0 P0 T0 body root e H Hm Hp Ht Hc.
    exact (Hplaced _ _ _ _ _ H).
  - intros n cur tv0 v0 P0 T0 body root P' H Hm Hp Ht Hc; split;
      [right; exact (Hrest _ _ _ _ _ H) | exact (Hplaced _ _ _ _ _ H)].
  - split; [left; repeat split; reflexivity|].
    intros later u r earlier Heq; destruct later; discriminate.
Qed.

End SitemapExtra.

(** On the index whose second leaf is dead, the call that ends discovery
    is the failed fetch of that leaf. *)
Lemma X6_what_ends_discovery_witness :
  exists last earlier,
    Sitemap.fetched _ (Scenario.discover Scenario.dead_leaf)
    = last :: earlier
    /\ SpecX.ends_discovery UrlParse.no_bracket_check Scenario.fromstring
         last (RuntimeError Scenario.leaf_b_url (Some (HTTPError 503)))
    /\ Forall (SpecX.passes UrlParse.no_bracket_check Scenario.fromstring)
         earlier.
Proof.
  exact (X6_what_ends_discovery UrlParse.no_bracket_check Scenario.Web
           (Scenario.scripted Scenario.dead_leaf) Scenario.fromstring []
           Scenario.root_url 100).
Defined.

(** A leaf answered with a page that is not XML is fetched and passed
    over: discovery returns what the other leaf lists. *)
Example garbled_leaf_passed_over :
  Sitemap.result_of _ (Scenario.discover ScenarioX.garbled_leaf)
  = Returned [py "https://www.auctionhouse.co.uk/property/3"]
  /\ map fst (Sitemap.fetched _ (Scenario.discover ScenarioX.garbled_leaf))
     = [Scenario.leaf_a_url; Scenario.leaf_b_url; Scenario.root_url]
  /\ Scenario.fromstring (py "<html><body>Moved</body></html>") = None.
Proof. vm_compute; repeat split. Qed.

(** The first leaf of the two is fetched last, after the second leaf and
    the root, and it is the root that names it. *)
Lemma X7_fetched_documents_origin_witness :
  (([(Scenario.leaf_b_url, Ok (Scenario.render Scenario.leaf_b));
     (Scenario.root_url, Ok (Scenario.render Scenario.index_doc))] : trace)
   = []
   /\ Scenario.leaf_a_url = Scenario.root_url)
  \/ SpecX.named_by_index Scenario.fromstring
       [(Scenario.leaf_b_url, Ok (Scenario.render Scenario.leaf_b));
        (Scenario.root_url, Ok (Scenario.render Scenario.index_doc))]
       Scenario.leaf_a_url.
Proof.
  apply (X7_fetched_documents_origin UrlParse.no_bracket_check Scenario.Web
           (Scenario.scripted Scenario.two_leaves) Scenario.fromstring []
           Scenario.root_url 100 []
           Scenario.leaf_a_url (Ok (Scenario.render Scenario.leaf_a))).
  vm_compute; reflexivity.
Defined.

(** ** Lists cut and filtered *)

Lemma firstn_In (A : Type) (n : nat) (l : list A) (x : A) :
  In x (firstn n l) -> In x l.
Proof.
  revert l; induction n as [|n IH]; intros [|y l]; simpl; try tauto.
  intros [H|H]; [left; exact H | right; exact (IH _ H)].
Qed.

Lemma firstn_NoDup (A : Type) (n : nat) (l : list A) :
  NoDup l -> NoDup (firstn n l).
Proof.
  revert l; induction n as [|n IH]; intros [|y l] H; simpl;
    try constructor.
  - inversion H; subst; intros Hin; apply firstn_In in Hin; contradiction.
  - inversion H; subst; apply IH; assumption.
Qed.

Lemma slice_to_In (A : Type) (k : Z) (l : list A) (x : A) :
  In x (slice_to k l) -> In x l.
Proof.
  unfold slice_to; destruct (k <? 0)%Z; apply firstn_In.
Qed.

Lemma slice_to_NoDup (A : Type) (k : Z) (l : list A) :
  NoDup l -> NoDup (slice_to k l).
Proof.
  unfold slice_to; destruct (k <? 0)%Z; apply firstn_NoDup.
Qed.

Lemma slice_to_length (A : Type) (k : Z) (l : list A) :
  (0 <= k)%Z -> length (slice_to k l) <= Z.to_nat k.
Proof.
  intros Hk; unfold slice_to.
  destruct (Z.ltb_spec k 0); [lia | apply firstn_le_length].
Qed.

Lemma pages_fetched_In (W : Type) (fetch : W -> str -> W * result exn str)
    (urls : list str) :
  forall w p, In p (Spec.pages_fetched fetch w urls) -> In (fst p) urls.
Proof.
  induction urls as [|u urls IH]; intros w p H; simpl in H; [destruct H|].
  destruct (fetch w u) as [w1 [html|e]].
  - destruct H as [<-|H]; [left; reflexivity | right; exact (IH _ _ H)].
  - right; exact (IH _ _ H).
Qed.

Lemma pages_fetched_NoDup (W : Type) (fetch : W -> str -> W * result exn str)
    (urls : list str) :
  NoDup urls ->
  forall w, NoDup (map fst (Spec.pages_fetched fetch w urls)).
Proof.
  induction 1 as [|u urls Hu Hn IH]; intros w; simpl; [constructor|].
  destruct (fetch w u) as [w1 [html|e]]; [|apply IH].
  simpl; constructor; [|apply IH].
  intros Hin; apply in_map_iff in Hin; destruct Hin as (p & <- & Hp).
  exact (Hu (pages_fetched_In _ _ _ _ _ Hp)).
Qed.

Lemma pages_fetched_length (W : Type)
    (fetch : W -> str -> W * result exn str) (urls : list str) :
  forall w, length (Spec.pages_fetched fetch w urls) <= length urls.
Proof.
  induction urls as [|u urls IH]; intros w; simpl; [lia|].
  destruct (fetch w u) as [w1 [html|e]]; simpl;
    specialize (IH w1); lia.
Qed.

Lemma filter_length_le (A : Type) (f : A -> bool) (l : list A) :
  length (filter f l) <= length l.
Proof.
  induction l as [|x l IH]; simpl; [lia|].
  destruct (f x); simpl; lia.
Qed.

Lemma NoDup_map_filter (A B : Type) (g : A -> B) (f : A -> bool)
    (l : list A) :
  NoDup (map g l) -> NoDup (map g (filter f l)).
Proof.
  induction l as [|x l IH]; simpl; intros H; [constructor|].
  inversion H as [|? ? Hx Hl]; subst.
  destruct (f x); simpl; [|exact (IH Hl)].
  constructor; [|exact (IH Hl)].
  intros Hin; apply Hx.
  apply in_map_iff in Hin; destruct Hin as (y & Hy & Hin).
  apply filter_In in Hin; destruct Hin as [Hin _].
  apply in_map_iff; exists y; split; assumption.
Qed.

(** ** The sitemap pipeline as a whole *)

Section RunExtra.

Variable check_bracketed_netloc : str -> bool.
Variable W : Type.
Variable session_get : W -> str -> W * result request_error Response.
Variable fromstring : str -> option Element.
Variable extract_title : str -> option str.
Variable extract_address : str -> option str.
Variable extract_guide_price : str -> option str.
Variable extract_status : str -> option str.
Variable extract_auction_date : str -> option str.
Variable extract_lot_number : str -> option str.

Local Abbreviation fetch_text3 :=
  (fun w u => Fetch.fetch_text W session_get w u 3).
Local Abbreviation parse_property_page :=
  (Pipeline.parse_property_page extract_title extract_address
     extract_guide_price extract_status extract_auction_date
     extract_lot_number).
Local Abbreviation scrape :=
  (Pipeline.scrape W session_get extract_title extract_address
     extract_guide_price extract_status extract_auction_date
     extract_lot_number).
Local Abbreviation run :=
  (Pipeline.run check_bracketed_netloc W session_get fromstring
     extract_title extract_address extract_guide_price extract_status
     extract_auction_date extract_lot_number).
Local Abbreviation iter_sitemap_property_urls :=
  (Sitemap.iter_sitemap_property_urls check_bracketed_netloc W session_get
     fromstring).
Local Abbreviation discovery w args :=
  (Sitemap.result_of W
     (iter_sitemap_property_urls w (Pipeline.sitemap args) 100)).

(** What [run] writes, by the records it kept. *)
Lemma run_written (w : W) (args : Pipeline.Args) (file : csv) :
  run w args = Some (Pipeline.mkRunEnd 0 (Some file)) ->
  exists property_urls w1,
    discovery w args = Returned property_urls
    /\ file
       = Pipeline.write_csv
           (filter
              (fun r => args.(Pipeline.include_sold) || is_for_sale r)
              (map (fun p : str * str => parse_property_page (snd p) (fst p))
                 (Spec.pages_fetched fetch_text3 w1
                    (Pipeline.limited args.(Pipeline.limit) property_urls)))).
Proof.
  unfold Pipeline.run; cbv zeta.
  destruct (discovery w args) as [property_urls|e|]; try discriminate.
  pose proof (scrape_spec W session_get extract_title extract_address
                extract_guide_price extract_status extract_auction_date
                extract_lot_number (Pipeline.include_sold args)
                (Pipeline.limited (Pipeline.limit args) property_urls)
                (Sitemap.world W
                   (iter_sitemap_property_urls w (Pipeline.sitemap args)
                      100))
                []) as Hs.
  destruct (scrape (Pipeline.include_sold args)
              (Sitemap.world W
                 (iter_sitemap_property_urls w (Pipeline.sitemap args) 100))
              (Pipeline.limited (Pipeline.limit args) property_urls) [])
    as [w2 records].
  simpl in Hs; subst records; intros H; inversion H; subst file.
  eexists; eexists; split; reflexivity.
Qed.

(** X9: with [--limit k] for a positive [k], the file holds at most [k]
    data rows. *)
Theorem X9_run_limit (w : W) (args : Pipeline.Args) (k : Z) (file : csv) :
  args.(Pipeline.limit) = Some k -> (0 < k)%Z ->
  run w args = Some (Pipeline.mkRunEnd 0 (Some file)) ->
  (Z.of_nat (length file) <= 1 + k)%Z.
Proof.
  intros Hl Hk Hrun.
  destruct (run_written w args file Hrun) as (urls & w1 & _ & ->).
  rewrite Hl; unfold Pipeline.limited, Pipeline.write_csv.
  destruct (Z.eqb_spec k 0); [lia|].
  cbn [length]; rewrite length_map.
  match goal with
  | |- context [filter ?f (map ?g (Spec.pages_fetched ?fe ?w0 ?us))] =>
      pose proof (filter_length_le _ f (map g (Spec.pages_fetched fe w0 us)));
      pose proof (pages_fetched_length _ fe us w0)
  end.
  rewrite length_map in *.
  pose proof (slice_to_length _ k urls ltac:(lia)).
  lia.
Qed.

(** X10: the data rows of the file have pairwise different URLs in their
    first column, each one a URL that discovery returned. *)
Theorem X10_run_one_row_per_url (w : W) (args : Pipeline.Args)
    (file : csv) :
  run w args = Some (Pipeline.mkRunEnd 0 (Some file)) ->
  NoDup (map (fun row => hd [] row) (tl file))
  /\ exists property_urls,
       discovery w args = Returned property_urls
       /\ forall row, In row (tl file) -> In (hd [] row) property_urls.
Proof.
  intros Hrun.
  destruct (run_written w args file Hrun) as (urls & w1 & Hd & ->).
  assert (Hnd : NoDup urls).
  { apply strict_NoDup.
    exact (proj1 (crawl_returned check_bracketed_netloc W session_get
                    fromstring _ _ _ _ _ _ _ (NoDup_nil _)
                    (fun u => conj (fun H : In u [] => match H with end)
                                (fun H : Spec.found_in_leaves
                                           check_bracketed_netloc
                                           fromstring [] u =>
                                   match H with
                                   | ex_intro _ _ (ex_intro _ _ (ex_intro _ _
                                       (conj Hin _))) => Hin
                                   end))
                    urls Hd)). }
  assert (Hlim : NoDup (Pipeline.limited (Pipeline.limit args) urls)
                 /\ forall u,
                      In u (Pipeline.limited (Pipeline.limit args) urls) ->
                      In u urls).
  { unfold Pipeline.limited.
    destruct (Pipeline.limit args) as [k|]; [|split; [exact Hnd | tauto]].
    destruct (k =? 0)%Z; [split; [exact Hnd | tauto]|].
    split; [apply slice_to_NoDup; exact Hnd | apply slice_to_In]. }
  destruct Hlim as [Hln Hli].
  unfold Pipeline.write_csv; cbn [tl].
  rewrite map_map; cbn [Pipeline.to_row hd].
  split.
  - apply NoDup_map_filter; rewrite map_map; cbn [url].
    apply pages_fetched_NoDup; exact Hln.
  - exists urls; split; [exact Hd|].
    intros row Hrow.
    apply in_map_iff in Hrow; destruct Hrow as (r & <- & Hr).
    apply filter_In in Hr; destruct Hr as [Hr _].
    apply in_map_iff in Hr; destruct Hr as (p & <- & Hp).
    cbn [Pipeline.to_row hd Pipeline.parse_property_page url].
    apply Hli; exact (pages_fetched_In _ _ _ _ _ Hp).
Qed.

End RunExtra.

(** ** The parts of a parsed URL *)

Lemma startswith_app (n a b : str) :
  startswith n a = true -> startswith n (a ++ b) = true.
Proof.
  revert a; induction n as [|x n IH]; intros [|y a]; simpl; try congruence.
  rewrite !andb_true_iff; intros [H1 H2]; split; [exact H1 | exact (IH _ H2)].
Qed.

Lemma contains_app_l (n a b : str) :
  contains n a = true -> contains n (a ++ b) = true.
Proof.
  induction a as [|y a IH].
  - simpl; rewrite orb_false_r; intros H.
    destruct n; [destruct b; reflexivity | discriminate].
  - cbn [contains app]; rewrite !orb_true_iff; intros [H|H].
    + left; exact (startswith_app n (y :: a) b H).
    + right; exact (IH H).
Qed.

Lemma contains_app_r (n a b : str) :
  contains n b = true -> contains n (a ++ b) = true.
Proof.
  intros H; induction a as [|y a IH]; [exact H|].
  cbn [contains app]; rewrite IH; apply orb_true_r.
Qed.

Lemma NoDup_snoc (A : Type) (l : list A) (x : A) :
  NoDup l -> ~ In x l -> NoDup (l ++ [x]).
Proof.
  induction 1 as [|y l Hy Hl IH]; intros Hx; simpl.
  - constructor; [intros [] | constructor].
  - constructor.
    + rewrite in_app_iff; intros [H|[H|[]]]; [exact (Hy H)|].
      apply Hx; left; symmetry; exact H.
    + apply IH; intros H; apply Hx; right; exact H.
Qed.

Section UrlParts.

Import UrlParse.

Variable check_bracketed_netloc : str -> bool.

Local Abbreviation urlparse := (urlparse check_bracketed_netloc).

Lemma scheme_char_no_mark (c : ascii) :
  scheme_char c = true -> c <> "?"%char /\ c <> "#"%char.
Proof.
  destruct c as [[] [] [] [] [] [] [] []]; vm_compute; intros H;
    try discriminate; split; discriminate.
Qed.

(** What [urlparse] gives: a scheme that is empty or lower-case scheme
    characters starting with a letter, a network location without [/],
    [?] or [#], and a path without [?] or [#]. *)
Lemma urlparse_parts (u : str) (parsed : ParseResult) :
  urlparse u = Some parsed ->
  (first_alpha parsed.(scheme) = true \/ parsed.(scheme) = [])
  /\ forallb scheme_char parsed.(scheme) = true
  /\ lower parsed.(scheme) = parsed.(scheme)
  /\ (forall x, In x parsed.(netloc) -> netloc_delim x = false)
  /\ ~ In "?"%char parsed.(path)
  /\ ~ In "#"%char parsed.(path).
Proof.
  unfold UrlParse.urlparse; intros Hp.
  set (u1 := filter (fun c => negb (unsafe_byte c))
               (lstrip_by c0_or_space u)) in Hp.
  destruct (split_scheme u1) as [s r] eqn:Es.
  destruct (UrlParse.split_netloc check_bracketed_netloc r)
    as [[n r2]|] eqn:En; [|discriminate].
  destruct (cut "#" r2) as [r3 frag] eqn:Ef.
  destruct (cut "?" r3) as [r4 q] eqn:Eq.
  destruct (if mem s uses_params && has_chr ";" r4
            then splitparams r4 else (r4, [])) as [pth par] eqn:Epar.
  inversion Hp; subst parsed; clear Hp; cbn [scheme netloc path].
  destruct (cut_spec _ _ _ _ Ef) as [Hfrag [t3 ->]].
  destruct (cut_spec _ _ _ _ Eq) as [Hquery [t4 ->]].
  assert (Hpre : exists t, r4 = pth ++ t).
  { destruct (mem s uses_params && has_chr ";" r4).
    - destruct (splitparams_prefix r4) as [t Ht].
      rewrite Epar in Ht; exists t; exact Ht.
    - inversion Epar; subst; exists []; rewrite app_nil_r; reflexivity. }
  destruct Hpre as [t5 ->].
  assert (Hs : (first_alpha s = true \/ s = [])
               /\ forallb scheme_char s = true /\ lower s = s).
  { unfold split_scheme in Es.
    destruct (partition ":" u1) as [[pre rest]|];
      [|inversion Es; subst; repeat split; auto].
    destruct (nonempty pre && first_alpha pre && forallb scheme_char pre)
      eqn:Ec; inversion Es; subst; [|repeat split; auto].
    apply andb_true_iff in Ec; destruct Ec as [Ec Hsch].
    apply andb_true_iff in Ec; destruct Ec as [_ Halpha].
    split; [left|split].
    - destruct pre as [|c pre]; [discriminate|].
      simpl in *; apply chr_lower_alpha; exact Halpha.
    - unfold lower; rewrite forallb_forall; intros x Hx.
      apply in_map_iff in Hx; destruct Hx as (y & <- & Hy).
      apply chr_lower_scheme_char.
      exact (proj1 (forallb_forall _ _) Hsch y Hy).
    - apply lower_idem. }
  destruct Hs as (Hs1 & Hs2 & Hs3).
  split; [exact Hs1|]; split; [exact Hs2|]; split; [exact Hs3|].
  split; [|split].
  - unfold split_netloc in En.
    destruct (startswith (py "//") r); [|inversion En; subst; intros x []].
    destruct (break netloc_delim (skipn 2 r)) as [n' r2'] eqn:Eb.
    destruct (UrlParse.netloc_valid check_bracketed_netloc n');
      inversion En; subst.
    exact (proj1 (proj2 (break_spec _ _ _ _ Eb))).
  - intros Hin; apply Hquery; apply in_or_app; left; exact Hin.
  - intros Hin; apply Hfrag; apply in_or_app; left.
    apply in_or_app; left; exact Hin.
Qed.

(** The canonical form holds no query and no fragment mark. *)
Lemma canonical_of_no_mark (u : str) (parsed : ParseResult) :
  urlparse u = Some parsed ->
  ~ In "?"%char (canonical_of parsed) /\ ~ In "#"%char (canonical_of parsed).
Proof.
  intros Hp.
  destruct (urlparse_parts u parsed Hp) as (_ & Hs & _ & Hn & Hq & Hf).
  unfold canonical_of.
  change (py "://") with [":"; "/"; "/"]%char.
  split; intros Hin;
    (apply in_app_or in Hin; destruct Hin as [Hin|Hin];
     [pose proof (proj1 (forallb_forall _ _) Hs _ Hin) as Hc;
      apply scheme_char_no_mark in Hc; destruct Hc; congruence|];
     apply in_app_or in Hin; destruct Hin as [Hin|Hin];
     [destruct Hin as [H|[H|[H|[]]]]; discriminate|];
     apply in_app_or in Hin; destruct Hin as [Hin|Hin];
     [apply Hn in Hin; vm_compute in Hin; discriminate | tauto]).
Qed.

End UrlParts.

(** ** Landing-page link discovery, without conditions *)

Section LinkExtra.

Variable check_bracketed_netloc : str -> bool.
Variable BeautifulSoup : str -> Soup.
Variable urljoin : str -> str -> option str.

Local Abbreviation find_loop :=
  (National.find_loop check_bracketed_netloc urljoin).
Local Abbreviation find_lot_links :=
  (National.find_lot_links check_bracketed_netloc BeautifulSoup urljoin).
Local Abbreviation resolves := (Spec.resolves check_bracketed_netloc urljoin).

Local Abbreviation well_formed := SpecX.well_formed_link.

Lemma find_loop_links (base_url : str) (hrefs : list str) :
  forall links seen out,
    find_loop hrefs base_url links seen = Ok out ->
    NoDup links -> (forall l, In l links -> In l seen) ->
    (forall l, In l links -> well_formed l) ->
    NoDup out /\ (forall l, In l out -> well_formed l).
Proof.
  induction hrefs as [|h hrefs IH]; intros links seen out Hf Hn Hs Hw.
  - simpl in Hf; inversion Hf; subst; split; assumption.
  - cbn [National.find_loop] in Hf.
    destruct (negb (contains LOT_PATH_MARKER (strip h)));
      [exact (IH _ _ _ Hf Hn Hs Hw)|].
    destruct (urljoin base_url (strip h)) as [absolute|]; [|discriminate].
    destruct (UrlParse.urlparse check_bracketed_netloc absolute)
      as [parsed|] eqn:Ep; [|discriminate].
    destruct (contains LOT_HOST (UrlParse.netloc parsed)) eqn:Eh;
      cbn [negb] in Hf; [|exact (IH _ _ _ Hf Hn Hs Hw)].
    destruct (mem (UrlParse.canonical_of parsed) seen) eqn:Em;
      cbn [negb] in Hf; [exact (IH _ _ _ Hf Hn Hs Hw)|].
    apply (IH _ _ _ Hf).
    + apply NoDup_snoc; [exact Hn|].
      intros Hin; apply mem_false_In in Em; exact (Em (Hs _ Hin)).
    + intros l Hl; apply in_app_or in Hl; destruct Hl as [Hl|[<-|[]]];
        [right; exact (Hs _ Hl) | left; reflexivity].
    + intros l Hl; apply in_app_or in Hl; destruct Hl as [Hl|[<-|[]]];
        [exact (Hw _ Hl)|].
      destruct (canonical_of_no_mark _ _ _ Ep) as [Hq Hm].
      split; [|split; assumption].
      unfold UrlParse.canonical_of.
      apply contains_app_r, contains_app_r, contains_app_l; exact Eh.
Qed.

(** X11: whenever link discovery returns, its links are pairwise
    different, each holds the lot host, and none holds a [?] or a [#]:
    query and fragment are gone. *)
Theorem X11_links_well_formed (html base_url : str) (links : list str) :
  find_lot_links html base_url = Ok links ->
  NoDup links
  /\ forall l,
       In l links ->
       contains LOT_HOST l = true /\ ~ In "?"%char l /\ ~ In "#"%char l.
Proof.
  intros H.
  apply (find_loop_links base_url _ [] [] links H);
    [constructor | intros l [] | intros l []].
Qed.

Lemma find_loop_resolved (base_url : str) (hrefs : list str) :
  forall links seen out,
    find_loop hrefs base_url links seen = Ok out ->
    Forall (resolves base_url) hrefs.
Proof.
  induction hrefs as [|h hrefs IH]; intros links seen out Hf;
    [constructor|].
  cbn [National.find_loop] in Hf.
  destruct (contains LOT_PATH_MARKER (strip h)) eqn:Em; cbn [negb] in Hf.
  - destruct (urljoin base_url (strip h)) as [absolute|] eqn:Ej;
      [|discriminate].
    destruct (UrlParse.urlparse check_bracketed_netloc absolute)
      as [parsed|] eqn:Ep; [|discriminate].
    constructor.
    + intros _; exists absolute, parsed; split; [exact Ej | exact Ep].
    + destruct (negb (contains LOT_HOST (UrlParse.netloc parsed)));
        [exact (IH _ _ _ Hf)|].
      destruct (negb (mem (UrlParse.canonical_of parsed) seen));
        exact (IH _ _ _ Hf).
  - constructor; [|exact (IH _ _ _ Hf)].
    intros H; unfold Spec.resolves; rewrite Em in H; discriminate.
Qed.

Lemma find_lot_links_raises (html base_url : str) (e : exn) :
  find_lot_links html base_url = Raise e -> e = ValueError.
Proof.
  unfold National.find_lot_links.
  generalize (@nil str) at 1; generalize (@nil str).
  induction (anchor_hrefs (BeautifulSoup html)) as [|h hrefs IH];
    intros seen links Hf; [discriminate|].
  cbn [National.find_loop] in Hf.
  destruct (negb (contains LOT_PATH_MARKER (strip h)));
    [exact (IH _ _ Hf)|].
  destruct (urljoin base_url (strip h)) as [absolute|];
    [|inversion Hf; reflexivity].
  destruct (UrlParse.urlparse check_bracketed_netloc absolute)
    as [parsed|]; [|inversion Hf; reflexivity].
  destruct (negb (contains LOT_HOST (UrlParse.netloc parsed)));
    [exact (IH _ _ Hf)|].
  destruct (negb (mem (UrlParse.canonical_of parsed) seen));
    exact (IH _ _ Hf).
Qed.


End LinkExtra.

Lemma X11_links_well_formed_witness :
  NoDup [Scenario.lot_101_url; Scenario.lot_102_url]
  /\ forall l,
       In l [Scenario.lot_101_url; Scenario.lot_102_url] ->
       contains LOT_HOST l = true /\ ~ In "?"%char l /\ ~ In "#"%char l.
Proof.
  apply (X11_links_well_formed UrlParse.no_bracket_check
           Scenario.BeautifulSoup Scenario.urljoin Scenario.landing_html
           NATIONAL_URL).
  vm_compute; reflexivity.
Defined.

(** ** The extractors of the landing-page pipeline *)

Section ExtractExtra.

Variable BeautifulSoup : str -> Soup.
Variable re_search : str -> str -> option str.
Variable repr_container : json -> str.

Local Abbreviation set_from := (National.set_from repr_container).
Local Abbreviation py_str := (National.py_str repr_container).
Local Abbreviation _extract_from_json_ld :=
  (National._extract_from_json_ld repr_container).
Local Abbreviation _regex_search := (National._regex_search re_search).
Local Abbreviation _extract_from_html :=
  (National._extract_from_html re_search).
Local Abbreviation parse_lot_page :=
  (National.parse_lot_page BeautifulSoup re_search repr_container).
Local Abbreviation structured_value :=
  (SpecX.structured_value repr_container).

(** X13: [_regex_search] gives nothing exactly when no pattern matches, and
    otherwise the stripped first group of the first pattern that matches;
    the patterns after it are not consulted. *)
Theorem X13_regex_search_first_match (text : str) (patterns : list str) :
  (_regex_search text patterns = None
   <-> forall p, In p patterns -> re_search p text = None)
  /\ forall before p after group1,
       patterns = before ++ p :: after ->
       (forall b, In b before -> re_search b text = None) ->
       re_search p text = Some group1 ->
       _regex_search text patterns = Some (strip group1).
Proof.
  split.
  - induction patterns as [|p ps IH]; simpl; [split; [intros _ q []|]|].
    + reflexivity.
    + destruct (re_search p text) as [g|] eqn:E.
      * split; [discriminate|].
        intros H; rewrite (H p (or_introl eq_refl)) in E; discriminate.
      * rewrite IH; split.
        -- intros H q [<-|Hq]; [exact E | exact (H q Hq)].
        -- intros H q Hq; apply H; right; exact Hq.
  - intros before p after group1 -> Hb Hp.
    induction before as [|b before IH]; simpl.
    + rewrite Hp; reflexivity.
    + rewrite (Hb b (or_introl eq_refl)).
      apply IH; intros c Hc; apply Hb; right; exact Hc.
Qed.

Lemma dict_has_get (d : details) (f : Field) :
  dict_has d f = match dict_get d f with Some _ => true | None => false end.
Proof. reflexivity. Qed.

Lemma set_from_get_other (p : list (str * json)) (key : str) (f : Field)
    (unless_set : bool) (d : details) (f' : Field) :
  f <> f' -> dict_get (set_from p key f unless_set d) f' = dict_get d f'.
Proof.
  intros Hne; unfold National.set_from.
  destruct (National.get_truthy p key) as [v|]; [|reflexivity].
  destruct (unless_set && dict_has d f); [reflexivity|].
  apply dict_get_set_other; exact Hne.
Qed.

Lemma set_from_get_same (p : list (str * json)) (key : str) (f : Field)
    (unless_set : bool) (d : details) :
  dict_get (set_from p key f unless_set d) f
  = match National.get_truthy p key with
    | Some v =>
        match dict_get d f with
        | Some old => if unless_set then Some old else Some (py_str v)
        | None => Some (py_str v)
        end
    | None => dict_get d f
    end.
Proof.
  unfold National.set_from.
  destruct (National.get_truthy p key) as [v|]; [|reflexivity].
  rewrite dict_has_get.
  destruct (dict_get d f) as [old|] eqn:E, unless_set; cbn [andb];
    rewrite ?E, ?dict_get_set_same; reflexivity.
Qed.

Lemma get_truthy_nil (key : str) : National.get_truthy [] key = None.
Proof. reflexivity. Qed.

Lemma is_candidate_nonempty (p : list (str * json)) :
  National.is_candidate p = true -> p <> [].
Proof. intros H ->; discriminate. Qed.

Lemma filter_head (A : Type) (f : A -> bool) (l : list A) (x : A)
    (rest : list A) :
  filter f l = x :: rest -> f x = true.
Proof.
  intros H.
  assert (Hin : In x (filter f l)) by (rewrite H; left; reflexivity).
  apply filter_In in Hin; tauto.
Qed.

(** X15: the structured layer maps the primary payload field by field:
    the name to the title, the sku and else the product id to the lot
    number, the price of the offer to the guide price, the availability of
    the offer and else that of the payload to the status, the validity
    start of the offer and else the release date to the auction date, and
    the flattened address object to the address. *)
Theorem X15_structured_fields (payloads : list (list (str * json)))
    (primary : list (str * json)) (rest : list (list (str * json)))
    (f : Field) :
  filter National.is_candidate payloads = primary :: rest ->
  dict_get (_extract_from_json_ld payloads) f = structured_value primary f.
Proof.
  intros Hf; unfold National._extract_from_json_ld; rewrite Hf.
  pose proof (is_candidate_nonempty primary
                (filter_head _ _ _ _ _ Hf)) as Hne.
  destruct primary as [|m primary]; [congruence|].
  set (p := m :: primary); cbv zeta.
  unfold SpecX.structured_value.
  destruct (National.json_get p (py "address")) as [[| | | | |address]|];
    destruct (National.json_get p (py "offers")) as [[| | | | |offers]|];
    destruct f;
    repeat first
      [ rewrite dict_get_set_same
      | rewrite dict_get_set_other by discriminate
      | rewrite set_from_get_other by discriminate
      | rewrite set_from_get_same ];
    rewrite ?get_truthy_nil; cbn [dict_get option_map SpecX.first_of];
    repeat match goal with
           | |- context [National.get_truthy ?a ?k] =>
               destruct (National.get_truthy a k)
           end;
    reflexivity.
Qed.

Lemma update_nonempty_NoDup (structured : details) :
  forall d, NoDup (map fst d) ->
       NoDup (map fst (National.update_nonempty d structured)).
Proof.
  unfold National.update_nonempty.
  induction structured as [|[k v] s IH]; intros d H; [exact H|].
  cbn [fold_left fst snd]; apply IH.
  destruct (nonempty v); [apply dict_set_NoDup|]; exact H.
Qed.

Lemma fill_gaps_NoDup (fallbacks : details) :
  forall d, NoDup (map fst d) ->
       NoDup (map fst (National.fill_gaps d fallbacks)).
Proof.
  unfold National.fill_gaps.
  induction fallbacks as [|[k v] s IH]; intros d H; [exact H|].
  cbn [fold_left fst snd]; apply IH.
  destruct (nonempty v && negb (truthy (dict_get d k)));
    [apply dict_set_NoDup|]; exact H.
Qed.

Lemma merged_record_values (html url : str) :
  dict_get (parse_lot_page html url) Url = Some url
  /\ forall f v,
       f <> Url -> dict_get (parse_lot_page html url) f = Some v -> v <> [].
Proof.
  unfold National.parse_lot_page; split.
  - exact (merge_get url _ _ Url
             (extracted_json_ld repr_container _)
             (extracted_html re_search _)).
  - intros f v Hf Hv.
    rewrite (merge_get url _ _ f
               (extracted_json_ld repr_container _)
               (extracted_html re_search _)) in Hv.
    assert (Hm : Spec.merged_value
                   (_extract_from_json_ld
                      (National._load_json_ld (BeautifulSoup html)))
                   (_extract_from_html (BeautifulSoup html)) f = Some v)
      by (destruct f; congruence).
    unfold Spec.merged_value in Hm.
    repeat match type of Hm with
           | (if truthy ?o then _ else _) = _ =>
               destruct o as [[|c s]|] eqn:?; cbn [truthy nonempty] in Hm
           end; inversion Hm; discriminate.
Qed.

(** X17: the merged record of a lot page names no field twice, holds the
    URL it was given, and holds no empty value for any other field: what
    neither layer found is left out. *)
Theorem X17_merged_record_shape (html url : str) :
  NoDup (map fst (parse_lot_page html url))
  /\ dict_get (parse_lot_page html url) Url = Some url
  /\ forall f v,
       f <> Url -> dict_get (parse_lot_page html url) f = Some v -> v <> [].
Proof.
  split; [|exact (merged_record_values html url)].
  unfold National.parse_lot_page, National.merge.
  apply fill_gaps_NoDup, update_nonempty_NoDup.
  simpl; constructor; [intros [] | constructor].
Qed.

(** X18: a lot page written to the file can be read back: each column of
    its row other than the URL reads as the field of the merged record, an
    empty column as an absent field, and the URL column is the URL. *)
Theorem X18_row_reads_back (html url : str) (f : Field) :
  let row := parse_lot_page html url in
  let cols := nth 1 (National.write_csv [row]) [] in
  SpecX.column Url cols = url
  /\ (f <> Url -> SpecX.read_back cols f = dict_get row f).
Proof.
  cbv zeta.
  destruct (merged_record_values html url) as (Hu & Hv).
  set (row := parse_lot_page html url) in *.
  change (nth 1 (National.write_csv [row]) [])
    with (map (fun g => or_empty (dict_get row g)) National.fieldnames).
  split.
  - cbn [SpecX.column National.fieldnames map nth].
    rewrite Hu; reflexivity.
  - intros Hf; unfold SpecX.read_back.
    destruct f; try congruence;
      cbn [SpecX.column National.fieldnames map nth];
      match goal with
      | |- context [dict_get row ?g] =>
          destruct (dict_get row g) as [v|] eqn:E; cbn [or_empty];
          [pose proof (Hv g v ltac:(discriminate) E);
           destruct v; [congruence | reflexivity]
          | reflexivity]
      end.
Qed.

End ExtractExtra.

Lemma X15_structured_fields_witness :
  dict_get
    (National._extract_from_json_ld Scenario.repr_container
       [[(py "@type", JStr (py "WebPage"))];
        [(py "@type", JStr (py "Product")); (py "sku", JStr (py "42"));
         (py "productID", JStr (py "P-9"))]])
    LotNumber
  = Some (py "42").
Proof.
  apply (X15_structured_fields Scenario.repr_container
           [[(py "@type", JStr (py "WebPage"))];
            [(py "@type", JStr (py "Product")); (py "sku", JStr (py "42"));
             (py "productID", JStr (py "P-9"))]]
           [(py "@type", JStr (py "Product")); (py "sku", JStr (py "42"));
            (py "productID", JStr (py "P-9"))]
           [] LotNumber).
  vm_compute; reflexivity.
Defined.

Lemma NoDup_map_inj (A B : Type) (g : A -> B) (l : list A) :
  (forall a b, g a = g b -> a = b) -> NoDup l -> NoDup (map g l).
Proof.
  intros Hg; induction 1 as [|x l Hx Hl IH]; simpl; constructor;
    [|exact IH].
  intros Hin; apply in_map_iff in Hin; destruct Hin as (y & Hy & Hin).
  apply Hg in Hy; subst y; exact (Hx Hin).
Qed.

(** ** The landing-page pipeline as a whole *)

Section NationalExtra.

Variable check_bracketed_netloc : str -> bool.
Variable W : Type.
Variable session_get : W -> str -> W * result request_error Response.
Variable BeautifulSoup : str -> Soup.
Variable urljoin : str -> str -> option str.
Variable re_search : str -> str -> option str.
Variable repr_container : json -> str.

Local Abbreviation fetch_content := (Fetch.fetch_content W session_get).
Local Abbreviation parse_lot_page :=
  (National.parse_lot_page BeautifulSoup re_search repr_container).
Local Abbreviation collect :=
  (National.collect W session_get BeautifulSoup re_search repr_container).
Local Abbreviation find_lot_links :=
  (National.find_lot_links check_bracketed_netloc BeautifulSoup urljoin).
Local Abbreviation scrape_national_lots :=
  (National.scrape_national_lots check_bracketed_netloc W session_get
     BeautifulSoup urljoin re_search repr_container).

(** What a run that returns amounts to. *)
Lemma scrape_national_lots_returned (w : W) (max_lots : option Z)
    (rows : list details) (file : csv) :
  scrape_national_lots w max_lots = Ok (rows, file) ->
  exists w1 national_html lot_urls,
    fetch_content w NATIONAL_URL = (w1, Ok national_html)
    /\ find_lot_links national_html NATIONAL_URL = Ok lot_urls
    /\ rows
       = map (fun p : str * str => parse_lot_page (snd p) (fst p))
           (Spec.pages_fetched fetch_content w1
              match max_lots with
              | Some k => slice_to k lot_urls
              | None => lot_urls
              end)
    /\ file = National.write_csv rows.
Proof.
  unfold National.scrape_national_lots.
  destruct (Fetch.fetch_content W session_get w NATIONAL_URL)
    as [w1 [national_html|e]] eqn:Ef; [|discriminate].
  destruct (find_lot_links national_html NATIONAL_URL) as [lot_urls|e]
    eqn:El; [|discriminate].
  cbv zeta.
  pose proof (collect_spec W session_get BeautifulSoup re_search
                repr_container
                match max_lots with
                | Some k => slice_to k lot_urls
                | None => lot_urls
                end w1 []) as Hc.
  destruct (collect w1
              match max_lots with
              | Some k => slice_to k lot_urls
              | None => lot_urls
              end []) as [w2 rows'].
  simpl in Hc; subst rows'; intros H; inversion H; subst.
  exists w1, national_html, lot_urls; repeat split; exact El.
Qed.

(** X19: a run of the landing-page pipeline that returns has fetched the
    landing page and found its links, and gives one row for each lot page
    it fetched: the rows have pairwise different URLs, each one a link
    that link discovery returned for the landing page, with the text of
    the lot host in it and without query or fragment; the file has one
    line more than there are rows, and with [max_lots = k >= 0] there are
    at most [k] rows. *)
Theorem X19_national_rows (w : W) (max_lots : option Z)
    (rows : list details) (file : csv) :
  scrape_national_lots w max_lots = Ok (rows, file) ->
  exists w1 national_html lot_urls,
    fetch_content w NATIONAL_URL = (w1, Ok national_html)
    /\ find_lot_links national_html NATIONAL_URL = Ok lot_urls
    /\ NoDup (map (fun row => dict_get row Url) rows)
    /\ (forall row,
          In row rows ->
          exists u,
            dict_get row Url = Some u
            /\ In u lot_urls
            /\ SpecX.well_formed_link u)
    /\ length file = S (length rows)
    /\ (forall k, max_lots = Some k -> (0 <= k)%Z ->
        length rows <= Z.to_nat k).
Proof.
  intros H.
  destruct (scrape_national_lots_returned w max_lots rows file H)
    as (w1 & national_html & lot_urls & Hf & Hl & -> & ->).
  exists w1, national_html, lot_urls.
  split; [exact Hf|]; split; [exact Hl|].
  destruct (find_loop_links check_bracketed_netloc urljoin NATIONAL_URL
              _ [] [] lot_urls Hl (NoDup_nil _)
              (fun l (Hin : In l []) => match Hin with end)
              (fun l (Hin : In l []) => match Hin with end))
    as [Hnd Hwf].
  set (cut := match max_lots with
              | Some k => slice_to k lot_urls
              | None => lot_urls
              end).
  assert (Hcut : NoDup cut /\ forall u, In u cut -> In u lot_urls).
  { subst cut; destruct max_lots as [k|];
      [split; [apply slice_to_NoDup; exact Hnd | apply slice_to_In]
      | split; [exact Hnd | tauto]]. }
  destruct Hcut as [Hcn Hci].
  assert (Hurl : forall p : str * str,
             dict_get (parse_lot_page (snd p) (fst p)) Url = Some (fst p)).
  { intros p.
    exact (proj1 (merged_record_values BeautifulSoup re_search
                    repr_container (snd p) (fst p))). }
  split; [|split; [|split]].
  - rewrite map_map.
    rewrite (map_ext _ (fun p : str * str => Some (fst p)) Hurl).
    rewrite <- (map_map fst Some).
    apply NoDup_map_inj; [intros a b Hab; congruence|].
    apply pages_fetched_NoDup; exact Hcn.
  - intros row Hrow.
    apply in_map_iff in Hrow; destruct Hrow as (p & <- & Hp).
    exists (fst p); split; [apply Hurl|].
    assert (Hin : In (fst p) lot_urls)
      by (apply Hci; exact (pages_fetched_In _ _ _ _ _ Hp)).
    split; [exact Hin | exact (Hwf _ Hin)].
  - unfold National.write_csv; cbn [length]; rewrite !length_map.
    reflexivity.
  - intros k -> Hk; rewrite length_map.
    pose proof (pages_fetched_length _ fetch_content cut w1).
    pose proof (slice_to_length _ k lot_urls Hk).
    subst cut; lia.
Qed.

End NationalExtra.

(** On the landing page of the scenario: two rows, the two lots that link
    discovery found. *)
Lemma X19_national_rows_witness :
  exists w1 national_html lot_urls,
    Fetch.fetch_content Scenario.Web
      (Scenario.scripted Scenario.national_site) [] NATIONAL_URL
    = (w1, Ok national_html)
    /\ National.find_lot_links UrlParse.no_bracket_check
         Scenario.BeautifulSoup Scenario.urljoin national_html NATIONAL_URL
       = Ok lot_urls
    /\ NoDup
         (map (fun row => dict_get row Url)
            [[(Url, Scenario.lot_101_url); (LotNumber, py "101");
              (GuidePrice, py "150,000"); (Status, py "Available");
              (Title, py "1 High Street")];
             [(Url, Scenario.lot_102_url); (LotNumber, py "102");
              (Status, py "Sold"); (Title, py "2 Mill Lane")]])
    /\ (forall row,
          In row
            [[(Url, Scenario.lot_101_url); (LotNumber, py "101");
              (GuidePrice, py "150,000"); (Status, py "Available");
              (Title, py "1 High Street")];
             [(Url, Scenario.lot_102_url); (LotNumber, py "102");
              (Status, py "Sold"); (Title, py "2 Mill Lane")]] ->
          exists u,
            dict_get row Url = Some u
            /\ In u lot_urls
            /\ SpecX.well_formed_link u)
    /\ length
         [[py "lot_number"; py "title"; py "address"; py "guide_price";
           py "status"; py "auction_date"; py "url"];
          [py "101"; py "1 High Street"; []; py "150,000"; py "Available";
           []; Scenario.lot_101_url];
          [py "102"; py "2 Mill Lane"; []; []; py "Sold"; [];
           Scenario.lot_102_url]]
       = S (length
              [[(Url, Scenario.lot_101_url); (LotNumber, py "101");
                (GuidePrice, py "150,000"); (Status, py "Available");
                (Title, py "1 High Street")];
               [(Url, Scenario.lot_102_url); (LotNumber, py "102");
                (Status, py "Sold"); (Title, py "2 Mill Lane")]])
    /\ (forall k, @None Z = Some k -> (0 <= k)%Z ->
        length
          [[(Url, Scenario.lot_101_url); (LotNumber, py "101");
            (GuidePrice, py "150,000"); (Status, py "Available");
            (Title, py "1 High Street")];
           [(Url, Scenario.lot_102_url); (LotNumber, py "102");
            (Status, py "Sold"); (Title, py "2 Mill Lane")]]
        <= Z.to_nat k).
Proof.
  exact (X19_national_rows UrlParse.no_bracket_check Scenario.Web
           (Scenario.scripted Scenario.national_site)
           Scenario.BeautifulSoup Scenario.urljoin
           Scenario.re_search Scenario.repr_container [] None _ _
           national_lots_exported).
Defined.

(** *** The sitemap pipeline on the property pages of the scenario *)

Example run_all_properties :
  ScenarioX.run ScenarioX.all_properties
  = Some (Pipeline.mkRunEnd 0
            (Some [Pipeline.fieldnames;
                   [ScenarioX.property_1_url; py "1 High Street";
                    py "1 High Street, Leeds LS1 1AA"; py "150,000";
                    py "Available"; []; py "12"]])).
Proof. vm_compute; reflexivity. Qed.

Example run_one_property :
  ScenarioX.run ScenarioX.one_property
  = Some (Pipeline.mkRunEnd 0
            (Some [Pipeline.fieldnames;
                   [ScenarioX.property_1_url; py "1 High Street";
                    py "1 High Street, Leeds LS1 1AA"; py "150,000";
                    py "Available"; []; py "12"]])).
Proof. vm_compute; reflexivity. Qed.

Lemma X9_run_limit_witness :
  (Z.of_nat
     (length [Pipeline.fieldnames;
              [ScenarioX.property_1_url; py "1 High Street";
               py "1 High Street, Leeds LS1 1AA"; py "150,000";
               py "Available"; []; py "12"]])
   <= 1 + 1)%Z.
Proof.
  apply (X9_run_limit UrlParse.no_bracket_check Scenario.Web
           (Scenario.scripted ScenarioX.property_site) Scenario.fromstring
           ScenarioX.title_of ScenarioX.address_of ScenarioX.guide_price_of
           ScenarioX.status_of ScenarioX.auction_date_of
           ScenarioX.lot_number_of [] ScenarioX.one_property 1);
    [reflexivity | lia | exact run_one_property].
Defined.

(** With sold properties included, the file has two data rows: the two
    pages that could be fetched, of the three that discovery returned. *)
Example run_with_sold :
  ScenarioX.run ScenarioX.with_sold
  = Some (Pipeline.mkRunEnd 0
            (Some [Pipeline.fieldnames;
                   [ScenarioX.property_1_url; py "1 High Street";
                    py "1 High Street, Leeds LS1 1AA"; py "150,000";
                    py "Available"; []; py "12"];
                   [ScenarioX.property_2_url; py "2 Mill Lane";
                    py "2 Mill Lane, York YO1 7HH"; []; py "Sold STC"; [];
                    []]])).
Proof. vm_compute; reflexivity. Qed.

Lemma X10_run_one_row_per_url_witness :
  NoDup
    (map (fun row => hd [] row)
       (tl [Pipeline.fieldnames;
            [ScenarioX.property_1_url; py "1 High Street";
             py "1 High Street, Leeds LS1 1AA"; py "150,000";
             py "Available"; []; py "12"];
            [ScenarioX.property_2_url; py "2 Mill Lane";
             py "2 Mill Lane, York YO1 7HH"; []; py "Sold STC"; []; []]]))
  /\ exists property_urls,
       Sitemap.result_of Scenario.Web
         (Sitemap.iter_sitemap_property_urls UrlParse.no_bracket_check
            Scenario.Web (Scenario.scripted ScenarioX.property_site)
            Scenario.fromstring [] Scenario.root_url 100)
       = Returned property_urls
       /\ forall row,
            In row
              (tl [Pipeline.fieldnames;
                   [ScenarioX.property_1_url; py "1 High Street";
                    py "1 High Street, Leeds LS1 1AA"; py "150,000";
                    py "Available"; []; py "12"];
                   [ScenarioX.property_2_url; py "2 Mill Lane";
                    py "2 Mill Lane, York YO1 7HH"; []; py "Sold STC"; [];
                    []]]) ->
            In (hd [] row) property_urls.
Proof.
  exact (X10_run_one_row_per_url UrlParse.no_bracket_check
           Scenario.Web (Scenario.scripted ScenarioX.property_site)
           Scenario.fromstring ScenarioX.title_of
           ScenarioX.address_of ScenarioX.guide_price_of
           ScenarioX.status_of ScenarioX.auction_date_of
           ScenarioX.lot_number_of [] ScenarioX.with_sold
           _ run_with_sold).
Defined.

(** ** The heuristic extractors of the sitemap pipeline *)

Section HeuristicsExtra.

Variable re_search : str -> str -> option str.
Variable re_found : str -> str -> bool.

Local Abbreviation _first_text := Heuristics._first_text.
Local Abbreviation first_by_class := Heuristics.first_by_class.
Local Abbreviation first_postcode := (Heuristics.first_postcode re_found).
Local Abbreviation first_postcode_by_tag :=
  (Heuristics.first_postcode_by_tag re_found).
Local Abbreviation extract_title := Heuristics.extract_title.
Local Abbreviation extract_address := (Heuristics.extract_address re_found).
Local Abbreviation extract_status := (Heuristics.extract_status re_search).

Lemma first_text_nonempty (elem : option str) :
  _first_text elem <> Some [].
Proof.
  destruct elem as [[|c s]|]; simpl; discriminate.
Qed.

Lemma first_by_class_found (soup : Page) (classes : list str) (t : str) :
  first_by_class soup classes = Some t ->
  t <> []
  /\ exists cls, In cls classes /\ soup.(by_class) cls = Some t.
Proof.
  induction classes as [|cls rest IH]; simpl; [discriminate|].
  destruct (by_class soup cls) as [[|c s]|] eqn:E; simpl.
  - intros H; destruct (IH H) as (Hne & cls' & Hin & Hc).
    split; [exact Hne | exists cls'; tauto].
  - intros H; inversion H; subst; split; [discriminate|].
    exists cls; split; [left; reflexivity | exact E].
  - intros H; destruct (IH H) as (Hne & cls' & Hin & Hc).
    split; [exact Hne | exists cls'; tauto].
Qed.

Lemma first_postcode_found (texts : list str) (t : str) :
  first_postcode texts = Some t ->
  t <> [] /\ In t texts /\ re_found postcode_pattern t = true.
Proof.
  induction texts as [|node rest IH]; simpl; [discriminate|].
  destruct node as [|c s]; simpl.
  - intros H; destruct (IH H) as (H1 & H2 & H3); tauto.
  - destruct (re_found postcode_pattern (c :: s)) eqn:E.
    + intros H; inversion H; subst; split; [discriminate|]; tauto.
    + intros H; destruct (IH H) as (H1 & H2 & H3); tauto.
Qed.

Lemma first_postcode_by_tag_found (soup : Page) (tag_names : list str)
    (t : str) :
  first_postcode_by_tag soup tag_names = Some t ->
  t <> []
  /\ re_found postcode_pattern t = true
  /\ exists tag_name, In tag_name tag_names /\ In t (soup.(by_tag) tag_name).
Proof.
  induction tag_names as [|tag_name rest IH]; simpl; [discriminate|].
  destruct (first_postcode (by_tag soup tag_name)) as [t'|] eqn:E.
  - intros H; inversion H; subst t'.
    destruct (first_postcode_found _ _ E) as (H1 & H2 & H3).
    split; [exact H1|]; split; [exact H3|].
    exists tag_name; split; [left; reflexivity | exact H2].
  - intros H; destruct (IH H) as (H1 & H2 & tn & H3 & H4).
    split; [exact H1|]; split; [exact H2|]; exists tn; tauto.
Qed.

(** X21: the title, the address and a status taken from a badge are never
    the empty string: an element that is missing or has no text gives an
    absent field. *)
Theorem X21_no_empty_heuristic_field (soup : Page) (text_blob : str) :
  extract_title soup <> Some []
  /\ extract_address soup <> Some []
  /\ (first_by_class soup status_classes <> None ->
      extract_status soup text_blob <> Some []).
Proof.
  split; [|split].
  - unfold Heuristics.extract_title, Heuristics.or_else.
    destruct (truthy (_first_text (h1 soup))); apply first_text_nonempty.
  - unfold Heuristics.extract_address.
    destruct (first_by_class soup address_classes) as [t|] eqn:E.
    + intros H; inversion H; subst.
      exact (proj1 (first_by_class_found _ _ _ E) eq_refl).
    + destruct (first_postcode_by_tag soup address_tags) as [t|] eqn:E2;
        [|discriminate].
      intros H; inversion H; subst.
      exact (proj1 (first_postcode_by_tag_found _ _ _ E2) eq_refl).
  - unfold Heuristics.extract_status.
    destruct (first_by_class soup status_classes) as [t|] eqn:E;
      [|congruence].
    intros _ H; inversion H; subst.
    exact (proj1 (first_by_class_found _ _ _ E) eq_refl).
Qed.

(** X22: an address that is extracted is the text of an element with an
    address-like class, or, when no such element has text, the text of a
    [p], [div], [span] or [li] element in which the postcode pattern is
    found. *)
Theorem X22_address_origin (soup : Page) (t : str) :
  extract_address soup = Some t ->
  (exists cls, In cls address_classes /\ soup.(by_class) cls = Some t)
  \/ (first_by_class soup address_classes = None
      /\ re_found postcode_pattern t = true
      /\ exists tag_name,
           In tag_name address_tags /\ In t (soup.(by_tag) tag_name)).
Proof.
  unfold Heuristics.extract_address.
  destruct (first_by_class soup address_classes) as [t'|] eqn:E.
  - intros H; inversion H; subst t'; left.
    exact (proj2 (first_by_class_found _ _ _ E)).
  - intros H; right; split; [reflexivity|].
    exact (proj2 (first_postcode_by_tag_found _ _ _ H)).
Qed.

(** X23: a page whose status badge holds one of the five keywords is
    parsed to a record that is not for sale, whatever its text says and
    whether or not it shows a guide price. *)
Theorem X23_sold_badge_not_for_sale (soup : Page) (url badge flag : str) :
  first_by_class soup status_classes = Some badge ->
  In flag sold_flags ->
  contains flag (lower badge) = true ->
  is_for_sale (Heuristics.parse_soup re_search re_found soup url) = false.
Proof.
  intros Hb Hf Hc.
  apply (is_for_sale_flagged _ flag Hf).
  unfold Heuristics.parse_soup; cbn [status].
  unfold Heuristics.extract_status; rewrite Hb; exact Hc.
Qed.

End HeuristicsExtra.

Lemma X22_address_origin_witness :
  (exists cls,
      In cls address_classes
      /\ ScenarioX.property_2_page.(by_class) cls
         = Some (py "2 Mill Lane, York YO1 7HH"))
  \/ (Heuristics.first_by_class ScenarioX.property_2_page address_classes
      = None
      /\ ScenarioX.re_found postcode_pattern (py "2 Mill Lane, York YO1 7HH")
         = true
      /\ exists tag_name,
           In tag_name address_tags
           /\ In (py "2 Mill Lane, York YO1 7HH")
                (ScenarioX.property_2_page.(by_tag) tag_name)).
Proof.
  apply (X22_address_origin ScenarioX.re_search ScenarioX.re_found
           ScenarioX.property_2_page).
  vm_compute; reflexivity.
Defined.

Lemma X23_sold_badge_witness :
  is_for_sale
    (Heuristics.parse_soup ScenarioX.re_search ScenarioX.re_found
       ScenarioX.property_2_page ScenarioX.property_2_url)
  = false.
Proof.
  apply (X23_sold_badge_not_for_sale ScenarioX.re_search ScenarioX.re_found
           ScenarioX.property_2_page ScenarioX.property_2_url
           (py "Sold STC") (py "sold"));
    [vm_compute; reflexivity | left; reflexivity | vm_compute; reflexivity].
Defined.

(** ** The address graph *)

Lemma str_eqb_sym (a b : str) : str_eqb a b = str_eqb b a.
Proof.
  destruct (str_eqb a b) eqn:E1, (str_eqb b a) eqn:E2; try reflexivity.
  - apply str_eqb_eq in E1; subst; rewrite str_eqb_refl in E2; discriminate.
  - apply str_eqb_eq in E2; subst; rewrite str_eqb_refl in E1; discriminate.
Qed.

Lemma sdict_set_keys (V : Type) (d : list (str * V)) (k : str) (v : V) :
  map fst (sdict_set d k v) = SpecX.add_key (map fst d) k.
Proof.
  unfold SpecX.add_key.
  induction d as [|[k' v'] d IH]; simpl; [reflexivity|].
  rewrite (str_eqb_sym k k').
  destruct (str_eqb k' k) eqn:E; simpl.
  - apply str_eqb_eq in E; subst; reflexivity.
  - rewrite IH; destruct (mem k (map fst d)); reflexivity.
Qed.

Lemma sdict_get_set (V : Type) (d : list (str * V)) (k : str) (v : V)
    (a : str) :
  sdict_get d a <> None -> sdict_get (sdict_set d k v) a <> None.
Proof.
  induction d as [|[k' v'] d IH]; simpl; [congruence|].
  destruct (str_eqb k' a) eqn:Ea.
  - intros _; destruct (str_eqb k' k) eqn:Ek; simpl.
    + apply str_eqb_eq in Ek; subst k'; rewrite Ea; discriminate.
    + rewrite Ea; discriminate.
  - intros H; destruct (str_eqb k' k) eqn:Ek; simpl.
    + apply str_eqb_eq in Ek; subst k'; rewrite Ea; exact H.
    + rewrite Ea; exact (IH H).
Qed.

Lemma sdict_get_set_same (V : Type) (d : list (str * V)) (k : str) (v : V) :
  sdict_get (sdict_set d k v) k = Some v.
Proof.
  induction d as [|[k' v'] d IH]; simpl.
  - rewrite str_eqb_refl; reflexivity.
  - destruct (str_eqb k' k) eqn:E; simpl.
    + rewrite str_eqb_refl; reflexivity.
    + rewrite E; exact IH.
Qed.

Lemma sdict_get_In (V : Type) (d : list (str * V)) (k : str) :
  In k (map fst d) -> exists v, sdict_get d k = Some v.
Proof.
  induction d as [|[k' v'] d IH]; simpl; [intros []|].
  destruct (str_eqb k' k) eqn:E; [intros _; eexists; reflexivity|].
  intros [->|H]; [rewrite str_eqb_refl in E; discriminate | exact (IH H)].
Qed.

Lemma filter_filter (A : Type) (f g : A -> bool) (l : list A) :
  filter f (filter g l) = filter (fun y => g y && f y) l.
Proof.
  induction l as [|x l IH]; simpl; [reflexivity|].
  destruct (g x); simpl; [destruct (f x)|]; rewrite IH; reflexivity.
Qed.

Lemma mem_app_one (y c : str) (ks : list str) :
  mem y (ks ++ [c]) = mem y ks || str_eqb y c.
Proof.
  unfold mem; rewrite existsb_app; simpl; rewrite orb_false_r; reflexivity.
Qed.

Lemma add_keys_first_occurrences (l : list str) :
  forall ks,
    fold_left SpecX.add_key l ks
    = ks ++ filter (fun y => negb (mem y ks)) (Spec.first_occurrences l).
Proof.
  induction l as [|c l IH]; intros ks; simpl; [rewrite app_nil_r|];
    [reflexivity|].
  rewrite IH; unfold SpecX.add_key.
  rewrite filter_filter.
  destruct (mem c ks) eqn:E; simpl.
  - f_equal; apply filter_ext_in; intros y _.
    destruct (str_eqb y c) eqn:Ey; simpl; [|reflexivity].
    apply str_eqb_eq in Ey; subst y; rewrite E; reflexivity.
  - rewrite <- app_assoc; simpl; do 2 f_equal.
    apply filter_ext; intros y.
    rewrite mem_app_one, negb_orb; apply andb_comm.
Qed.

Lemma combinations2_length (A : Type) (l : list A) :
  2 * length (combinations2 l) = length l * (length l - 1).
Proof.
  induction l as [|x l IH]; simpl; [reflexivity|].
  rewrite length_app, length_map, Nat.sub_0_r.
  destruct l as [|y l]; [reflexivity|].
  simpl in *; rewrite Nat.sub_0_r in IH; lia.
Qed.

Lemma combinations2_In (A : Type) (l : list A) (a b : A) :
  In (a, b) (combinations2 l) -> In a l /\ In b l.
Proof.
  induction l as [|x l IH]; simpl; [intros []|].
  rewrite in_app_iff, in_map_iff.
  intros [(y & Hy & Hin)|H].
  - inversion Hy; subst; tauto.
  - destruct (IH H); tauto.
Qed.

Lemma combinations2_distinct (l : list str) :
  NoDup l ->
  SpecX.distinct_pairs (combinations2 l)
  /\ forall a b, In (a, b) (combinations2 l) -> a <> b.
Proof.
  induction 1 as [|x l Hx Hl [IHd IHn]]; simpl; [split; [exact I|]|].
  - intros a b [].
  - assert (Hmap : forall r,
               NoDup r -> ~ In x r ->
               (forall q, In q (combinations2 l) -> ~ In x [fst q; snd q]) ->
               SpecX.distinct_pairs (map (pair x) r ++ combinations2 l)).
    { induction 1 as [|y r Hy Hr IHr]; intros Hxr Hq; simpl; [exact IHd|].
      split.
      - intros q Hin [[H1 H2]|[H1 H2]]; simpl in H1, H2.
        + apply in_app_or in Hin; destruct Hin as [Hin|Hin].
          * apply in_map_iff in Hin; destruct Hin as (z & <- & Hz).
            simpl in H2; subst z; exact (Hy Hz).
          * apply (Hq q Hin); left; symmetry; exact H1.
        + apply in_app_or in Hin; destruct Hin as [Hin|Hin].
          * apply in_map_iff in Hin; destruct Hin as (z & <- & Hz).
            simpl in H1, H2; subst y; apply Hxr; left; reflexivity.
          * apply (Hq q Hin); right; left; symmetry; exact H1.
      - apply IHr; [|exact Hq].
        intros Hin; apply Hxr; right; exact Hin. }
    split.
    + apply Hmap; [exact Hl | exact Hx|].
      intros [a b] Hin [H|[H|[]]]; simpl in H; subst;
        destruct (combinations2_In _ _ _ _ Hin); contradiction.
    + intros a b Hin; apply in_app_or in Hin; destruct Hin as [Hin|Hin].
      * apply in_map_iff in Hin; destruct Hin as (z & Hz & Hin).
        inversion Hz; subst; intros ->; contradiction.
      * exact (IHn a b Hin).
Qed.

Section GraphExtra.

Variable W : Type.
Variable Float : Type.
Variable geocode_address :
  W -> str -> W * result geo_error (option (Float * Float)).
Variable haversine_km : Float -> Float -> Float -> Float -> Float.

Local Abbreviation Geo := (Graph.Geo W Float).
Local Abbreviation mkGeo := (Graph.mkGeo W Float).
Local Abbreviation geocode_all := (Graph.geocode_all W Float geocode_address).
Local Abbreviation geocoded := (Graph.geocoded W Float geocode_address).
Local Abbreviation coords := (Graph.coords W Float).
Local Abbreviation cache := (Graph.cache W Float).
Local Abbreviation requests := (Graph.requests W Float).
Local Abbreviation resolved_of := (Graph.resolved_of Float).
Local Abbreviation unresolved_of := (Graph.unresolved_of Float).
Local Abbreviation add_edge := (Graph.add_edge Float).
Local Abbreviation joins := (Graph.joins Float).
Local Abbreviation build_graph := (Graph.build_graph Float haversine_km).
Local Abbreviation make_graph :=
  (Graph.make_graph W Float geocode_address haversine_km).

Lemma geocode_all_keys (addresses : list str) :
  forall st : Geo,
    map fst (coords (geocode_all addresses st))
    = fold_left SpecX.add_key addresses (map fst (coords st)).
Proof.
  induction addresses as [|addr rest IH]; intros st; simpl; [reflexivity|].
  destruct (sdict_get (cache st) addr) as [cached|].
  - rewrite IH; simpl; rewrite sdict_set_keys; reflexivity.
  - destruct (geocode_address (Graph.world W Float st) addr) as [w [res|e]];
      rewrite IH; simpl; rewrite sdict_set_keys; reflexivity.
Qed.

Lemma geocoded_keys (w : W) (addresses : list str) :
  map fst (coords (geocoded w addresses))
  = Spec.first_occurrences addresses.
Proof.
  unfold Graph.geocoded; rewrite geocode_all_keys; simpl.
  rewrite add_keys_first_occurrences; simpl.
  apply filter_all; intros x _; reflexivity.
Qed.

(** X24: after the geocoding loop [coords] names every address given,
    each once, in the order of their first appearance: an address that
    could not be geocoded has an entry too. *)
Theorem X24_coords_names_every_address (w : W) (addresses : list str) :
  map fst (coords (geocoded w addresses))
  = Spec.first_occurrences addresses.
Proof. apply geocoded_keys. Qed.

Local Abbreviation answered_once := (SpecX.answered_once W Float).

Lemma geocode_all_answered_once (addresses : list str) :
  forall st : Geo, answered_once st ->
              answered_once (geocode_all addresses st).
Proof.
  induction addresses as [|addr rest IH]; intros st Hst; simpl; [exact Hst|].
  destruct (sdict_get (cache st) addr) as [cached|] eqn:Ec.
  - apply IH; exact Hst.
  - destruct Hst as [Hc Hl].
    assert (Hnew : forall b later a earlier,
               (addr, b) :: requests st = later ++ (a, true) :: earlier ->
               ~ In a (map fst later)).
    { intros b later a earlier Heq.
      destruct later as [|x later]; [intros []|].
      simpl in Heq; inversion Heq; subst x; simpl.
      intros [<-|Hin].
      - apply (Hc addr); [|exact Ec].
        rewrite H1; apply in_or_app; right; left; reflexivity.
      - exact (Hl _ _ _ H1 Hin). }
    destruct (geocode_address (Graph.world W Float st) addr) as [w [res|e]];
      apply IH; split; simpl.
    + intros a [Ha|Ha].
      * inversion Ha; subst a; rewrite sdict_get_set_same; discriminate.
      * apply sdict_get_set; exact (Hc a Ha).
    + exact (Hnew true).
    + intros a [Ha|Ha]; [discriminate | exact (Hc a Ha)].
    + exact (Hnew false).
Qed.

(** X25: an address that the service has answered, with a position or
    with no match, is never sent to it again: it is served from the cache.
    Only an address whose request raised is sent again when it comes up
    again. *)
Theorem X25_answered_addresses_not_sent_again (w : W)
    (addresses : list str) (later earlier : list (str * bool)) (a : str) :
  requests (geocoded w addresses) = later ++ (a, true) :: earlier ->
  ~ In a (map fst later).
Proof.
  apply (geocode_all_answered_once addresses (mkGeo w [] [] [])).
  split; simpl; [intros b [] | intros l b e H].
  destruct l; discriminate.
Qed.

(** *** The graph *)

Lemma resolved_of_keys (cs : list (str * option (Float * Float))) :
  NoDup (map fst cs) -> NoDup (map fst (resolved_of cs)).
Proof.
  induction cs as [|[k [c|]] cs IH]; simpl; intros H; [constructor| |];
    inversion H as [|? ? Hk Hn]; subst; [|exact (IH Hn)].
  constructor; [|exact (IH Hn)].
  intros Hin; apply Hk.
  apply in_map_iff in Hin; destruct Hin as ([k' c'] & <- & Hin).
  unfold Graph.resolved_of in Hin; apply in_flat_map in Hin.
  destruct Hin as ([k2 [c2|]] & Hin & Hc); simpl in Hc; [|destruct Hc].
  destruct Hc as [Hc|[]]; inversion Hc; subst.
  apply in_map_iff; exists (k', Some c'); split; [reflexivity | exact Hin].
Qed.

Lemma add_edge_fresh (es : list (str * str * Float)) (a b : str)
    (w : Float) :
  (forall e, In e es -> joins a b e = false) ->
  add_edge es a b w = es ++ [(a, b, w)].
Proof.
  induction es as [|e es IH]; intros H; simpl; [reflexivity|].
  rewrite (H e (or_introl eq_refl)), IH; [reflexivity|].
  intros e' He'; apply H; right; exact He'.
Qed.

Lemma joins_same_pair (a b : str) (e : str * str * Float) :
  joins a b e = true -> SpecX.same_pair (a, b) (fst e).
Proof.
  unfold Graph.joins, SpecX.same_pair.
  rewrite orb_true_iff, !andb_true_iff, !str_eqb_eq; simpl.
  intros [[H1 H2]|[H1 H2]]; [left | right]; split; congruence.
Qed.

(** The edges built from pairs that are all different and all known: one
    edge for each pair, in order. *)
Lemma build_edges (resolved : list (str * (Float * Float)))
    (ps : list (str * str)) :
  SpecX.distinct_pairs ps ->
  (forall p, In p ps ->
        In (fst p) (map fst resolved) /\ In (snd p) (map fst resolved)) ->
  forall es,
    (forall e p, In e es -> In p ps -> ~ SpecX.same_pair p (fst e)) ->
    map fst
      (fold_left
         (fun es ab =>
            match sdict_get resolved (fst ab), sdict_get resolved (snd ab)
            with
            | Some (lat1, lon1), Some (lat2, lon2) =>
                add_edge es (fst ab) (snd ab)
                  (haversine_km lat1 lon1 lat2 lon2)
            | _, _ => es
            end)
         ps es)
    = map fst es ++ ps.
Proof.
  induction ps as [|[a b] ps IH]; intros Hd Hk es He; simpl;
    [rewrite app_nil_r; reflexivity|].
  destruct Hd as [Hd1 Hd2].
  destruct (Hk (a, b) (or_introl eq_refl)) as [Ha Hb]; simpl in Ha, Hb.
  destruct (sdict_get_In _ resolved a Ha) as [[lat1 lon1] ->].
  destruct (sdict_get_In _ resolved b Hb) as [[lat2 lon2] ->].
  rewrite add_edge_fresh.
  - rewrite IH; [rewrite map_app, <- app_assoc; reflexivity | exact Hd2 | |].
    + intros p Hp; apply Hk; right; exact Hp.
    + intros e p Hin Hp; apply in_app_or in Hin; destruct Hin as [Hin|Hin].
      * apply (He e p Hin); right; exact Hp.
      * destruct Hin as [<-|[]]; simpl.
        intros [[H1 H2]|[H1 H2]]; apply (Hd1 p Hp);
          [left | right]; split; congruence.
  - intros e Hin.
    destruct (joins a b e) eqn:Ej; [|reflexivity].
    exfalso; apply (He e (a, b) Hin (or_introl eq_refl)).
    exact (joins_same_pair _ _ _ Ej).
Qed.

(** X26: the graph joins every two different addresses that were
    geocoded by exactly one edge: with [n] such addresses it has
    [n (n - 1) / 2] edges, the pairs of [combinations] in order, and no
    edge from an address to itself. *)
Theorem X26_complete_graph (w : W) (addresses : list str) :
  let resolved := resolved_of (coords (geocoded w addresses)) in
  let g := make_graph w addresses in
  map fst (Graph.edges Float g) = combinations2 (map fst resolved)
  /\ 2 * length (Graph.edges Float g)
     = length resolved * (length resolved - 1)
  /\ forall a b weight,
       In (a, b, weight) (Graph.edges Float g) ->
       a <> b /\ In a (map fst resolved) /\ In b (map fst resolved).
Proof.
  intros resolved g.
  assert (Hnd : NoDup (map fst resolved)).
  { apply resolved_of_keys.
    rewrite geocoded_keys; apply first_occurrences_NoDup. }
  destruct (combinations2_distinct _ Hnd) as [Hd Hne].
  assert (He : map fst (Graph.edges Float g)
               = combinations2 (map fst resolved)).
  { subst g; unfold Graph.make_graph, Graph.build_graph; simpl.
    fold resolved.
    rewrite (build_edges resolved _ Hd); [reflexivity| |intros e p []].
    intros [a b] Hin; exact (combinations2_In _ _ _ _ Hin). }
  split; [exact He|]; split.
  - rewrite <- (length_map fst), He, combinations2_length, length_map.
    reflexivity.
  - intros a b weight Hin.
    assert (Hp : In (a, b) (combinations2 (map fst resolved))).
    { rewrite <- He; apply in_map_iff; exists (a, b, weight); tauto. }
    split; [exact (Hne a b Hp) | exact (combinations2_In _ _ _ _ Hp)].
Qed.

End GraphExtra.

(** *** The geocoding loop on an example *)

Example geocoded_requests :
  Graph.requests nat Z
    (Graph.geocoded nat Z ScenarioG.geocode_address 0 ScenarioG.addresses)
  = [(py "Manchester Piccadilly Station, UK", true);
     (py "Nowhere at all", true);
     (py "Buckingham Palace, London, SW1A 1AA, UK", true);
     (py "10 Downing Street, London, SW1A 2AA, UK", true);
     (py "10 Downing Street, London, SW1A 2AA, UK", false)].
Proof. vm_compute; reflexivity. Qed.

Lemma X25_answered_addresses_witness :
  ~ In (py "Buckingham Palace, London, SW1A 1AA, UK")
      (map fst
         [(py "Manchester Piccadilly Station, UK", true);
          (py "Nowhere at all", true)]).
Proof.
  apply (X25_answered_addresses_not_sent_again nat Z
           ScenarioG.geocode_address 0 ScenarioG.addresses
           [(py "Manchester Piccadilly Station, UK", true);
            (py "Nowhere at all", true)]
           [(py "10 Downing Street, London, SW1A 2AA, UK", true);
            (py "10 Downing Street, London, SW1A 2AA, UK", false)]
           (py "Buckingham Palace, London, SW1A 1AA, UK")).
  exact geocoded_requests.
Defined.

(** Three of the four addresses are geocoded: three edges. *)
Example graph_of_addresses :
  map fst
    (Graph.edges Z
       (Graph.make_graph nat Z ScenarioG.geocode_address ScenarioG.distance
          0 ScenarioG.addresses))
  = [(py "10 Downing Street, London, SW1A 2AA, UK",
      py "Buckingham Palace, London, SW1A 1AA, UK");
     (py "10 Downing Street, London, SW1A 2AA, UK",
      py "Manchester Piccadilly Station, UK");
     (py "Buckingham Palace, London, SW1A 1AA, UK",
      py "Manchester Piccadilly Station, UK")].
Proof. vm_compute; reflexivity. Qed.
